(** * Smtp-server-py: the SMTP receiver and the POP3 maildrop, verified

    A shallow embedding of [smtp_server.py] and [pop3_server.py].

    - [Py]    : the Python string operations the two servers use
                ([upper], [startswith], [rstrip], [split], [join], [int],
                the two [re.match] patterns), on ASCII text, the wire
                format of both protocols.
    - [Smtp]  : [save_email] and [handle_client] of [smtp_server.py].
    - [Pop3]  : [Maildrop] and [POP3Session] of [pop3_server.py].
    - [PyFacts], [SmtpFacts], [Pop3Facts], [MailFacts] : what is proved
                of them; the statements numbered C1 to C10 are the
                properties of the specification.
    - [SmtpMore], [Pop3More], [MailMore] : further properties of the
                code, numbered X1 to X23: the other commands, how a
                session ends, what it does to the directory, and what
                passes between the two servers.

    Text and raw bytes are both [string] (a list of 8-bit characters).
    A Python exception is a value of [exn]; a call that may raise returns
    [res A].  The mailbox directory is a finite map from file names to
    files.  A connection's input is the list of the outcomes of the
    successive [readline()] calls: [Ok line] when the call returns
    [line], [Raise e] when it raises (the [ValueError] of a line over the
    stream's limit); past the end of the list [readline()] returns
    [b""].  Writes to the peer, [drain()] and writes to the mailbox are
    taken to succeed, and no other process touches the directory during
    a call.  The POP3 session
    decodes its lines as UTF-8; its model reads the bytes of a line as
    its text, which they are for a line of ASCII bytes, and the
    properties that depend on the text of a line are stated for such
    lines. *)

From Stdlib Require Import ZArith Ascii String List Lia.
From stdpp Require Import base option list strings gmap sorting pretty.

Local Open Scope Z_scope.

(** * Exceptions *)

Inductive exn : Type :=
  | IndexError (msg : string)
  | ValueError (msg : string)
  | UnicodeDecodeError (msg : string)
  | FileNotFoundError (msg : string)
  | PermissionError (msg : string).

(** [str(e)] *)
Definition str_exn (e : exn) : string :=
  match e with
  | IndexError m | ValueError m | UnicodeDecodeError m
  | FileNotFoundError m | PermissionError m => m
  end.

Inductive res (A : Type) : Type :=
  | Ok (a : A)
  | Raise (e : exn).
Arguments Ok {A} a.
Arguments Raise {A} e.

Definition res_bind {A B} (r : res A) (k : A → res B) : res B :=
  match r with
  | Ok a => k a
  | Raise e => Raise e
  end.

Notation "x ←! r ; k" := (res_bind r (λ x, k))
  (at level 20, r at level 100, k at level 200, right associativity,
   format "x  ←!  r ;  '/' k").

(** How one pass through the body of a [while True] ends. *)
Inductive flow : Type := Next | Break.

(** * Python string operations *)

Module Py.

Definition CR : string := String "013"%char EmptyString.
Definition LF : string := String "010"%char EmptyString.
Definition CRLF : string := CR +:+ LF.

(** A line as a peer sends it, ended by CR LF. *)
Definition wire_line (s : string) : string := s +:+ CRLF.

Definition code (c : ascii) : N := N_of_ascii c.

Definition is_ascii (c : ascii) : bool := (code c <? 128)%N.

(** [str.isspace] on one ASCII character: TAB, LF, VT, FF, CR, the four
    separators FS, GS, RS, US, and the space. *)
Definition isspace (c : ascii) : bool :=
  ((9 <=? code c) && (code c <=? 13) || (28 <=? code c) && (code c <=? 32))%N.

Definition isdigit (c : ascii) : bool :=
  ((48 <=? code c) && (code c <=? 57))%N.

Definition upper_char (c : ascii) : ascii :=
  if ((97 <=? code c) && (code c <=? 122))%N
  then ascii_of_N (code c - 32) else c.

(** [s.upper()] *)
Fixpoint upper (s : string) : string :=
  match s with
  | EmptyString => EmptyString
  | String c s' => String (upper_char c) (upper s')
  end.

(** [s.startswith(p)] *)
Definition startswith (s p : string) : bool := String.prefix p s.

(** [s[1:]] *)
Definition tail (s : string) : string :=
  match s with
  | EmptyString => EmptyString
  | String _ s' => s'
  end.

(** [s[n:]] for [0 <= n] *)
Fixpoint drop (n : nat) (s : string) : string :=
  match n, s with
  | O, _ => s
  | S n', String _ s' => drop n' s'
  | S _, EmptyString => EmptyString
  end.

Definition is_crlf (c : ascii) : bool :=
  bool_decide (c = "013"%char) || bool_decide (c = "010"%char).

(** [s.rstrip("\r\n")]: every trailing CR and LF goes, in any order. *)
Fixpoint rstrip_crlf (s : string) : string :=
  match s with
  | EmptyString => EmptyString
  | String c s' =>
      match rstrip_crlf s' with
      | EmptyString => if is_crlf c then EmptyString else String c EmptyString
      | r => String c r
      end
  end.

(** Leading whitespace skipped. *)
Fixpoint lstrip (s : string) : string :=
  match s with
  | String c s' => if isspace c then lstrip s' else s
  | EmptyString => EmptyString
  end.

(** The longest prefix of characters satisfying [p], and the rest. *)
Fixpoint span (p : ascii → bool) (s : string) : string * string :=
  match s with
  | String c s' =>
      if p c then let '(a, b) := span p s' in (String c a, b)
      else (EmptyString, s)
  | EmptyString => (EmptyString, EmptyString)
  end.

Fixpoint split_go (cur : string) (s : string) : list string :=
  match s with
  | EmptyString => match cur with EmptyString => [] | _ => [cur] end
  | String c s' =>
      if isspace c
      then match cur with
           | EmptyString => split_go EmptyString s'
           | _ => cur :: split_go EmptyString s'
           end
      else split_go (cur +:+ String c EmptyString) s'
  end.

(** [s.split()]: the maximal runs of non-whitespace characters. *)
Definition split (s : string) : list string := split_go EmptyString s.

(** [s.split(maxsplit=1)]: the first word, then the remainder with its
    leading whitespace removed, when something is left. *)
Definition split_max1 (s : string) : list string :=
  match lstrip s with
  | EmptyString => []
  | s1 =>
      let '(w, r) := span (λ c, negb (isspace c)) s1 in
      match lstrip r with
      | EmptyString => [w]
      | r' => [w; r']
      end
  end.

(** [sep.join(l)] *)
Fixpoint join (sep : string) (l : list string) : string :=
  match l with
  | [] => EmptyString
  | [x] => x
  | x :: l' => x +:+ sep +:+ join sep l'
  end.

(** One hexadecimal digit, in lower case. *)
Definition hex_digit (n : N) : ascii :=
  match n with
  | 0 => "0" | 1 => "1" | 2 => "2" | 3 => "3" | 4 => "4" | 5 => "5"
  | 6 => "6" | 7 => "7" | 8 => "8" | 9 => "9" | 10 => "a" | 11 => "b"
  | 12 => "c" | 13 => "d" | 14 => "e" | _ => "f"
  end%char%N.

(** A byte as ["%02x"] prints it. *)
Definition hex2 (c : ascii) : string :=
  String (hex_digit (code c / 16)) (String (hex_digit (code c mod 16)) EmptyString).

(** The first byte above 127 from position [pos] on, with its position. *)
Fixpoint first_non_ascii (pos : Z) (s : string) : option (Z * ascii) :=
  match s with
  | EmptyString => None
  | String c s' => if is_ascii c then first_non_ascii (pos + 1) s' else Some (pos, c)
  end.

(** [data.decode("ascii")]: the error names the first byte above 127
    and where it stands. *)
Definition decode_ascii (data : string) : res string :=
  match first_non_ascii 0 data with
  | None => Ok data
  | Some (pos, c) =>
      Raise (UnicodeDecodeError
               ("'ascii' codec can't decode byte 0x" +:+ hex2 c +:+ " in position "
                +:+ pretty pos +:+ ": ordinal not in range(128)"))
  end.

(** [re.match(KEYWORD + r"\s*<([^>]+)>", message, re.IGNORECASE)] and
    its [group(1)], for a keyword in upper case such as ["MAIL FROM:"].
    The match is anchored at the start only; [\s*] cannot give back a
    character to [<], nor [[^>]+] to [>], so there is no backtracking. *)
Definition match_path (keyword message : string) : option string :=
  if startswith (upper message) keyword then
    match lstrip (drop (String.length keyword) message) with
    | String "<"%char r =>
        match span (λ c, negb (bool_decide (c = ">"%char))) r with
        | (EmptyString, _) => None
        | (addr, String ">"%char _) => Some addr
        | _ => None
        end
    | _ => None
    end
  else None.

(** [s.endswith(p)] *)
Fixpoint endswith (s p : string) : bool :=
  bool_decide (s = p)
  || match s with
     | String _ s' => endswith s' p
     | EmptyString => false
     end.

(** [s.replace("\r\n", "\n")] *)
Fixpoint replace_crlf (s : string) : string :=
  match s with
  | String "013"%char (String "010"%char s') => String "010"%char (replace_crlf s')
  | String c s' => String c (replace_crlf s')
  | EmptyString => EmptyString
  end.

(** [s.replace("\r", "\n")] *)
Fixpoint replace_cr (s : string) : string :=
  match s with
  | String c s' =>
      String (if bool_decide (c = "013"%char) then "010"%char else c) (replace_cr s')
  | EmptyString => EmptyString
  end.

(** [s.split("\n")]: the pieces between line feeds, empty ones kept. *)
Fixpoint split_lf (s : string) : list string :=
  match s with
  | EmptyString => [EmptyString]
  | String c s' =>
      if bool_decide (c = "010"%char) then EmptyString :: split_lf s'
      else match split_lf s' with
           | l :: ls => String c l :: ls
           | [] => [String c EmptyString]
           end
  end.

Definition digit (c : ascii) : Z := Z.of_N (code c) - 48.

(** The digits of [int(s)], where single underscores may separate them. *)
Fixpoint digits (acc : Z) (underscore : bool) (s : string) : option Z :=
  match s with
  | EmptyString => if underscore then None else Some acc
  | String c s' =>
      if isdigit c then digits (10 * acc + digit c) false s'
      else if bool_decide (c = "_"%char) && negb underscore then digits acc true s'
      else None
  end.

Definition unsigned (s : string) : option Z :=
  match s with
  | String c _ => if isdigit c then digits 0 false s else None
  | EmptyString => None
  end.

(** The number of digits in a literal. *)
Fixpoint count_digits (s : string) : Z :=
  match s with
  | EmptyString => 0
  | String c s' => (if isdigit c then 1 else 0) + count_digits s'
  end.

(** [int(s)] for a word [s] of ASCII text (no whitespace): an optional
    sign, then decimal digits, single underscores between them; a
    well-formed literal of more than 4300 digits (leading zeros counted,
    sign and underscores not) is refused: the default limit of CPython
    from 3.11 on, and of the security releases before it.  Both failures
    are a [ValueError]. *)
Definition int (s : string) : res Z :=
  let r := match s with
           | String "+"%char s' => unsigned s'
           | String "-"%char s' => Z.opp <$> unsigned s'
           | _ => unsigned s
           end in
  match r with
  | Some z =>
      if 4300 <? count_digits s
      then Raise (ValueError
                    ("Exceeds the limit (4300 digits) for integer string conversion: value has "
                     +:+ pretty (count_digits s)
                     +:+ " digits; use sys.set_int_max_str_digits() to increase the limit"))
      else Ok z
  | None => Raise (ValueError ("invalid literal for int() with base 10: '" +:+ s +:+ "'"))
  end.

(** [l[i]] on a list, negative indices counting from the end. *)
Definition index {A} (l : list A) (i : Z) : res A :=
  let n := Z.of_nat (length l) in
  let j := if i <? 0 then i + n else i in
  if (0 <=? j) && (j <? n) then
    match l !! Z.to_nat j with
    | Some x => Ok x
    | None => Raise (IndexError "list index out of range")
    end
  else Raise (IndexError "list index out of range").

(** Truth value of an optional string ([None] and [""] are false). *)
Definition truthy (o : option string) : bool :=
  match o with
  | Some (String _ _) => true
  | _ => false
  end.

(** [f"{x}"] for an optional string *)
Definition fmt (o : option string) : string := default "None" o.

(** The chunks the successive [readline()] calls return for a stream:
    each goes up to and including the next LF; the last one has no LF
    when the stream does not end in one. *)
Fixpoint readlines (s : string) : list string :=
  match s with
  | EmptyString => []
  | String c s' =>
      if bool_decide (c = "010"%char) then String c EmptyString :: readlines s'
      else match readlines s' with
           | l :: ls => String c l :: ls
           | [] => [String c EmptyString]
           end
  end.

End Py.

(** * The mailbox directory

    One directory, shared by the two servers: file name to file.  A file
    carries its content, its modification time (whole seconds), whether it
    is a regular file, and whether [unlink] on it raises (a permission
    error and the like). *)

Record file : Type := File {
  is_file : bool;
  content : string;
  st_mtime : Z;
  unlink_raises : bool
}.

Definition st_size (f : file) : Z := Z.of_nat (String.length (content f)).

(** * smtp_server.py *)

Module Smtp.

(** [save_email]: [stamp] is what [utcnow().strftime("%Y%m%d%H%M%S")]
    returned and [uid] what [str(uuid.uuid4())] returned at this call;
    [mtime] is the time the file system records for the write. *)
Definition filename (stamp uid : string) : string :=
  stamp +:+ "_" +:+ uid +:+ ".eml".

Definition record_text (mail_from : option string) (rcpt_to : list string)
    (body : string) : string :=
  ("From: " +:+ Py.fmt mail_from +:+ Py.LF)
  +:+ fold_right (λ rcpt acc, ("To: " +:+ rcpt +:+ Py.LF) +:+ acc)
        (Py.LF +:+ body) rcpt_to.

Definition save_email (stamp uid : string) (mtime : Z)
    (mail_from : option string) (rcpt_to : list string) (body : string)
    (mailbox : gmap string file) : gmap string file :=
  <[filename stamp uid :=
      {| is_file := true; content := record_text mail_from rcpt_to body;
         st_mtime := mtime; unlink_raises := false |}]> mailbox.

(** The [state] dictionary of [handle_client]. *)
Record State : Type := mkState {
  helo : option string;
  mail_from : option string;
  rcpt_to : list string;
  data : option string
}.

Definition initial : State :=
  {| helo := None; mail_from := None; rcpt_to := []; data := None |}.

(** What a connection does to the outside, in order. *)
Inductive effect : Type :=
  | Send (line : string)
  | SaveEmail (mail_from : option string) (rcpt_to : list string) (body : string)
  | Close.

(** [if line.startswith(".."): line = line[1:]] *)
Definition transparency (line : string) : string :=
  if Py.startswith line ".." then Py.tail line else line.

(** The inner [while True] of DATA.  [input] holds the outcomes of the
    successive [reader.readline()] calls; past its end, [readline] returns
    [b""].  An exception of [readline] leaves the loop and the handler.
    The result is [lines] and the input left. *)
Fixpoint read_data (lines : list string) (input : list (res string))
    : res (list string * list (res string)) :=
  match input with
  | [] => Ok (lines, [])
  | Raise e :: _ => Raise e
  | Ok line :: input' =>
      match line with
      | EmptyString => Ok (lines, input')
      | _ =>
          text ←! Py.decode_ascii line;
          let line := Py.rstrip_crlf text in
          if bool_decide (line = ".") then Ok (lines, input')
          else read_data (lines ++ [transparency line]) input'
      end
  end.

Section Handler.

Variable hostname : string.

(** The body of the outer [while True] after [message] is decoded: the
    effects, then either the new state, the input left and how the pass
    ends, or the exception that leaves [handle_client]. *)
Definition command (state : State) (message : string) (input : list (res string))
    : list effect * res (State * list (res string) * flow) :=
  let cmd_upper := Py.upper message in
  if Py.startswith cmd_upper "HELO" then
    let parts := Py.split_max1 message in
    let state := {| helo := parts !! 1%nat; mail_from := mail_from state;
                    rcpt_to := rcpt_to state; data := data state |} in
    ([Send ("250 " +:+ hostname +:+ " greets " +:+ Py.fmt (helo state))],
     Ok (state, input, Next))
  else if Py.startswith cmd_upper "MAIL FROM:" then
    if negb (Py.truthy (helo state)) then
      ([Send "503 Bad sequence of commands"], Ok (state, input, Next))
    else
      match Py.match_path "MAIL FROM:" message with
      | Some addr =>
          ([Send "250 OK"],
           Ok ({| helo := helo state; mail_from := Some addr;
                  rcpt_to := []; data := None |}, input, Next))
      | None =>
          ([Send "501 Syntax error in parameters or arguments"],
           Ok (state, input, Next))
      end
  else if Py.startswith cmd_upper "RCPT TO:" then
    if negb (Py.truthy (mail_from state)) then
      ([Send "503 Bad sequence of commands"], Ok (state, input, Next))
    else
      match Py.match_path "RCPT TO:" message with
      | Some addr =>
          ([Send "250 OK"],
           Ok ({| helo := helo state; mail_from := mail_from state;
                  rcpt_to := rcpt_to state ++ [addr]; data := data state |},
               input, Next))
      | None =>
          ([Send "501 Syntax error in parameters or arguments"],
           Ok (state, input, Next))
      end
  else if bool_decide (cmd_upper = "DATA") then
    match rcpt_to state with
    | [] => ([Send "503 Bad sequence of commands"], Ok (state, input, Next))
    | _ =>
        match read_data [] input with
        | Raise e => ([Send "354 End data with <CRLF>.<CRLF>"], Raise e)
        | Ok (lines, input') =>
            let body := Py.join Py.LF lines in
            ([Send "354 End data with <CRLF>.<CRLF>";
              SaveEmail (mail_from state) (rcpt_to state) body;
              Send "250 OK: Message accepted for delivery"],
             Ok ({| helo := helo state; mail_from := mail_from state;
                    rcpt_to := rcpt_to state; data := Some body |},
                 input', Next))
        end
    end
  else if bool_decide (cmd_upper = "QUIT") then
    ([Send "221 Bye"], Ok (state, input, Break))
  else
    ([Send "502 Command not implemented"], Ok (state, input, Next)).

(** The outer [while True].  Every pass consumes a [readline] outcome,
    so [fuel] above the length of [input] is never used up ([None]).  An
    exception of [readline] leaves the handler. *)
Fixpoint loop (fuel : nat) (state : State) (input : list (res string))
    : option (list effect * res State) :=
  match fuel with
  | O => None
  | S fuel' =>
      match input with
      | [] => Some ([], Ok state)
      | Raise e :: _ => Some ([], Raise e)
      | Ok EmptyString :: _ => Some ([], Ok state)
      | Ok raw :: input' =>
          match Py.decode_ascii raw with
          | Raise e => Some ([], Raise e)
          | Ok text =>
              match command state (Py.rstrip_crlf text) input' with
              | (effs, Raise e) => Some (effs, Raise e)
              | (effs, Ok (state', _, Break)) => Some (effs, Ok state')
              | (effs, Ok (state', input'', Next)) =>
                  '(effs', r) ← loop fuel' state' input'';
                  Some (effs ++ effs', r)
              end
          end
      end
  end.

(** [handle_client]: greeting, command loop, then [writer.close()] unless
    an exception left the loop. *)
Definition handle_client (input : list (res string))
    : option (list effect * res State) :=
  '(effs, r) ← loop (S (length input)) initial input;
  Some (Send ("220 " +:+ hostname +:+ " SMTP Server ready") :: effs
          ++ match r with Ok _ => [Close] | Raise _ => [] end,
        r).

End Handler.

(** ** Lines of a DATA transfer

    A raw line as [readline] returns it is a body line when it is not
    empty, decodes as ASCII and is not the lone dot; it ends the transfer
    when it is the lone dot.  [unstuffed] is what the loop appends for a
    body line. *)

Definition body_line (raw : string) : bool :=
  negb (bool_decide (raw = "")) && forallb Py.is_ascii (list_ascii_of_string raw)
  && negb (bool_decide (Py.rstrip_crlf raw = ".")).

Definition end_line (raw : string) : bool :=
  negb (bool_decide (raw = "")) && forallb Py.is_ascii (list_ascii_of_string raw)
  && bool_decide (Py.rstrip_crlf raw = ".").

Definition unstuffed (raw : string) : string := transparency (Py.rstrip_crlf raw).

(** The bracketed-address syntax after a keyword: the keyword in any
    case, optional whitespace, [<], an address that is not empty and has
    no [>] in it, [>], then anything. *)
Definition bracketed (keyword message addr : string) : Prop :=
  ∃ kw ws rest,
    message = kw +:+ ws +:+ "<" +:+ addr +:+ ">" +:+ rest
    ∧ Py.upper kw = keyword
    ∧ forallb Py.isspace (list_ascii_of_string ws) = true
    ∧ addr ≠ ""
    ∧ forallb (λ c, negb (bool_decide (c = ">"%char)))
        (list_ascii_of_string addr) = true.

(** The state right after [HELO h]: no sender, no recipient, no body. *)
Definition baseline (h : option string) : State :=
  {| helo := h; mail_from := None; rcpt_to := []; data := None |}.

(** The state a completed DATA leaves: only the body changes. *)
Definition delivered (st : State) (body : string) : State :=
  {| helo := helo st; mail_from := mail_from st; rcpt_to := rcpt_to st;
     data := Some body |}.

(** ** What a session may save

    A [save_email] call is addressed when it has a sender and at least
    one recipient.  A state is consistent when its recipients come with a
    sender. *)
Definition addressed (e : effect) : Prop :=
  match e with
  | SaveEmail mail_from rcpt_to _ => Py.truthy mail_from = true ∧ rcpt_to ≠ []
  | _ => True
  end.

Definition consistent (st : State) : Prop :=
  rcpt_to st ≠ [] → Py.truthy (mail_from st) = true.

(** A word: no whitespace in it. *)
Definition word (s : string) : bool :=
  forallb (λ c, negb (Py.isspace c)) (list_ascii_of_string s).

(** Whitespace only. *)
Definition blank (s : string) : bool :=
  forallb Py.isspace (list_ascii_of_string s).

(** A raw line that [decode("ascii")] accepts. *)
Definition ascii_line (raw : string) : bool :=
  forallb Py.is_ascii (list_ascii_of_string raw).

(** A [readline()] call that returned a line with the property [P]. *)
Definition returned (P : string → Prop) (r : res string) : Prop :=
  match r with
  | Ok line => P line
  | Raise _ => False
  end.

(** Where an exception that leaves the handler can come from: a
    [readline()] call raised it, or [decode("ascii")] raised it on a line
    that was read. *)
Definition aborted_by (input : list (res string)) (e : exn) : Prop :=
  Raise e ∈ input
  ∨ ∃ raw, Ok raw ∈ input ∧ ascii_line raw = false ∧ Py.decode_ascii raw = Raise e.

End Smtp.

(** * pop3_server.py *)

Module Pop3.

Definition USERNAME : string := "user".
Definition PASSWORD : string := "pass".

(** ** Maildrop *)

Record Maildrop : Type := mkMaildrop {
  messages : list string;
  sizes : list Z;
  uidls : list string;
  deleted : gmap Z bool
}.

(** [Maildrop(root)] *)
Definition empty : Maildrop :=
  {| messages := []; sizes := []; uidls := []; deleted := ∅ |}.

(** [self.deleted.get(i)] taken as a condition *)
Definition deleted_get (m : Maildrop) (i : Z) : bool :=
  default false (deleted m !! i).

(** [sorted(p for p in root.glob("*.eml") if p.is_file())]; the paths of
    one directory compare as their names do. *)
Definition glob_eml (root : gmap string file) : list string :=
  merge_sort String.le
    (filter (λ p, Py.endswith p.1 ".eml" && is_file p.2) (map_to_list root)).*1.

(** [p.stat()] *)
Definition stat (root : gmap string file) (p : string) : res file :=
  match root !! p with
  | Some f => Ok f
  | None => Raise (FileNotFoundError ("No such file or directory: '" +:+ p +:+ "'"))
  end.

(** [[f(p) for p in l]] where [f] may raise *)
Fixpoint for_each {A B} (f : A → res B) (l : list A) : res (list B) :=
  match l with
  | [] => Ok []
  | a :: l' => b ←! f a; bs ←! for_each f l'; Ok (b :: bs)
  end.

Section Maildrop.

(** [hashlib.sha1(data).hexdigest()] *)
Variable sha1_hex : string → string.

(** [_uidl_for]: a failing [stat] leaves the name alone in the digest. *)
Definition _uidl_for (root : gmap string file) (p : string) : string :=
  match stat root p with
  | Ok f => sha1_hex (p +:+ pretty (st_size f) +:+ pretty (st_mtime f))
  | Raise _ => sha1_hex p
  end.

Definition refresh (root : gmap string file) (m : Maildrop) : res Maildrop :=
  let messages := glob_eml root in
  sizes ←! for_each (λ p, f ←! stat root p; Ok (st_size f)) messages;
  let uidls := _uidl_for root <$> messages in
  Ok {| messages := messages; sizes := sizes; uidls := uidls; deleted := ∅ |}.

End Maildrop.

(** [range(len(self.messages))] *)
Definition indices (m : Maildrop) : list Z :=
  Z.of_nat <$> seq 0 (length (messages m)).

Definition sum (l : list Z) : Z := foldr Z.add 0 l.

Definition count_and_octets (m : Maildrop) : res (Z * Z) :=
  let count := sum ((λ i, if deleted_get m (i + 1) then 0 else 1) <$> indices m) in
  octets ←! for_each (λ i, Py.index (sizes m) i)
               (filter (λ i, negb (deleted_get m (i + 1))) (indices m));
  Ok (count, sum octets).

Definition list_all (m : Maildrop) : res (list (Z * Z)) :=
  for_each (λ i, size ←! Py.index (sizes m) i; Ok (i + 1, size))
    (filter (λ i, negb (deleted_get m (i + 1))) (indices m)).

Definition _ensure_index (m : Maildrop) (idx : Z) : res unit :=
  if (idx <? 1) || (Z.of_nat (length (messages m)) <? idx)
  then Raise (IndexError "No such message") else Ok tt.

Definition list_one (m : Maildrop) (idx : Z) : res (Z * Z) :=
  _ ←! _ensure_index m idx;
  if deleted_get m idx then Raise (IndexError "Message already deleted")
  else size ←! Py.index (sizes m) (idx - 1); Ok (idx, size).

(** [out_lines.append("." + line)] for a line starting with a dot *)
Definition dot_stuff (line : string) : string :=
  if Py.startswith line "." then "." +:+ line else line.

(** [retr]: the file is decoded as UTF-8 and the payload encoded
    again, which leaves a file of ASCII text as it is. *)
Definition retr (root : gmap string file) (m : Maildrop) (idx : Z) : res string :=
  _ ←! _ensure_index m idx;
  if deleted_get m idx then Raise (IndexError "Message already deleted")
  else
    p ←! Py.index (messages m) (idx - 1);
    f ←! stat root p;
    let text := content f in
    let lines := Py.split_lf (Py.replace_cr (Py.replace_crlf text)) in
    let out_lines := dot_stuff <$> lines in
    Ok (Py.join Py.CRLF out_lines +:+ Py.CRLF +:+ "." +:+ Py.CRLF).

Definition dele (m : Maildrop) (idx : Z) : res Maildrop :=
  _ ←! _ensure_index m idx;
  if deleted_get m idx then Raise (IndexError "Message already deleted")
  else Ok {| messages := messages m; sizes := sizes m; uidls := uidls m;
             deleted := <[idx := true]> (deleted m) |}.

Definition rset (m : Maildrop) : Maildrop :=
  {| messages := messages m; sizes := sizes m; uidls := uidls m; deleted := ∅ |}.

(** [p.unlink(missing_ok=True)] *)
Definition unlink (root : gmap string file) (p : string) : res (gmap string file) :=
  match root !! p with
  | None => Ok root
  | Some f =>
      if unlink_raises f
      then Raise (PermissionError ("Operation not permitted: '" +:+ p +:+ "'"))
      else Ok (delete p root)
  end.

(** [enumerate(l, start)] *)
Fixpoint enumerate {A} (start : Z) (l : list A) : list (Z * A) :=
  match l with
  | [] => []
  | a :: l' => (start, a) :: enumerate (start + 1) l'
  end.

(** One pass through the [for] loop of [commit]: an exception of
    [unlink] is swallowed. *)
Definition commit_step (m : Maildrop) (root : gmap string file)
    (ip : Z * string) : gmap string file :=
  if deleted_get m ip.1 then
    match unlink root ip.2 with
    | Ok root' => root'
    | Raise _ => root
    end
  else root.

Definition commit (sha1_hex : string → string) (root : gmap string file)
    (m : Maildrop) : gmap string file * res Maildrop :=
  let root' := foldl (commit_step m) root (enumerate 1 (messages m)) in
  (root', refresh sha1_hex root' m).

(** ** POP3Session *)

Inductive phase : Type := AUTH | TRANSACTION.

Record POP3Session : Type := mkSession {
  state : phase;
  user : option string;
  maildrop : Maildrop
}.

(** What a running session can touch: itself, the mailbox directory, the
    bytes written to the peer so far, and whether the writer is closed. *)
Record World : Type := mkWorld {
  self : POP3Session;
  root : gmap string file;
  wire : list string;
  closed : bool
}.

(** A method of the session: it changes the world and returns or raises. *)
Definition M (A : Type) : Type := World → res A * World.

Definition ret {A} (a : A) : M A := λ w, (Ok a, w).

Definition bind {A B} (c : M A) (k : A → M B) : M B :=
  λ w, match c w with
       | (Ok a, w') => k a w'
       | (Raise e, w') => (Raise e, w')
       end.

Notation "x ←$ c ; k" := (bind c (λ x, k))
  (at level 20, c at level 100, k at level 200, right associativity,
   format "x  ←$  c ;  '/' k").
Notation "' p ←$ c ; k" := (bind c (λ x, match x with p => k end))
  (at level 20, p pattern, c at level 100, k at level 200,
   right associativity, format "' p  ←$  c ;  '/' k").
Notation "c >> k" := (bind c (λ _, k))
  (at level 100, k at level 200, right associativity,
   format "c  >>  '/' k").

Definition lift {A} (r : res A) : M A := λ w, (r, w).

Definition get : M World := λ w, (Ok w, w).

Definition set_self (f : POP3Session → POP3Session) : M unit :=
  λ w, (Ok tt, {| self := f (self w); root := root w;
                  wire := wire w; closed := closed w |}).

Definition set_root (r : gmap string file) : M unit :=
  λ w, (Ok tt, {| self := self w; root := r; wire := wire w; closed := closed w |}).

(** [self.w.write(data)]; [drain] is taken to succeed. *)
Definition write (data : string) : M unit :=
  λ w, (Ok tt, {| self := self w; root := root w;
                  wire := wire w ++ [data]; closed := closed w |}).

Definition close : M unit :=
  λ w, (Ok tt, {| self := self w; root := root w; wire := wire w; closed := true |}).

(** [try: body except Exception as e: handler(e)] *)
Definition try_except {A} (body : M A) (handler : exn → M A) : M A :=
  λ w, match body w with
       | (Raise e, w') => handler e w'
       | r => r
       end.

Definition _write_line (s : string) : M unit := write (s +:+ Py.CRLF).
Definition _send_ok (msg : string) : M unit := _write_line ("+OK " +:+ msg).
Definition _send_err (msg : string) : M unit := _write_line ("-ERR " +:+ msg).

Definition set_maildrop (m : Maildrop) : M unit :=
  set_self (λ s, {| state := state s; user := user s; maildrop := m |}).

Section Session.

Variable sha1_hex : string → string.

Definition _cmd_user (args : list string) : M unit :=
  match args with
  | [name] =>
      set_self (λ s, {| state := state s; user := Some name;
                        maildrop := maildrop s |}) >>
      _send_ok "User accepted, send PASS"
  | _ => _send_err "Syntax: USER <name>"
  end.

Definition _cmd_pass (args : list string) : M unit :=
  w ←$ get;
  match user (self w) with
  | None => _send_err "Send USER first"
  | Some name =>
      match args with
      | [pw] =>
          if bool_decide (name = USERNAME) && bool_decide (pw = PASSWORD) then
            m ←$ lift (refresh sha1_hex (root w) (maildrop (self w)));
            set_self (λ s, {| state := TRANSACTION; user := user s;
                              maildrop := m |}) >>
            '(count, octets) ←$ lift (count_and_octets m);
            _send_ok ("Mailbox locked and ready, " +:+ pretty count
                      +:+ " messages (" +:+ pretty octets +:+ " octets)")
          else _send_err "Authentication failed"
      | _ => _send_err "Syntax: PASS <password>"
      end
  end.

Definition _cmd_stat : M unit :=
  w ←$ get;
  '(count, octets) ←$ lift (count_and_octets (maildrop (self w)));
  _send_ok (pretty count +:+ " " +:+ pretty octets).

Fixpoint write_lines (l : list string) : M unit :=
  match l with
  | [] => ret tt
  | s :: l' => _write_line s >> write_lines l'
  end.

Definition _cmd_list (args : list string) : M unit :=
  w ←$ get;
  match args with
  | [] =>
      all_msgs ←$ lift (list_all (maildrop (self w)));
      _send_ok (pretty (Z.of_nat (length all_msgs)) +:+ " messages") >>
      write_lines ((λ e, pretty e.1 +:+ " " +:+ pretty e.2) <$> all_msgs) >>
      _write_line "."
  | [a] =>
      match Py.int a with
      | Raise _ => _send_err "Syntax: LIST [msg]"
      | Ok idx =>
          '(i, size) ←$ lift (list_one (maildrop (self w)) idx);
          _send_ok (pretty i +:+ " " +:+ pretty size)
      end
  | _ => _send_err "Syntax: LIST [msg]"
  end.

Definition _cmd_retr (args : list string) : M unit :=
  w ←$ get;
  match args with
  | [a] =>
      match Py.int a with
      | Raise _ => _send_err "Syntax: RETR <msg>"
      | Ok idx =>
          payload ←$ lift (retr (root w) (maildrop (self w)) idx);
          '(_, size) ←$ lift (list_one (maildrop (self w)) idx);
          _send_ok (pretty size +:+ " octets") >>
          write payload
      end
  | _ => _send_err "Syntax: RETR <msg>"
  end.

Definition _cmd_dele (args : list string) : M unit :=
  w ←$ get;
  match args with
  | [a] =>
      match Py.int a with
      | Raise _ => _send_err "Syntax: DELE <msg>"
      | Ok idx =>
          m ←$ lift (dele (maildrop (self w)) idx);
          set_maildrop m >>
          _send_ok ("Message " +:+ pretty idx +:+ " deleted")
      end
  | _ => _send_err "Syntax: DELE <msg>"
  end.

(** [self.maildrop.commit()] *)
Definition do_commit : M unit :=
  w ←$ get;
  let '(root', r) := commit sha1_hex (root w) (maildrop (self w)) in
  set_root root' >>
  m ←$ lift r;
  set_maildrop m.

(** The [if]/[elif] chain inside [try].  [self.state] is one of the two
    strings the class ever assigns, so the final [else] ("Bad state")
    has no case here. *)
Definition dispatch (cmd_u : string) (args : list string) : M flow :=
  w ←$ get;
  match state (self w) with
  | AUTH =>
      if bool_decide (cmd_u = "USER") then _cmd_user args >> ret Next
      else if bool_decide (cmd_u = "PASS") then _cmd_pass args >> ret Next
      else if bool_decide (cmd_u = "QUIT") then _send_ok "Bye" >> ret Break
      else _send_err "Authenticate first (USER/PASS)" >> ret Next
  | TRANSACTION =>
      if bool_decide (cmd_u = "STAT") then _cmd_stat >> ret Next
      else if bool_decide (cmd_u = "LIST") then _cmd_list args >> ret Next
      else if bool_decide (cmd_u = "RETR") then _cmd_retr args >> ret Next
      else if bool_decide (cmd_u = "DELE") then _cmd_dele args >> ret Next
      else if bool_decide (cmd_u = "NOOP") then _send_ok "OK" >> ret Next
      else if bool_decide (cmd_u = "RSET") then
        set_maildrop (rset (maildrop (self w))) >> _send_ok "Reset" >> ret Next
      else if bool_decide (cmd_u = "QUIT") then
        do_commit >> _send_ok "Bye" >> ret Break
      else _send_err "Unknown or unsupported command" >> ret Next
  end.

(** One pass through the body of [while True] for a line that is not
    empty: [cmd, *args = raw.split()] stands before the [try].  The line
    is decoded as UTF-8, which leaves a line of ASCII bytes as it is;
    [split], [upper] and [int] are those of ASCII text. *)
Definition command (line : string) : M flow :=
  let raw := Py.rstrip_crlf line in
  match Py.split raw with
  | [] => lift (Raise (ValueError
            "not enough values to unpack (expected at least 1, got 0)"))
  | cmd :: args =>
      let cmd_u := Py.upper cmd in
      try_except (dispatch cmd_u args)
        (λ e, _send_err (str_exn e) >> ret Next)
  end.

(** The [while True] of [run]; past the end of [input], [readline]
    returns [b""].  An exception of [readline] leaves [run]: the call
    stands outside the [try]. *)
Fixpoint loop (input : list (res string)) : M unit :=
  match input with
  | [] => ret tt
  | Raise e :: _ => lift (Raise e)
  | Ok EmptyString :: _ => ret tt
  | Ok line :: input' =>
      fl ←$ command line;
      match fl with
      | Break => ret tt
      | Next => loop input'
      end
  end.

Definition run (input : list (res string)) : M unit :=
  _send_ok "POP3 server ready" >>
  loop input >>
  close.

End Session.

(** ** What a method does to the wire

    A reply line starts with [+OK ] or [-ERR ].  A method is quiet when
    it writes nothing; it appends when it returns and only adds to what
    was written; it answers when it either returns having written a
    reply first, or raises having written nothing. *)

Definition is_reply (s : string) : bool :=
  Py.startswith s "+OK " || Py.startswith s "-ERR ".

Definition quiet {A} (c : M A) : Prop := ∀ w, wire (c w).2 = wire w.

Definition appends {A} (c : M A) : Prop :=
  ∀ w, ∃ a more, (c w).1 = Ok a ∧ wire (c w).2 = wire w ++ more.

Definition answers {A} (c : M A) : Prop :=
  ∀ w, match (c w).1 with
       | Ok _ => ∃ reply more,
           wire (c w).2 = wire w ++ reply :: more ∧ is_reply reply = true
       | Raise _ => wire (c w).2 = wire w
       end.

(** In TRANSACTION the Maildrop lists the message files of the
    directory, as [refresh] left it. *)
Definition in_sync (w : World) : Prop :=
  state (self w) = TRANSACTION →
  messages (maildrop (self w)) = glob_eml (root w).

(** ** States a Maildrop can be in

    A session starts from [Maildrop(root)] and only ever calls [refresh],
    [dele], [rset] and [commit] on it. *)
Inductive reachable (sha1_hex : string → string) : Maildrop → Prop :=
  | reach_new : reachable sha1_hex empty
  | reach_refresh root m m' :
      reachable sha1_hex m → refresh sha1_hex root m = Ok m' →
      reachable sha1_hex m'
  | reach_dele m idx m' :
      reachable sha1_hex m → dele m idx = Ok m' → reachable sha1_hex m'
  | reach_rset m : reachable sha1_hex m → reachable sha1_hex (rset m)
  | reach_commit root m root' m' :
      reachable sha1_hex m → commit sha1_hex root m = (root', Ok m') →
      reachable sha1_hex m'.

(** The snapshot of a directory: what [refresh] computes when every
    [stat] succeeds. *)
Definition snapshot (sha1_hex : string → string) (root : gmap string file)
    : Maildrop :=
  {| messages := glob_eml root;
     sizes := (λ p, from_option st_size 0 (root !! p)) <$> glob_eml root;
     uidls := _uidl_for sha1_hex root <$> glob_eml root;
     deleted := ∅ |}.

(** The files of the messages marked deleted. *)
Definition marked_files (m : Maildrop) : list string :=
  (filter (λ ip, deleted_get m ip.1) (enumerate 1 (messages m))).*2.

(** What [retr] sends for a file whose text is [text]: its lines,
    dot-stuffed, each ended by CR LF, then the lone dot. *)
Definition payload (text : string) : string :=
  Py.join Py.CRLF (dot_stuff <$> Py.split_lf (Py.replace_cr (Py.replace_crlf text)))
  +:+ Py.CRLF +:+ "." +:+ Py.CRLF.

(** [unlink] removes [p]: the file is there and [unlink] does not raise. *)
Definition unlinks (root : gmap string file) (p : string) : bool :=
  match root !! p with
  | Some f => negb (unlink_raises f)
  | None => false
  end.

(** [POP3Session(reader, writer)] over a mailbox directory *)
Definition connect (root : gmap string file) : World :=
  {| self := {| state := AUTH; user := None; maildrop := empty |};
     root := root; wire := []; closed := false |}.

(** ** A small mailbox for the examples

    Two messages and a file that is not one; [demo_sha1] stands in for
    the digest. *)

Definition demo_file (text : string) : file :=
  {| is_file := true; content := text; st_mtime := 1700000000;
     unlink_raises := false |}.

Definition demo_root : gmap string file :=
  <["20240101120000_b.eml" := demo_file "From: b"]>
    (<["20240101115959_a.eml" := demo_file "From: alice"]>
       (<["notes.txt" := demo_file "not a message"]> ∅)).

Definition demo_sha1 (s : string) : string := "sha1:" +:+ s.

(** The snapshot [refresh] takes of [demo_root]. *)
Definition demo_maildrop : Maildrop :=
  {| messages := ["20240101115959_a.eml"; "20240101120000_b.eml"];
     sizes := [11; 7];
     uidls := ["sha1:20240101115959_a.eml111700000000";
               "sha1:20240101120000_b.eml71700000000"];
     deleted := ∅ |}.

(** A session in TRANSACTION over [demo_root] after [DELE 1]. *)
Definition demo_world : World :=
  {| self := {| state := TRANSACTION; user := Some USERNAME;
                maildrop := {| messages := messages demo_maildrop;
                               sizes := sizes demo_maildrop;
                               uidls := uidls demo_maildrop;
                               deleted := <[1 := true]> ∅ |} |};
     root := demo_root;
     wire := [];
     closed := false |}.

(** The same session over a directory in which the file of the marked
    message cannot be removed. *)
Definition stuck_world : World :=
  {| self := self demo_world;
     root := <["20240101115959_a.eml" :=
                 {| is_file := true; content := "From: alice";
                    st_mtime := 1700000000; unlink_raises := true |}]> demo_root;
     wire := [];
     closed := false |}.

(** The same session after a delivery it has not seen: the Maildrop
    still lists two messages, the directory holds three. *)
Definition stale_world : World :=
  {| self := self demo_world;
     root := <["20240101120500_c.eml" := demo_file "From: carol"]> demo_root;
     wire := [];
     closed := false |}.

(** The size recorded at index [i] of a Maildrop ([0] past the end). *)
Definition size_at (m : Maildrop) (i : Z) : Z := default 0 (sizes m !! Z.to_nat i).

(** A line of a session with a word on it: for a line of ASCII bytes,
    what [raw.split()] gives is not empty. *)
Definition has_word (line : string) : Prop := Py.split (Py.rstrip_crlf line) ≠ [].

End Pop3.

(** * Lines on the wire

    A line can appear in a dot-stuffed transfer when it does not start
    with a single dot: it has no leading dot, or at least two. *)

Definition on_wire (line : string) : bool :=
  negb (Py.startswith line ".") || Py.startswith line "..".

(** A line of ASCII text with no CR and no LF in it, as [retr] gets
    them from splitting the normalized text of an ASCII file. *)
Definition plain (line : string) : bool :=
  forallb (λ c, Py.is_ascii c && negb (Py.is_crlf c)) (list_ascii_of_string line).

(** No line feed in it. *)
Definition no_lf (s : string) : bool :=
  forallb (λ c, negb (bool_decide (c = "010"%char))) (list_ascii_of_string s).

(** Neither CR nor LF in it. *)
Definition bare (s : string) : bool :=
  forallb (λ c, negb (Py.is_crlf c)) (list_ascii_of_string s).

(** [int] reads [s] as [n] decimal digits worth [v], after any digits
    already read. *)
Definition reads (s : string) (v : Z) (n : Z) : Prop :=
  0 ≤ n ∧ ∀ acc, Py.digits acc false s = Some (acc * 10 ^ n + v).

(** * Facts about the string operations *)

Module PyFacts.

Lemma app_cons c (s t : string) : String c s +:+ t = String c (s +:+ t).
Proof. reflexivity. Qed.

Lemma app_empty (t : string) : "" +:+ t = t.
Proof. reflexivity. Qed.

(** ** Concatenation *)

Lemma length_app (s t : string) :
  String.length (s +:+ t) = (String.length s + String.length t)%nat.
Proof.
  induction s as [|c s IH]; [done|].
  change (String c s +:+ t) with (String c (s +:+ t)).
  cbn [String.length]. by rewrite IH.
Qed.



Lemma app_assoc_string (s t u : string) : (s +:+ t) +:+ u = s +:+ t +:+ u.
Proof.
  induction s as [|c s IH]; [done|].
  change ((String c s +:+ t) +:+ u) with (String c ((s +:+ t) +:+ u)).
  by rewrite IH.
Qed.

(** ** [startswith] and [endswith] *)

Lemma startswith_nil s : Py.startswith s "" = true.
Proof. by destruct s. Qed.

Lemma startswith_cons c s d p :
  Py.startswith (String c s) (String d p)
  = bool_decide (c = d) && Py.startswith s p.
Proof.
  unfold Py.startswith. cbn. destruct (ascii_dec d c) as [->|Hne].
  - by rewrite bool_decide_eq_true_2.
  - by rewrite bool_decide_eq_false_2 by congruence.
Qed.

Lemma endswith_refl p : Py.endswith p p = true.
Proof. destruct p; cbn; by rewrite bool_decide_eq_true_2. Qed.

Lemma endswith_app s p : Py.endswith (s +:+ p) p = true.
Proof.
  induction s as [|c s IH]; [apply endswith_refl|].
  change (String c s +:+ p) with (String c (s +:+ p)).
  cbn [Py.endswith]. rewrite IH. apply orb_true_r.
Qed.

(** ** [span] and [lstrip] *)

Lemma span_app p a c b :
  forallb p (list_ascii_of_string a) = true → p c = false →
  Py.span p (a +:+ String c b) = (a, String c b).
Proof.
  intros Ha Hc. induction a as [|d a IH].
  - rewrite app_empty. cbn. by rewrite Hc.
  - cbn in Ha. apply andb_prop in Ha as [Hd Ha].
    rewrite app_cons. cbn. by rewrite Hd, (IH Ha).
Qed.

Lemma span_inv p s a c b :
  Py.span p s = (a, String c b) →
  s = a +:+ String c b ∧ forallb p (list_ascii_of_string a) = true ∧ p c = false.
Proof.
  revert a. induction s as [|d s IH]; intros a; cbn; [done|].
  destruct (p d) eqn:Hd.
  - destruct (Py.span p s) as [a' b'] eqn:E. intros [= <- ->].
    destruct (IH a' eq_refl) as (-> & Ha & Hc).
    rewrite app_cons. cbn. by rewrite Hd, Ha.
  - by intros [= <- -> ->].
Qed.

Lemma lstrip_app ws c r :
  forallb Py.isspace (list_ascii_of_string ws) = true → Py.isspace c = false →
  Py.lstrip (ws +:+ String c r) = String c r.
Proof.
  intros Hws Hc. induction ws as [|d ws IH].
  - rewrite app_empty. cbn. by rewrite Hc.
  - cbn in Hws. apply andb_prop in Hws as [Hd Hws].
    rewrite app_cons. cbn. by rewrite Hd, (IH Hws).
Qed.

Lemma lstrip_inv s c r :
  Py.lstrip s = String c r →
  ∃ ws, s = ws +:+ String c r
        ∧ forallb Py.isspace (list_ascii_of_string ws) = true.
Proof.
  induction s as [|d s IH]; cbn; [done|].
  destruct (Py.isspace d) eqn:Hd.
  - intros (ws & -> & Hws)%IH. exists (String d ws).
    rewrite app_cons. cbn. by rewrite Hd, Hws.
  - intros <-. by exists "".
Qed.

(** ** A keyword in any case at the start *)

Lemma upper_app s t : Py.upper (s +:+ t) = Py.upper s +:+ Py.upper t.
Proof.
  induction s as [|c s IH]; [done|].
  rewrite app_cons. cbn [Py.upper]. by rewrite app_cons, IH.
Qed.

Lemma length_upper s : String.length (Py.upper s) = String.length s.
Proof. induction s as [|c s IH]; cbn; [done|]. by rewrite IH. Qed.

Lemma startswith_app p s : Py.startswith (p +:+ s) p = true.
Proof.
  unfold Py.startswith. induction p as [|c p IH]; [by destruct s|].
  rewrite app_cons. cbn. by destruct (ascii_dec c c).
Qed.

Lemma drop_app p s : Py.drop (String.length p) (p +:+ s) = s.
Proof. induction p as [|c p IH]; [done|]. by rewrite app_cons. Qed.

Lemma startswith_upper_inv keyword message :
  Py.startswith (Py.upper message) keyword = true →
  ∃ kw r, message = kw +:+ r ∧ Py.upper kw = keyword
          ∧ Py.drop (String.length keyword) message = r.
Proof.
  unfold Py.startswith. revert message.
  induction keyword as [|k keyword IH]; intros message.
  - intros _. by exists "", message.
  - destruct message as [|c message]; cbn; [done|].
    destruct (ascii_dec k (Py.upper_char c)) as [->|]; [|done].
    intros (kw & r & -> & <- & Hd)%IH. exists (String c kw), r.
    rewrite app_cons. cbn. by rewrite length_upper in *.
Qed.

(** ** The regular expression of MAIL FROM and RCPT TO *)

(** [match_path] returns [addr] exactly on the lines of the
    bracketed-address syntax with that address. *)
Lemma match_path_iff keyword message addr :
  Py.match_path keyword message = Some addr ↔ Smtp.bracketed keyword message addr.
Proof.
  unfold Py.match_path, Smtp.bracketed. split.
  - destruct (Py.startswith (Py.upper message) keyword) eqn:Hk; [|done].
    apply startswith_upper_inv in Hk as (kw & r & -> & Hkw & ->).
    destruct (Py.lstrip r) as [|c r'] eqn:Hr; [done|].
    apply lstrip_inv in Hr as (ws & -> & Hws).
    destruct (ascii_dec c "<") as [->|Hc];
      [|by destruct c as [[] [] [] [] [] [] [] []]].
    destruct (Py.span _ r') as [a b] eqn:Hs.
    destruct a as [|a0 a]; [done|].
    destruct b as [|b0 b]; [done|].
    pose proof (span_inv _ _ _ _ _ Hs) as (-> & Ha & Hb).
    apply negb_false_iff, bool_decide_eq_true in Hb as ->.
    intros [= <-]. by exists kw, ws, b.
  - intros (kw & ws & rest & -> & <- & Hws & Hne & Ha).
    rewrite upper_app, startswith_app, length_upper, drop_app.
    change ("<" +:+ addr +:+ ">" +:+ rest) with (String "<" (addr +:+ String ">" rest)).
    rewrite lstrip_app by done.
    rewrite span_app by done.
    by destruct addr.
Qed.

(** ** Decoding as ASCII *)

Lemma first_non_ascii_None pos s :
  forallb Py.is_ascii (list_ascii_of_string s) = true → Py.first_non_ascii pos s = None.
Proof.
  revert pos. induction s as [|c s IH]; intros pos; [done|].
  cbn [list_ascii_of_string forallb Py.first_non_ascii].
  intros [-> Hs]%andb_prop. by apply IH.
Qed.

Lemma first_non_ascii_Some pos s :
  forallb Py.is_ascii (list_ascii_of_string s) = false →
  ∃ q c, Py.first_non_ascii pos s = Some (q, c) ∧ Py.is_ascii c = false.
Proof.
  revert pos. induction s as [|c s IH]; intros pos; [done|].
  cbn [list_ascii_of_string forallb Py.first_non_ascii].
  destruct (Py.is_ascii c) eqn:Ec; [|by eexists _, _].
  cbn [andb]. apply IH.
Qed.

Lemma decode_ascii_ok s :
  forallb Py.is_ascii (list_ascii_of_string s) = true → Py.decode_ascii s = Ok s.
Proof. intros H. unfold Py.decode_ascii. by rewrite first_non_ascii_None. Qed.

Lemma decode_ascii_Ok_inv s t :
  Py.decode_ascii s = Ok t →
  t = s ∧ forallb Py.is_ascii (list_ascii_of_string s) = true.
Proof.
  unfold Py.decode_ascii.
  destruct (forallb Py.is_ascii (list_ascii_of_string s)) eqn:E.
  - rewrite first_non_ascii_None by done. by intros [= <-].
  - destruct (first_non_ascii_Some 0 s E) as (q & c & -> & _). done.
Qed.

(** What [decode("ascii")] raises: a [UnicodeDecodeError] that names
    the first byte above 127 of the data and its position. *)
Lemma decode_ascii_Raise_inv s e :
  Py.decode_ascii s = Raise e →
  forallb Py.is_ascii (list_ascii_of_string s) = false
  ∧ ∃ (pos : Z) c,
      Py.first_non_ascii 0 s = Some (pos, c)
      ∧ Py.is_ascii c = false
      ∧ e = UnicodeDecodeError
              ("'ascii' codec can't decode byte 0x" +:+ Py.hex2 c +:+ " in position "
               +:+ pretty pos +:+ ": ordinal not in range(128)").
Proof.
  unfold Py.decode_ascii.
  destruct (forallb Py.is_ascii (list_ascii_of_string s)) eqn:E.
  - by rewrite first_non_ascii_None.
  - destruct (first_non_ascii_Some 0 s E) as (q & c & Hf & Hc). rewrite Hf.
    intros [= <-]. split; [done|]. by exists q, c.
Qed.

End PyFacts.

(** * Facts about the SMTP receiver *)

Module SmtpFacts.
Import Smtp.

(** ** The DATA loop *)

Lemma read_data_step_body acc raw input :
  body_line raw = true →
  read_data acc (Ok raw :: input) = read_data (acc ++ [unstuffed raw]) input.
Proof.
  unfold body_line. intros H.
  apply andb_prop in H as [H Hdot]. apply andb_prop in H as [Hne Hasc].
  destruct raw as [|c raw]; [done|].
  cbn [read_data]. rewrite (PyFacts.decode_ascii_ok _ Hasc). cbn [res_bind].
  apply negb_true_iff in Hdot. rewrite Hdot. done.
Qed.

Lemma read_data_step_end acc raw input :
  end_line raw = true → read_data acc (Ok raw :: input) = Ok (acc, input).
Proof.
  unfold end_line. intros H.
  apply andb_prop in H as [H Hdot]. apply andb_prop in H as [Hne Hasc].
  destruct raw as [|c raw]; [done|].
  cbn [read_data]. rewrite (PyFacts.decode_ascii_ok _ Hasc). cbn [res_bind].
  by rewrite Hdot.
Qed.

Lemma read_data_body acc raws input :
  Forall (λ raw, body_line raw = true) raws →
  read_data acc ((Ok <$> raws) ++ input) = read_data (acc ++ (unstuffed <$> raws)) input.
Proof.
  intros H. revert acc. induction H as [|raw raws Hraw _ IH]; intros acc.
  - by rewrite app_nil_r.
  - cbn [app fmap list_fmap]. rewrite read_data_step_body by done.
    rewrite IH, <- app_assoc. done.
Qed.

(** ** One command *)

Section Command.
Variable hostname : string.

Lemma command_DATA st input :
  command hostname st "DATA" input =
  match rcpt_to st with
  | [] => ([Send "503 Bad sequence of commands"], Ok (st, input, Next))
  | _ =>
      match read_data [] input with
      | Raise e => ([Send "354 End data with <CRLF>.<CRLF>"], Raise e)
      | Ok (lines, input') =>
          ([Send "354 End data with <CRLF>.<CRLF>";
            SaveEmail (mail_from st) (rcpt_to st) (Py.join Py.LF lines);
            Send "250 OK: Message accepted for delivery"],
           Ok (delivered st (Py.join Py.LF lines), input', Next))
      end
  end.
Proof. reflexivity. Qed.

Lemma data_at_end_of_input st raws :
  rcpt_to st ≠ [] →
  Forall (λ raw, body_line raw = true) raws →
  command hostname st "DATA" (Ok <$> raws) =
    ([Send "354 End data with <CRLF>.<CRLF>";
      SaveEmail (mail_from st) (rcpt_to st) (Py.join Py.LF (unstuffed <$> raws));
      Send "250 OK: Message accepted for delivery"],
     Ok (delivered st (Py.join Py.LF (unstuffed <$> raws)), [], Next)).
Proof.
  intros Hr Hb. rewrite command_DATA.
  destruct (rcpt_to st) eqn:E; [done|].
  rewrite <- (app_nil_r (Ok <$> raws)). rewrite read_data_body by done.
  cbn [read_data app]. done.
Qed.

Lemma data_completed st raws dot rest :
  rcpt_to st ≠ [] →
  Forall (λ raw, body_line raw = true) raws →
  end_line dot = true →
  command hostname st "DATA" ((Ok <$> raws) ++ Ok dot :: rest) =
    ([Send "354 End data with <CRLF>.<CRLF>";
      SaveEmail (mail_from st) (rcpt_to st) (Py.join Py.LF (unstuffed <$> raws));
      Send "250 OK: Message accepted for delivery"],
     Ok (delivered st (Py.join Py.LF (unstuffed <$> raws)), rest, Next)).
Proof.
  intros Hr Hb He. rewrite command_DATA.
  destruct (rcpt_to st) eqn:E; [done|].
  rewrite read_data_body by done. rewrite read_data_step_end by done.
  done.
Qed.

Lemma startswith_cons_inv s c p :
  Py.startswith s (String c p) = true → ∃ s', s = String c s' ∧ Py.startswith s' p = true.
Proof.
  unfold Py.startswith. destruct s as [|a s]; cbn; [done|].
  destruct (ascii_dec c a) as [->|]; [|done]. eauto.
Qed.

Lemma mail_from_not_helo message :
  Py.startswith (Py.upper message) "MAIL FROM:" = true →
  Py.startswith (Py.upper message) "HELO" = false.
Proof.
  intros H. apply startswith_cons_inv in H as (s' & -> & _). reflexivity.
Qed.

Lemma command_MAIL_FROM st message input :
  Py.startswith (Py.upper message) "MAIL FROM:" = true →
  command hostname st message input =
  if negb (Py.truthy (helo st)) then
    ([Send "503 Bad sequence of commands"], Ok (st, input, Next))
  else
    match Py.match_path "MAIL FROM:" message with
    | Some addr =>
        ([Send "250 OK"],
         Ok ({| helo := helo st; mail_from := Some addr;
                rcpt_to := []; data := None |}, input, Next))
    | None =>
        ([Send "501 Syntax error in parameters or arguments"],
         Ok (st, input, Next))
    end.
Proof.
  intros H. unfold command. rewrite (mail_from_not_helo _ H), H. done.
Qed.

(** ** MAIL FROM *)

(** C8 (amended).  What decides is the HELO name on record, not
    whether a HELO was issued.  A line that starts with MAIL FROM: gets
    503 and leaves the state alone when no HELO name is recorded (no HELO
    yet, or the last HELO had no argument), whether or not the line is
    well formed; with a name recorded, it gets 501 and leaves the state
    alone when the bracketed address is not matched, and otherwise it
    gets 250, the matched address becomes the sender, and recipients and
    body are cleared. *)
Theorem mail_from_contract st message input :
  Py.startswith (Py.upper message) "MAIL FROM:" = true →
  (Py.truthy (helo st) = false →
     command hostname st message input =
       ([Send "503 Bad sequence of commands"], Ok (st, input, Next)))
  ∧ (Py.truthy (helo st) = true →
     Py.match_path "MAIL FROM:" message = None →
     command hostname st message input =
       ([Send "501 Syntax error in parameters or arguments"],
        Ok (st, input, Next)))
  ∧ (Py.truthy (helo st) = true →
     ∀ addr, Py.match_path "MAIL FROM:" message = Some addr →
     command hostname st message input =
       ([Send "250 OK"],
        Ok ({| helo := helo st; mail_from := Some addr;
               rcpt_to := []; data := None |}, input, Next))).
Proof.
  intros H. rewrite (command_MAIL_FROM st message input H).
  split; [|split].
  - by intros ->.
  - by intros -> ->.
  - by intros -> addr ->.
Qed.

(** The same in terms of the syntax: with a HELO name recorded, the
    lines of the bracketed-address syntax are the ones accepted. *)
Lemma mail_from_syntax st message input :
  Py.startswith (Py.upper message) "MAIL FROM:" = true →
  Py.truthy (helo st) = true →
  (∀ addr, Smtp.bracketed "MAIL FROM:" message addr →
     command hostname st message input =
       ([Send "250 OK"],
        Ok ({| helo := helo st; mail_from := Some addr;
               rcpt_to := []; data := None |}, input, Next)))
  ∧ ((∀ addr, ¬ Smtp.bracketed "MAIL FROM:" message addr) →
     command hostname st message input =
       ([Send "501 Syntax error in parameters or arguments"],
        Ok (st, input, Next))).
Proof.
  intros Hm Hh. rewrite (command_MAIL_FROM st message input Hm), Hh. cbn [negb].
  split.
  - intros addr Hb%PyFacts.match_path_iff. by rewrite Hb.
  - intros Hnone. destruct (Py.match_path _ message) as [addr|] eqn:E; [|done].
    apply PyFacts.match_path_iff in E. by destruct (Hnone addr).
Qed.

End Command.

Lemma mail_from_contract_witness :
  let st := {| helo := Some "client.test"; mail_from := Some "old@example.com";
               rcpt_to := ["bob@example.com"]; data := Some "old body" |} in
  command "mx" initial "MAIL FROM:<alice@example.com>" [] =
    ([Send "503 Bad sequence of commands"], Ok (initial, [], Next))
  ∧ command "mx" st "MAIL FROM: alice@example.com" [] =
    ([Send "501 Syntax error in parameters or arguments"], Ok (st, [], Next))
  ∧ command "mx" st "mail from: <alice@example.com> SIZE=10" [] =
    ([Send "250 OK"],
     Ok ({| helo := Some "client.test"; mail_from := Some "alice@example.com";
            rcpt_to := []; data := None |}, [], Next)).
Proof.
  intros st. split; [|split].
  - apply (mail_from_contract "mx" initial "MAIL FROM:<alice@example.com>" []);
      reflexivity.
  - apply (mail_from_contract "mx" st "MAIL FROM: alice@example.com" []);
      reflexivity.
  - apply (mail_from_contract "mx" st "mail from: <alice@example.com> SIZE=10" []);
      reflexivity.
Defined.

(** C8, as stated, fails.  A HELO with no argument has been issued,
    and it records no name: the MAIL FROM line that does not match the
    bracketed-address syntax is then answered 503, not 501, and the
    well-formed one is answered 503 as well and records no sender. *)
Lemma helo_without_name_blocks_mail_from :
  handle_client "mx"
    (Ok ∘ Py.wire_line <$>
       ["HELO"; "MAIL FROM: alice@example.com"; "MAIL FROM:<alice@example.com>"])
  = Some
      ([Send "220 mx SMTP Server ready";
        Send "250 mx greets None";
        Send "503 Bad sequence of commands";
        Send "503 Bad sequence of commands";
        Close],
       Ok (baseline None))
  ∧ (command "mx" (baseline None) "MAIL FROM: alice@example.com" []).1
    ≠ [Send "501 Syntax error in parameters or arguments"]
  ∧ (command "mx" (baseline None) "MAIL FROM:<alice@example.com>" []).1
    ≠ [Send "250 OK"].
Proof.
  split; [vm_compute; reflexivity|]. split; vm_compute; discriminate.
Qed.

(** ** The command loop returns *)

Section Loop.
Variable hostname : string.

Lemma read_data_length acc input lines rest :
  read_data acc input = Ok (lines, rest) → (length rest ≤ length input)%nat.
Proof.
  revert acc. induction input as [|raw input IH]; intros acc; cbn [read_data].
  - intros [= _ <-]. done.
  - destruct raw as [raw|e]; [|done].
    destruct raw as [|c raw]; [intros [= _ <-]; cbn; lia|].
    destruct (Py.decode_ascii (String c raw)) as [text|e]; cbn [res_bind]; [|done].
    case_bool_decide; [intros [= _ <-]; cbn; lia|].
    intros Hr%IH. cbn. lia.
Qed.

Lemma command_length st message input effs st' rest fl :
  command hostname st message input = (effs, Ok (st', rest, fl)) →
  (length rest ≤ length input)%nat.
Proof.
  unfold command.
  repeat case_match; try (intros [= _ _ Hr _]; by rewrite <- Hr); try done.
  intros [= _ _ Hr _]. rewrite <- Hr. by eapply read_data_length.
Qed.

Lemma loop_enough_fuel fuel st input :
  (length input < fuel)%nat → is_Some (loop hostname fuel st input).
Proof.
  revert st input. induction fuel as [|fuel IH]; intros st input Hlt; [lia|].
  cbn [loop]. destruct input as [|raw input]; [by eexists|].
  destruct raw as [raw|e]; [|by eexists].
  destruct raw as [|c raw]; [by eexists|].
  destruct (Py.decode_ascii _) as [text|e]; [|by eexists].
  destruct (command hostname st (Py.rstrip_crlf text) input)
    as [effs [[[st' rest] [|]]|e]] eqn:E; try by eexists.
  apply command_length in E. cbn in Hlt.
  destruct (IH st' rest) as [[effs' r] ->]; [lia|]. by eexists.
Qed.

(** [handle_client] returns on every input: the fuel it gives the loop
    is never used up. *)
Lemma handle_client_total input : is_Some (handle_client hostname input).
Proof.
  unfold handle_client.
  destruct (loop_enough_fuel (S (length input)) initial input) as [[effs r] ->];
    [lia|]. by eexists.
Qed.

(** Only HELO writes the [helo] entry of the state. *)
Lemma helo_unchanged st message input effs st' rest fl :
  Py.startswith (Py.upper message) "HELO" = false →
  command hostname st message input = (effs, Ok (st', rest, fl)) →
  helo st' = helo st.
Proof.
  unfold command. intros ->.
  repeat case_match; try (intros [= _ Hst _ _]; by rewrite <- Hst); try done.
Qed.

(** The recipients are emptied by a successful MAIL FROM alone. *)
Lemma rcpt_to_kept st message input effs st' rest fl :
  command hostname st message input = (effs, Ok (st', rest, fl)) →
  rcpt_to st ≠ [] → rcpt_to st' = [] →
  Py.startswith (Py.upper message) "MAIL FROM:" = true
  ∧ is_Some (Py.match_path "MAIL FROM:" message).
Proof.
  unfold command.
  repeat case_match;
    try (intros [= _ Hst _ _]; rewrite <- Hst; cbn; try done); try done.
  intros _ [_ [=]]%app_eq_nil.
Qed.

End Loop.

(** ** A DATA phase cut short by the peer *)

(** C1 does not hold of the code.  The peer sends the envelope,
    DATA and two body lines, then disconnects before any lone dot.  The
    inner loop leaves on the empty read exactly as it leaves on the dot:
    [save_email] is called with the partial body and the 250 reply is
    sent before the outer loop meets the end of input and closes. *)
Theorem data_cut_short_is_saved :
  handle_client "mx"
    (Ok ∘ Py.wire_line <$>
       ["HELO client.test"; "MAIL FROM:<alice@example.com>";
        "RCPT TO:<bob@example.com>"; "DATA"; "Subject: Slow Test"; "Hello,"])
  = Some
      ([Send "220 mx SMTP Server ready";
        Send "250 mx greets client.test";
        Send "250 OK";
        Send "250 OK";
        Send "354 End data with <CRLF>.<CRLF>";
        SaveEmail (Some "alice@example.com") ["bob@example.com"]
          ("Subject: Slow Test" +:+ Py.LF +:+ "Hello,");
        Send "250 OK: Message accepted for delivery";
        Close],
       Ok {| helo := Some "client.test"; mail_from := Some "alice@example.com";
             rcpt_to := ["bob@example.com"];
             data := Some ("Subject: Slow Test" +:+ Py.LF +:+ "Hello,") |}).
Proof. vm_compute. reflexivity. Qed.

(** ** The state after DATA *)

(** C2, as stated, fails: after a completed DATA the sender and the
    recipient are still there, the state is not the baseline, and a
    second DATA with no new MAIL FROM and RCPT TO gets 354 and is saved. *)
Lemma data_does_not_reset :
  let st := {| helo := Some "client.test"; mail_from := Some "alice@example.com";
               rcpt_to := ["bob@example.com"]; data := None |} in
  let st' := delivered st "Hello," in
  command "mx" st "DATA" (Ok ∘ Py.wire_line <$> ["Hello,"; "."; "DATA"; "again"; "."])
    = ([Send "354 End data with <CRLF>.<CRLF>";
        SaveEmail (Some "alice@example.com") ["bob@example.com"] "Hello,";
        Send "250 OK: Message accepted for delivery"],
       Ok (st', Ok ∘ Py.wire_line <$> ["DATA"; "again"; "."], Next))
  ∧ st' ≠ baseline (helo st)
  ∧ mail_from st' = Some "alice@example.com"
  ∧ rcpt_to st' = ["bob@example.com"]
  ∧ data st' = Some "Hello,"
  ∧ command "mx" st' "DATA" (Ok ∘ Py.wire_line <$> ["again"; "."])
    = ([Send "354 End data with <CRLF>.<CRLF>";
        SaveEmail (Some "alice@example.com") ["bob@example.com"] "again";
        Send "250 OK: Message accepted for delivery"],
       Ok (delivered st "again", [], Next))
  ∧ (command "mx" st' "DATA" (Ok ∘ Py.wire_line <$> ["again"; "."])).1
    ≠ [Send "503 Bad sequence of commands"].
Proof.
  cbv zeta. split; [vm_compute; reflexivity|].
  split; [discriminate|]. do 3 (split; [reflexivity|]).
  split; [vm_compute; reflexivity|]. vm_compute. discriminate.
Qed.

Section AfterData.
Variable hostname : string.

(** C2 (amended).  A DATA phase that meets its lone dot saves the body
    with the recorded sender and recipients and leaves HELO name, sender
    and recipients as they were, the body buffered.  A second DATA,
    with no MAIL FROM or RCPT TO in between, is accepted and saved for
    the same sender and recipients.  The next successful MAIL FROM is
    what clears recipients and body. *)
Theorem data_keeps_envelope st raws dot rest :
  rcpt_to st ≠ [] →
  Forall (λ raw, body_line raw = true) raws →
  end_line dot = true →
  let body := Py.join Py.LF (unstuffed <$> raws) in
  let st' := delivered st body in
  command hostname st "DATA" ((Ok <$> raws) ++ Ok dot :: rest) =
    ([Send "354 End data with <CRLF>.<CRLF>";
      SaveEmail (mail_from st) (rcpt_to st) body;
      Send "250 OK: Message accepted for delivery"],
     Ok (st', rest, Next))
  ∧ (∀ raws2 dot2 rest2,
       Forall (λ raw, body_line raw = true) raws2 →
       end_line dot2 = true →
       let body2 := Py.join Py.LF (unstuffed <$> raws2) in
       command hostname st' "DATA" ((Ok <$> raws2) ++ Ok dot2 :: rest2) =
         ([Send "354 End data with <CRLF>.<CRLF>";
           SaveEmail (mail_from st) (rcpt_to st) body2;
           Send "250 OK: Message accepted for delivery"],
          Ok (delivered st body2, rest2, Next)))
  ∧ (∀ message addr input,
       Py.truthy (helo st) = true →
       Py.startswith (Py.upper message) "MAIL FROM:" = true →
       Py.match_path "MAIL FROM:" message = Some addr →
       command hostname st' message input =
         ([Send "250 OK"],
          Ok ({| helo := helo st; mail_from := Some addr;
                 rcpt_to := []; data := None |}, input, Next))).
Proof.
  intros Hr Hb He body st'. split; [|split].
  - by apply data_completed.
  - intros raws2 dot2 rest2 Hb2 He2 body2.
    by rewrite (data_completed hostname st' raws2 dot2 rest2).
  - intros message addr input Hh Hm Hp.
    rewrite command_MAIL_FROM by done. cbn [st' delivered helo].
    by rewrite Hh, Hp.
Qed.

End AfterData.

Lemma data_keeps_envelope_witness :
  let st := {| helo := Some "client.test"; mail_from := Some "alice@example.com";
               rcpt_to := ["bob@example.com"]; data := None |} in
  command "mx" st "DATA" (Ok ∘ Py.wire_line <$> ["Hello,"; "..Bye"; "."; "QUIT"]) =
    ([Send "354 End data with <CRLF>.<CRLF>";
      SaveEmail (Some "alice@example.com") ["bob@example.com"]
        ("Hello," +:+ Py.LF +:+ ".Bye");
      Send "250 OK: Message accepted for delivery"],
     Ok (delivered st ("Hello," +:+ Py.LF +:+ ".Bye"),
         [Ok (Py.wire_line "QUIT")], Next)).
Proof.
  intros st.
  refine (proj1 (data_keeps_envelope "mx" st (Py.wire_line <$> ["Hello,"; "..Bye"])
                   (Py.wire_line ".") [Ok (Py.wire_line "QUIT")] _ _ _)).
  - discriminate.
  - repeat constructor.
  - reflexivity.
Defined.
End SmtpFacts.

(** * Facts about the POP3 server *)

Module Pop3Facts.
Import Pop3.

(** ** Comprehensions that may raise *)

Lemma for_each_length {A B} (f : A → res B) l bs :
  for_each f l = Ok bs → length bs = length l.
Proof.
  revert bs. induction l as [|a l IH]; intros bs; cbn [for_each].
  - by intros [= <-].
  - destruct (f a) as [b|e]; cbn [res_bind]; [|done].
    destruct (for_each f l) as [bs'|e]; cbn [res_bind]; [|done].
    intros [= <-]. cbn. f_equal. by apply IH.
Qed.

Lemma for_each_ok {A B} (f : A → res B) (g : A → B) l :
  Forall (λ a, f a = Ok (g a)) l → for_each f l = Ok (g <$> l).
Proof.
  induction 1 as [|a l Ha _ IH]; cbn [for_each]; [done|].
  by rewrite Ha, IH.
Qed.

(** Pairing each result with something computed from the argument
    changes neither whether the comprehension raises nor what it raises. *)
Lemma for_each_pair {A B C} (f : A → res B) (g : A → B → C) l :
  for_each (λ a, b ←! f a; Ok (g a b)) l =
  bs ←! for_each f l; Ok (zip_with g l bs).
Proof.
  induction l as [|a l IH]; cbn [for_each]; [done|].
  destruct (f a) as [b|e]; cbn [res_bind]; [|done].
  rewrite IH. destruct (for_each f l) as [bs|e]; cbn [res_bind]; done.
Qed.

Lemma index_lookup {A} (l : list A) (i : nat) x :
  l !! i = Some x → Py.index l (Z.of_nat i) = Ok x.
Proof.
  intros H. pose proof (lookup_lt_Some _ _ _ H) as Hlt.
  unfold Py.index.
  destruct (Z.ltb_spec (Z.of_nat i) 0) as [?|_]; [lia|].
  destruct (Z.leb_spec 0 (Z.of_nat i)) as [_|?]; [|lia].
  destruct (Z.ltb_spec (Z.of_nat i) (Z.of_nat (length l))) as [_|?]; [|lia].
  cbn. by rewrite Nat2Z.id, H.
Qed.


(** ** STAT against LIST *)

Lemma count_is_length (d : Z → bool) (l : list Z) :
  sum ((λ i, if d (i + 1) then 0 else 1) <$> l)
  = Z.of_nat (length (filter (λ i, negb (d (i + 1))) l)).
Proof.
  induction l as [|i l IH]; [done|].
  rewrite fmap_cons, filter_cons. cbn [sum foldr]. fold (sum ((λ i, if d (i + 1) then 0 else 1) <$> l)).
  rewrite IH. destruct (d (i + 1)); cbn.
  - rewrite decide_False by (intros []). lia.
  - rewrite decide_True by done. cbn [length]. lia.
Qed.

Lemma zip_with_snd {A B} (l : list A) (bs : list B) (h : A → A) :
  length bs = length l → (zip_with (λ a b, (h a, b)) l bs).*2 = bs.
Proof.
  revert bs. induction l as [|a l IH]; intros [|b bs]; cbn; try done.
  intros [= H]. f_equal. by apply IH.
Qed.

(** Whatever the state, STAT and LIST agree: they raise together, and
    when LIST returns, STAT counts its entries and adds up their sizes. *)
Lemma count_and_octets_list_all m :
  match list_all m with
  | Ok l => count_and_octets m = Ok (Z.of_nat (length l), sum (l.*2))
  | Raise e => count_and_octets m = Raise e
  end.
Proof.
  unfold list_all, count_and_octets.
  rewrite (for_each_pair (Py.index (sizes m)) (λ i size, (i + 1, size))).
  destruct (for_each _ _) as [bs|e] eqn:E; cbn [res_bind]; [|done].
  apply for_each_length in E.
  rewrite length_zip_with, E, Nat.min_id.
  rewrite (zip_with_snd _ bs (λ i, i + 1)) by done.
  by rewrite count_is_length.
Qed.

Lemma list_all_not_deleted m l :
  list_all m = Ok l → Forall (λ e, deleted_get m e.1 = false) l.
Proof.
  unfold list_all.
  rewrite (for_each_pair (Py.index (sizes m)) (λ i size, (i + 1, size))).
  destruct (for_each _ _) as [bs|e] eqn:E; cbn [res_bind]; [|done].
  intros [= <-]. apply for_each_length in E.
  apply Forall_forall. intros [i sz] Hin.
  apply elem_of_lookup_zip_with in Hin as (k & j & b & [= -> ->] & Hj & _).
  apply list_elem_of_lookup_2, list_elem_of_filter in Hj as [Hj _].
  cbn. by destruct (deleted_get m (j + 1)).
Qed.

(** ** The snapshot keeps one size per message *)

Section Reachable.
Variable sha1_hex : string → string.

Lemma refresh_sizes root m m' :
  refresh sha1_hex root m = Ok m' → length (sizes m') = length (messages m').
Proof.
  unfold refresh. destruct (for_each _ _) as [szs|e] eqn:E; cbn [res_bind]; [|done].
  intros [= <-]. cbn. by apply for_each_length in E.
Qed.

Lemma dele_fields m idx m' :
  dele m idx = Ok m' →
  messages m' = messages m ∧ sizes m' = sizes m ∧ uidls m' = uidls m
  ∧ deleted m' = <[idx := true]> (deleted m).
Proof.
  unfold dele. destruct (_ensure_index m idx); cbn [res_bind]; [|done].
  destruct (deleted_get m idx); [done|]. by intros [= <-].
Qed.

Lemma reachable_sizes m :
  reachable sha1_hex m → length (sizes m) = length (messages m).
Proof.
  induction 1 as [|root m m' _ _ Hr|m idx m' _ IH Hd|m _ IH|root m root' m' _ _ Hc].
  - done.
  - by eapply refresh_sizes.
  - apply dele_fields in Hd as (-> & -> & _). done.
  - done.
  - unfold commit in Hc. injection Hc as _ Hr. by eapply refresh_sizes.
Qed.

Lemma sizes_in_range m (l : list Z) :
  length (sizes m) = length (messages m) →
  l ⊆ indices m →
  ∃ szs, for_each (Py.index (sizes m)) l = Ok szs.
Proof.
  intros Hlen. induction l as [|i l IH]; intros Hsub; cbn [for_each].
  - by eexists.
  - assert (i ∈ indices m) as Hi by (apply Hsub; constructor).
    apply list_elem_of_fmap in Hi as (k & Hik & Hk). subst i.
    apply elem_of_seq in Hk.
    destruct (lookup_lt_is_Some_2 (sizes m) k) as [sz Hsz]; [lia|].
    rewrite (index_lookup _ _ _ Hsz). cbn [res_bind].
    destruct IH as [szs ->]; [intros j Hj; apply Hsub; by constructor|].
    by eexists.
Qed.

Lemma list_all_returns m :
  length (sizes m) = length (messages m) → ∃ l, list_all m = Ok l.
Proof.
  intros Hlen. unfold list_all.
  rewrite (for_each_pair (Py.index (sizes m)) (λ i size, (i + 1, size))).
  destruct (sizes_in_range m
              (filter (λ i, negb (deleted_get m (i + 1))) (indices m)) Hlen)
    as [szs ->].
  - intros i Hi. by apply list_elem_of_filter in Hi as [_ Hi].
  - by eexists.
Qed.

End Reachable.

Lemma demo_refresh :
  refresh demo_sha1 demo_root empty = Ok demo_maildrop.
Proof. vm_compute. reflexivity. Qed.

Lemma demo_reachable : reachable demo_sha1 demo_maildrop.
Proof. exact (reach_refresh _ _ _ _ (reach_new _) demo_refresh). Qed.

(** ** DELE and RSET *)

Lemma deleted_get_insert m idx j d :
  deleted m = <[idx := true]> d →
  deleted_get m j = if decide (idx = j) then true else default false (d !! j).
Proof.
  intros H. unfold deleted_get. rewrite H, lookup_insert. by case_decide.
Qed.

Lemma ensure_index_ok m idx :
  1 ≤ idx ≤ Z.of_nat (length (messages m)) → _ensure_index m idx = Ok tt.
Proof.
  intros [H1 H2]. unfold _ensure_index.
  destruct (Z.ltb_spec idx 1); [lia|].
  destruct (Z.ltb_spec (Z.of_nat (length (messages m))) idx); [lia|]. done.
Qed.

Lemma ensure_index_inv m idx :
  _ensure_index m idx = Ok tt → 1 ≤ idx ≤ Z.of_nat (length (messages m)).
Proof.
  unfold _ensure_index.
  destruct (Z.ltb_spec idx 1); [done|].
  destruct (Z.ltb_spec (Z.of_nat (length (messages m))) idx); [done|]. lia.
Qed.

(** DELE succeeds on the valid numbers not yet marked, and on no other. *)
Lemma dele_succeeds_iff m idx :
  (∃ m', dele m idx = Ok m')
  ↔ 1 ≤ idx ≤ Z.of_nat (length (messages m)) ∧ deleted_get m idx = false.
Proof.
  unfold dele. split.
  - intros [m' H]. destruct (_ensure_index m idx) as [[]|e] eqn:E; [|done].
    apply ensure_index_inv in E. cbn [res_bind] in H.
    by destruct (deleted_get m idx).
  - intros [Hr Hd]. rewrite (ensure_index_ok _ _ Hr), Hd. by eexists.
Qed.

(** C10.  On a valid number not yet marked, [dele] returns, and the
    state it leaves has the same messages, sizes and uidls; the number
    is marked and the mark of every other number is as before. *)
Theorem dele_frame m idx :
  1 ≤ idx ≤ Z.of_nat (length (messages m)) →
  deleted_get m idx = false →
  ∃ m', dele m idx = Ok m'
        ∧ messages m' = messages m
        ∧ sizes m' = sizes m
        ∧ uidls m' = uidls m
        ∧ deleted m' !! idx = Some true
        ∧ ∀ j, j ≠ idx → deleted m' !! j = deleted m !! j.
Proof.
  intros Hr Hd.
  destruct (proj2 (dele_succeeds_iff m idx) (conj Hr Hd)) as [m' Hm'].
  exists m'. split; [done|].
  apply dele_fields in Hm' as (-> & -> & -> & ->).
  do 3 (split; [done|]). split.
  - apply lookup_insert_eq.
  - intros j Hj. by apply lookup_insert_ne.
Qed.

Lemma dele_frame_witness :
  ∃ m', dele demo_maildrop 2 = Ok m'
        ∧ messages m' = messages demo_maildrop
        ∧ sizes m' = sizes demo_maildrop
        ∧ uidls m' = uidls demo_maildrop
        ∧ deleted m' !! 2 = Some true
        ∧ ∀ j, j ≠ 2 → deleted m' !! j = deleted demo_maildrop !! j.
Proof. apply (dele_frame demo_maildrop 2); [cbn; lia | reflexivity]. Defined.

Lemma filter_ext_in {A} (P Q : A → Prop) `{!∀ x, Decision (P x), !∀ x, Decision (Q x)}
    (l : list A) :
  (∀ x, x ∈ l → P x ↔ Q x) → filter P l = filter Q l.
Proof.
  induction l as [|a l IH]; intros Hext; [done|].
  rewrite !filter_cons.
  rewrite IH by (intros x Hx; apply Hext; by constructor).
  assert (P a ↔ Q a) as Ha by (apply Hext; constructor).
  destruct (decide (P a)), (decide (Q a)); tauto.
Qed.

Lemma elem_of_indices m i :
  i ∈ indices m ↔ 0 ≤ i < Z.of_nat (length (messages m)).
Proof.
  unfold indices. rewrite list_elem_of_fmap. split.
  - intros (k & -> & Hk). apply elem_of_seq in Hk. lia.
  - intros H. exists (Z.to_nat i). split; [lia|]. apply elem_of_seq. lia.
Qed.

(** STAT and LIST see the marks of the numbers 1..N only. *)
Lemma views_ext m1 m2 :
  messages m1 = messages m2 → sizes m1 = sizes m2 →
  (∀ i, 1 ≤ i ≤ Z.of_nat (length (messages m1)) →
        deleted_get m1 i = deleted_get m2 i) →
  count_and_octets m1 = count_and_octets m2 ∧ list_all m1 = list_all m2.
Proof.
  intros Hm Hs Hd.
  assert (indices m1 = indices m2) as Hi by (unfold indices; by rewrite Hm).
  assert (filter (λ i, negb (deleted_get m1 (i + 1))) (indices m1)
          = filter (λ i, negb (deleted_get m2 (i + 1))) (indices m2)) as Hf.
  { rewrite <- Hi. apply filter_ext_in. intros i Hin%elem_of_indices.
    rewrite Hd by lia. done. }
  assert ((λ i, if deleted_get m1 (i + 1) then 0 else 1) <$> indices m1
          = (λ i, if deleted_get m2 (i + 1) then 0 else 1) <$> indices m2) as Hc.
  { rewrite <- Hi. apply Forall_fmap_ext_1, Forall_forall.
    intros i Hin%elem_of_indices. rewrite Hd by lia. done. }
  unfold count_and_octets, list_all. by rewrite Hc, Hf, Hs.
Qed.

Lemma deleted_get_rset m i : deleted_get (rset m) i = false.
Proof. unfold deleted_get, rset. cbn. by rewrite lookup_empty. Qed.

(** C5, as stated, fails: with message 1 already marked, DELE 2 then
    RSET brings message 1 back too, so STAT and LIST are not what they
    were before DELE 2. *)
Lemma dele_rset_unmarks_others :
  ∃ m1 m2,
    dele demo_maildrop 1 = Ok m1
    ∧ dele m1 2 = Ok m2
    ∧ count_and_octets m1 = Ok (1, 7)
    ∧ list_all m1 = Ok [(2, 7)]
    ∧ count_and_octets (rset m2) = Ok (2, 18)
    ∧ list_all (rset m2) = Ok [(1, 11); (2, 7)].
Proof.
  eexists _, _. split; [vm_compute; reflexivity|].
  split; [vm_compute; reflexivity|].
  repeat split; vm_compute; reflexivity.
Qed.

(** C5 (amended).  When no message is marked deleted, a successful
    DELE n followed by RSET leaves the count, the octets and the LIST
    output as they were before the DELE. *)
Theorem dele_rset_restores m idx m' :
  (∀ i, 1 ≤ i ≤ Z.of_nat (length (messages m)) → deleted_get m i = false) →
  dele m idx = Ok m' →
  count_and_octets (rset m') = count_and_octets m
  ∧ list_all (rset m') = list_all m.
Proof.
  intros Hnone Hd. apply dele_fields in Hd as (Hm & Hs & _ & _).
  apply views_ext; cbn [rset messages sizes]; [done..|].
  intros i Hi. rewrite deleted_get_rset, Hnone; [done|]. by rewrite <- Hm.
Qed.

Lemma dele_rset_restores_witness :
  ∃ m', dele demo_maildrop 2 = Ok m'
        ∧ count_and_octets (rset m') = count_and_octets demo_maildrop
        ∧ list_all (rset m') = list_all demo_maildrop.
Proof.
  eexists. split; [reflexivity|].
  apply (dele_rset_restores demo_maildrop 2).
  - intros i _. reflexivity.
  - reflexivity.
Defined.

(** ** The enumeration of the mailbox *)

Lemma elem_of_glob_eml root p :
  p ∈ glob_eml root
  ↔ ∃ f, root !! p = Some f ∧ Py.endswith p ".eml" = true ∧ is_file f = true.
Proof.
  unfold glob_eml. rewrite merge_sort_Permutation, list_elem_of_fmap. split.
  - intros ([q f] & -> & [HP Hin]%list_elem_of_filter).
    apply elem_of_map_to_list in Hin. cbn in HP.
    apply andb_prop_elim in HP as [H1%Is_true_eq_true H2%Is_true_eq_true]. eauto.
  - intros (f & Hf & H1 & H2). exists (p, f). split; [done|].
    apply list_elem_of_filter. split.
    + cbn. by rewrite H1, H2.
    + by apply elem_of_map_to_list.
Qed.

Lemma NoDup_glob_eml root : NoDup (glob_eml root).
Proof.
  unfold glob_eml. rewrite merge_sort_Permutation.
  eapply sublist_NoDup; [apply (NoDup_fst_map_to_list root)|].
  apply fmap_sublist, sublist_filter.
Qed.

Lemma sorted_glob_eml root : StronglySorted String.le (glob_eml root).
Proof. apply StronglySorted_merge_sort; apply _. Qed.

Lemma StronglySorted_filter {A} (R : relation A) (P : A → Prop)
    `{!∀ x, Decision (P x)} l :
  StronglySorted R l → StronglySorted R (filter P l).
Proof.
  induction 1 as [|x l _ IH Hx]; [constructor|].
  rewrite filter_cons. destruct (decide (P x)); [|done].
  constructor; [done|].
  apply Forall_forall. intros y [_ Hy]%list_elem_of_filter.
  by eapply Forall_forall in Hx.
Qed.

(** Two mailboxes with the same message files are enumerated alike
    wherever one is a part of the other. *)
Lemma glob_eml_filter root root' (P : string → Prop) `{!∀ p, Decision (P p)} :
  (∀ p, root' !! p = if decide (P p) then root !! p else None) →
  glob_eml root' = filter P (glob_eml root).
Proof.
  intros Hroot. apply (StronglySorted_unique String.le).
  - apply sorted_glob_eml.
  - apply StronglySorted_filter, sorted_glob_eml.
  - apply NoDup_Permutation.
    + apply NoDup_glob_eml.
    + apply NoDup_filter, NoDup_glob_eml.
    + intros p. rewrite list_elem_of_filter, !elem_of_glob_eml, Hroot.
      destruct (decide (P p)) as [HP|HP].
      * split; [by intros Hf|by intros [_ Hf]].
      * split; [by intros (f & [=] & _)|by intros [? _]].
Qed.

(** ** What [commit] does to the directory *)

Lemma unlink_lookup root p q :
  (match unlink root p with Ok root' => root' | Raise _ => root end) !! q
  = if bool_decide (q = p) && unlinks root p then None else root !! q.
Proof.
  unfold unlink, unlinks. destruct (root !! p) as [f|] eqn:E.
  - destruct (unlink_raises f); cbn; [by rewrite andb_false_r|].
    rewrite andb_true_r, lookup_delete. case_bool_decide; case_decide; congruence.
  - by rewrite andb_false_r.
Qed.

Lemma commit_step_lookup m root i p q :
  commit_step m root (i, p) !! q
  = if deleted_get m i && bool_decide (q = p) && unlinks root p
    then None else root !! q.
Proof.
  unfold commit_step. cbn [fst snd].
  destruct (deleted_get m i); [|done]. by rewrite unlink_lookup.
Qed.

Lemma bool_decide_elem_of_cons {A} `{EqDecision A} (x y : A) (l : list A) :
  bool_decide (x ∈ y :: l) = bool_decide (x = y) || bool_decide (x ∈ l).
Proof.
  destruct (decide (x = y)) as [->|Hne].
  - rewrite (bool_decide_eq_true_2 (y = y)) by done.
    by rewrite (bool_decide_eq_true_2 (y ∈ y :: l)) by constructor.
  - rewrite (bool_decide_eq_false_2 (x = y)) by done. cbn.
    apply bool_decide_ext. rewrite elem_of_cons. tauto.
Qed.

(** The loop of [commit] removes the files of marked messages that
    [unlink] can remove, and leaves every other file as it is. *)
Lemma commit_fold_lookup m l root q :
  foldl (commit_step m) root l !! q
  = if bool_decide (q ∈ (filter (λ ip, deleted_get m ip.1) l).*2) && unlinks root q
    then None else root !! q.
Proof.
  revert root. induction l as [|[i p] l IH]; intros root; cbn [foldl].
  - by rewrite filter_nil.
  - rewrite IH, filter_cons. cbn [fst].
    unfold unlinks at 1. rewrite !commit_step_lookup.
    destruct (deleted_get m i) eqn:Hd; cbn [Is_true andb].
    + rewrite decide_True by done. rewrite fmap_cons. cbn [snd].
      rewrite bool_decide_elem_of_cons.
      destruct (decide (q = p)) as [->|Hne].
      * rewrite (bool_decide_eq_true_2 (p = p)) by done. cbn [andb orb].
        destruct (unlinks root p) eqn:Hu; cbn [andb].
        -- by rewrite andb_false_r.
        -- fold (unlinks root p). by rewrite Hu, !andb_false_r.
      * rewrite (bool_decide_eq_false_2 (q = p)) by done. cbn [andb orb].
        by fold (unlinks root q).
    + rewrite decide_False by (intros []). done.
Qed.

(** ** Counting what is left *)

Lemma length_enumerate {A} i (l : list A) : length (enumerate i l) = length l.
Proof. revert i. induction l as [|a l IH]; intros i; cbn; [done|]. by rewrite IH. Qed.

Lemma elem_of_enumerate_snd {A} (P : Z * A → Prop) `{!∀ x, Decision (P x)}
    i (l : list A) a :
  a ∈ (filter P (enumerate i l)).*2 → a ∈ l.
Proof.
  revert i. induction l as [|b l IH]; intros i; cbn [enumerate].
  - rewrite filter_nil. by intros ?%elem_of_nil.
  - rewrite filter_cons. destruct (decide (P (i, b))).
    + rewrite fmap_cons, !elem_of_cons. cbn. intros [->|Hin]; [by left|].
      right. by eapply IH.
    + intros Hin. right. by eapply IH.
Qed.

(** With no file listed twice, the files outside the marked ones are
    the files of the unmarked numbers. *)
Lemma unmarked_files (d : Z → bool) i (ps : list string) :
  NoDup ps →
  filter (λ p, p ∉ (filter (λ ip, d ip.1) (enumerate i ps)).*2) ps
  = (filter (λ ip, ¬ d ip.1) (enumerate i ps)).*2.
Proof.
  intros Hnd. revert i.
  induction Hnd as [|p ps Hp _ IH]; intros i; [done|].
  cbn [enumerate]. rewrite !filter_cons. cbn [fst].
  assert (filter (λ q, q ∉ (if decide (d i) then (i, p) :: filter (λ ip, d ip.1) (enumerate (i + 1) ps)
                            else filter (λ ip, d ip.1) (enumerate (i + 1) ps)).*2) ps
          = filter (λ q, q ∉ (filter (λ ip, d ip.1) (enumerate (i + 1) ps)).*2) ps) as ->.
  { apply filter_ext_in. intros q Hq. destruct (decide (d i)); [|done].
    rewrite fmap_cons, not_elem_of_cons. cbn.
    split; [by intros [_ ?]|]. intros ?. split; [|done]. by intros ->. }
  rewrite IH.
  assert (p ∉ (filter (λ ip, d ip.1) (enumerate (i + 1) ps)).*2) as Hp'.
  { intros Hin. by apply elem_of_enumerate_snd in Hin. }
  destruct (decide (d i)) as [Hd|Hd].
  - rewrite decide_False by (rewrite fmap_cons; intros Hn; apply Hn; by left).
    by rewrite decide_False by tauto.
  - rewrite decide_True by done. by rewrite decide_True by done.
Qed.

Lemma length_filter_complement {A} (P : A → Prop) `{!∀ x, Decision (P x)} (l : list A) :
  (length (filter P l) + length (filter (λ x, ¬ P x) l) = length l)%nat.
Proof. by rewrite <- length_app, filter_app_complement. Qed.

Lemma marked_files_listed m p : p ∈ marked_files m → p ∈ messages m.
Proof. apply elem_of_enumerate_snd. Qed.

Lemma length_marked_files m : (length (marked_files m) ≤ length (messages m))%nat.
Proof.
  unfold marked_files. rewrite length_fmap.
  etrans; [apply length_filter|]. by rewrite length_enumerate.
Qed.

Lemma length_unmarked m :
  NoDup (messages m) →
  length (filter (λ p, p ∉ marked_files m) (messages m))
  = (length (messages m) - length (marked_files m))%nat.
Proof.
  intros Hnd. unfold marked_files.
  rewrite (unmarked_files (deleted_get m) 1 (messages m) Hnd).
  pose proof (length_filter_complement (λ ip : Z * string, deleted_get m ip.1)
                (enumerate 1 (messages m))) as H.
  rewrite length_enumerate in H. rewrite !length_fmap. lia.
Qed.

(** ** [refresh] *)

Section Commit.
Variable sha1_hex : string → string.

(** Every file the enumeration lists is there to be measured, so
    [refresh] returns, with the snapshot of the directory. *)
Lemma refresh_snapshot root m : refresh sha1_hex root m = Ok (snapshot sha1_hex root).
Proof.
  unfold refresh.
  rewrite (for_each_ok _ (λ p, from_option st_size 0 (root !! p))); [done|].
  apply Forall_forall. intros p (f & Hf & _)%elem_of_glob_eml.
  unfold stat. by rewrite Hf.
Qed.

Lemma commit_snapshot root m :
  commit sha1_hex root m
  = (foldl (commit_step m) root (enumerate 1 (messages m)),
     Ok (snapshot sha1_hex (foldl (commit_step m) root (enumerate 1 (messages m))))).
Proof. unfold commit. by rewrite refresh_snapshot. Qed.

Lemma commit_lookup root m p :
  (commit sha1_hex root m).1 !! p
  = if bool_decide (p ∈ marked_files m) && unlinks root p then None else root !! p.
Proof. unfold commit. cbn [fst]. apply commit_fold_lookup. Qed.

End Commit.

(** ** QUIT in TRANSACTION *)

Section Quit.
Variable sha1_hex : string → string.

Lemma dispatch_QUIT_transaction args w :
  state (self w) = TRANSACTION →
  dispatch sha1_hex "QUIT" args w
  = (do_commit sha1_hex >> _send_ok "Bye" >> ret Break) w.
Proof.
  intros Hs. unfold dispatch at 1. unfold bind at 1, get at 1. by rewrite Hs.
Qed.

Lemma command_QUIT_transaction w :
  state (self w) = TRANSACTION →
  let root' := (commit sha1_hex (root w) (maildrop (self w))).1 in
  command sha1_hex (Py.wire_line "QUIT") w
  = (Ok Break,
     {| self := {| state := TRANSACTION; user := user (self w);
                   maildrop := snapshot sha1_hex root' |};
        root := root';
        wire := wire w ++ [Py.wire_line "+OK Bye"];
        closed := closed w |}).
Proof.
  intros Hs root'. unfold command.
  change (Py.split (Py.rstrip_crlf (Py.wire_line "QUIT"))) with ["QUIT"].
  cbv beta iota zeta. change (Py.upper "QUIT") with "QUIT".
  unfold try_except. rewrite (dispatch_QUIT_transaction [] w Hs).
  unfold do_commit, bind, get. rewrite commit_snapshot.
  cbn. by rewrite Hs.
Qed.

End Quit.

Lemma zip_with_fst {A B C} (l : list A) (bs : list B) (h : A → C) :
  length bs = length l → (zip_with (λ a b, (h a, b)) l bs).*1 = h <$> l.
Proof.
  revert bs. induction l as [|a l IH]; intros [|b bs]; cbn; try done.
  intros [= H]. f_equal. by apply IH.
Qed.

(** With no mark set, LIST numbers the messages 1, 2, ..., N. *)
Lemma list_all_numbering m :
  length (sizes m) = length (messages m) →
  deleted m = ∅ →
  ∃ l, list_all m = Ok l ∧ l.*1 = Z.of_nat <$> seq 1 (length (messages m)).
Proof.
  intros Hlen Hd. unfold list_all.
  assert (filter (λ i, negb (deleted_get m (i + 1))) (indices m) = indices m) as ->.
  { induction (indices m) as [|i l IH]; [done|].
    rewrite filter_cons_True, IH; [done|].
    unfold deleted_get. by rewrite Hd, lookup_empty. }
  rewrite (for_each_pair (Py.index (sizes m)) (λ i size, (i + 1, size))).
  destruct (sizes_in_range m (indices m) Hlen) as [szs Hszs]; [done|].
  rewrite Hszs. cbn [res_bind]. eexists. split; [done|].
  apply for_each_length in Hszs.
  rewrite (zip_with_fst _ szs (λ i, i + 1)) by done.
  unfold indices. rewrite <- fmap_S_seq, <- !list_fmap_compose.
  apply list_fmap_ext. intros _ k _. cbn. lia.
Qed.

Section QuitCommits.
Variable sha1_hex : string → string.

(** C7 (amended).  QUIT in TRANSACTION, on a Maildrop whose snapshot
    is not stale (it lists the message files now in the directory, as it
    does all along a session that is alone on the directory,
    [loop_in_sync] below), answers [+OK Bye] and leaves the loop after
    [commit]:
    every file of a marked message that [unlink] can remove is gone,
    whether or not another deletion failed, and every other file is
    untouched; the Maildrop is the enumeration of what is left, with no
    mark.  When no deletion fails, no marked file exists afterwards,
    exactly the N - k unmarked messages are enumerated, in their old
    order, and LIST numbers them 1 to N - k. *)
Theorem quit_commits w :
  state (self w) = TRANSACTION →
  in_sync w →
  let m := maildrop (self w) in
  ∃ w',
    command sha1_hex (Py.wire_line "QUIT") w = (Ok Break, w')
    ∧ wire w' = wire w ++ [Py.wire_line "+OK Bye"]
    ∧ (∀ p, root w' !! p =
            if bool_decide (p ∈ marked_files m) && unlinks (root w) p
            then None else root w !! p)
    ∧ messages (maildrop (self w')) = glob_eml (root w')
    ∧ deleted (maildrop (self w')) = ∅
    ∧ ((∀ p, p ∈ marked_files m → unlinks (root w) p = true) →
       (∀ p, p ∈ marked_files m → root w' !! p = None)
       ∧ glob_eml (root w') = filter (λ p, p ∉ marked_files m) (messages m)
       ∧ length (glob_eml (root w'))
         = (length (messages m) - length (marked_files m))%nat
       ∧ ∃ l, list_all (maildrop (self w')) = Ok l
              ∧ l.*1 = Z.of_nat <$>
                        seq 1 (length (messages m) - length (marked_files m))).
Proof.
  intros Hs Hsync. pose proof (Hsync Hs) as Hsnap. clear Hsync.
  cbv zeta. set (m := maildrop (self w)) in *.
  eexists. split; [by apply command_QUIT_transaction|].
  cbn [wire root self maildrop snapshot messages deleted].
  split; [done|]. split; [apply commit_lookup|]. split; [done|]. split; [done|].
  intros Hok.
  assert (glob_eml (commit sha1_hex (root w) m).1
          = filter (λ p, p ∉ marked_files m) (messages m)) as Hglob.
  { rewrite Hsnap. apply glob_eml_filter. intros p.
    rewrite commit_lookup. destruct (decide (p ∈ marked_files m)) as [Hin|Hin].
    - rewrite (bool_decide_eq_true_2 _ Hin), (Hok p Hin). cbn.
      by rewrite decide_False by tauto.
    - rewrite (bool_decide_eq_false_2 _ Hin). cbn. by rewrite decide_True. }
  assert (length (glob_eml (commit sha1_hex (root w) m).1)
          = (length (messages m) - length (marked_files m))%nat) as Hlen.
  { rewrite Hglob. apply length_unmarked. rewrite Hsnap.
    apply NoDup_glob_eml. }
  split; [|split; [done|split; [done|]]].
  - intros p Hin. rewrite commit_lookup.
    by rewrite (bool_decide_eq_true_2 _ Hin), (Hok p Hin).
  - rewrite <- Hlen.
    apply (list_all_numbering (snapshot sha1_hex (commit sha1_hex (root w) m).1)).
    + cbn. by rewrite length_fmap.
    + done.
Qed.

End QuitCommits.

Lemma quit_commits_witness :
  ∃ w',
    command demo_sha1 (Py.wire_line "QUIT") demo_world = (Ok Break, w')
    ∧ wire w' = [Py.wire_line "+OK Bye"]
    ∧ root w' !! "20240101115959_a.eml" = None
    ∧ glob_eml (root w') = ["20240101120000_b.eml"]
    ∧ length (glob_eml (root w')) = 1%nat.
Proof.
  destruct (quit_commits demo_sha1 demo_world) as (w' & Hc & Hw & _ & _ & _ & Hok).
  - reflexivity.
  - intros _. vm_compute. reflexivity.
  - destruct Hok as (Hgone & Hglob & Hlen & _).
    + intros p Hp. vm_compute in Hp. apply list_elem_of_singleton in Hp.
      subst p. vm_compute. reflexivity.
    + exists w'. split; [exact Hc|]. split; [exact Hw|].
      split; [apply Hgone; vm_compute; apply list_elem_of_singleton; reflexivity|].
      split; [rewrite Hglob; vm_compute; reflexivity|exact Hlen].
Defined.

(** C7, as stated, fails.  Two messages are listed and the first is
    marked (N = 2, k = 1).  When the file of the marked message cannot
    be removed, [commit] swallows the exception: after QUIT the file is
    still there and two messages are enumerated, not one.  And when a
    message was delivered after the Maildrop was loaded, QUIT removes
    the marked file and enumerates two messages, not one. *)
Lemma quit_count_can_differ :
  (∃ w',
     command demo_sha1 (Py.wire_line "QUIT") stuck_world = (Ok Break, w')
     ∧ state (self stuck_world) = TRANSACTION
     ∧ messages (maildrop (self stuck_world))
       = ["20240101115959_a.eml"; "20240101120000_b.eml"]
     ∧ marked_files (maildrop (self stuck_world)) = ["20240101115959_a.eml"]
     ∧ is_Some (root w' !! "20240101115959_a.eml")
     ∧ glob_eml (root w') = ["20240101115959_a.eml"; "20240101120000_b.eml"]
     ∧ list_all (maildrop (self w')) = Ok [(1, 11); (2, 7)])
  ∧ (∃ w',
       command demo_sha1 (Py.wire_line "QUIT") stale_world = (Ok Break, w')
       ∧ messages (maildrop (self stale_world))
         = ["20240101115959_a.eml"; "20240101120000_b.eml"]
       ∧ marked_files (maildrop (self stale_world)) = ["20240101115959_a.eml"]
       ∧ root w' !! "20240101115959_a.eml" = None
       ∧ glob_eml (root w') = ["20240101120000_b.eml"; "20240101120500_c.eml"]).
Proof.
  split.
  - eexists. split; [vm_compute; reflexivity|].
    repeat split; try (vm_compute; reflexivity). by eexists.
  - eexists. split; [vm_compute; reflexivity|].
    repeat split; vm_compute; reflexivity.
Qed.

(** On the demo mailbox: message 1 is marked, QUIT removes its file and
    the one message left is enumerated. *)
Example quit_commits_demo :
  ∃ w', command demo_sha1 (Py.wire_line "QUIT") demo_world = (Ok Break, w')
        ∧ glob_eml (root w') = ["20240101120000_b.eml"]
        ∧ root w' !! "20240101115959_a.eml" = None
        ∧ list_all (maildrop (self w')) = Ok [(1, 7)].
Proof. eexists. split; [vm_compute; reflexivity|]. repeat split; vm_compute; reflexivity. Qed.

(** ** A line with no word on it *)

Section BlankLine.
Variable sha1_hex : string → string.

(** [raw.split()] of a blank line is empty, and the unpacking raises
    before the [try] is entered: no reply, the world as it was. *)
Lemma blank_line_raises line w :
  Py.split (Py.rstrip_crlf line) = [] →
  command sha1_hex line w
  = (Raise (ValueError "not enough values to unpack (expected at least 1, got 0)"), w).
Proof. intros H. unfold command. by rewrite H. Qed.

(** C4 does not hold of the code.  A client that sends an empty
    line right after the greeting: [run] is left by a ValueError, no
    [+OK] or [-ERR] follows the greeting, and the writer is not
    closed by [run]. *)
Theorem empty_line_aborts_session root :
  run sha1_hex [Ok (Py.wire_line "")] (connect root)
  = (Raise (ValueError "not enough values to unpack (expected at least 1, got 0)"),
     {| self := {| state := AUTH; user := None; maildrop := empty |};
        root := root;
        wire := [Py.wire_line "+OK POP3 server ready"];
        closed := false |}).
Proof. reflexivity. Qed.

End BlankLine.

(** ** Every line with a word on it is answered *)

Lemma quiet_ret {A} (a : A) : quiet (ret a).
Proof. by intros w. Qed.

Lemma quiet_get : quiet get.
Proof. by intros w. Qed.

Lemma quiet_lift {A} (r : res A) : quiet (lift r).
Proof. by intros w. Qed.

Lemma quiet_set_self f : quiet (set_self f).
Proof. by intros w. Qed.

Lemma quiet_set_root r : quiet (set_root r).
Proof. by intros w. Qed.

Lemma quiet_bind {A B} (c : M A) (k : A → M B) :
  quiet c → (∀ a, quiet (k a)) → quiet (bind c k).
Proof.
  intros Hc Hk w. unfold bind. specialize (Hc w).
  destruct (c w) as [[a|e] w1]; cbn in *; [|done].
  by rewrite (Hk a w1).
Qed.

Lemma appends_ret {A} (a : A) : appends (ret a).
Proof. intros w. exists a, []. by rewrite app_nil_r. Qed.

Lemma appends_write data : appends (write data).
Proof. intros w. by exists tt, [data]. Qed.

Lemma appends_bind {A B} (c : M A) (k : A → M B) :
  appends c → (∀ a, appends (k a)) → appends (bind c k).
Proof.
  intros Hc Hk w. unfold bind. destruct (Hc w) as (a & more & Ha & Hw).
  destruct (c w) as [r w1]; cbn in *. subst r.
  destruct (Hk a w1) as (b & more' & Hb & Hw').
  exists b, (more ++ more'). split; [done|]. by rewrite Hw', Hw, app_assoc.
Qed.

Lemma appends_write_lines l : appends (write_lines l).
Proof.
  induction l as [|s l IH]; cbn [write_lines]; [apply appends_ret|].
  apply appends_bind; [apply appends_write|done].
Qed.

Lemma answers_write_line s :
  is_reply (s +:+ Py.CRLF) = true → answers (_write_line s).
Proof. intros Hs w. cbn. by exists (s +:+ Py.CRLF), []. Qed.

Lemma answers_send_ok msg : answers (_send_ok msg).
Proof.
  apply answers_write_line. unfold is_reply.
  by rewrite !PyFacts.app_assoc_string, PyFacts.startswith_app.
Qed.

Lemma answers_send_err msg : answers (_send_err msg).
Proof.
  apply answers_write_line. unfold is_reply.
  rewrite !PyFacts.app_assoc_string, PyFacts.startswith_app. apply orb_true_r.
Qed.

Lemma answers_quiet_bind {A B} (c : M A) (k : A → M B) :
  quiet c → (∀ a, answers (k a)) → answers (bind c k).
Proof.
  intros Hc Hk w. unfold bind. specialize (Hc w).
  destruct (c w) as [[a|e] w1]; cbn in *; [|done].
  specialize (Hk a w1). rewrite Hc in Hk. done.
Qed.

Lemma answers_bind_appends {A B} (c : M A) (k : A → M B) :
  answers c → (∀ a, appends (k a)) → answers (bind c k).
Proof.
  intros Hc Hk w. unfold bind. specialize (Hc w).
  destruct (c w) as [[a|e] w1]; cbn in *; [|done].
  destruct Hc as (reply & more & Hw & Hr).
  destruct (Hk a w1) as (b & more' & Hb & Hw'). rewrite Hb.
  exists reply, (more ++ more'). split; [|done].
  by rewrite Hw', Hw, <- app_assoc.
Qed.

(** One step of showing that a method is quiet, appends or answers. *)
Ltac wire_step :=
  first
    [ apply answers_send_ok | apply answers_send_err
    | apply appends_ret | apply appends_write | apply appends_write_lines
    | apply quiet_ret | apply quiet_get | apply quiet_lift
    | apply quiet_set_self | apply quiet_set_root
    | apply answers_quiet_bind; [solve [repeat wire_quiet]|intros ?]
    | apply answers_bind_appends; [|intros ?; solve [repeat wire_appends]]
    | progress case_match ]
with wire_quiet :=
  first
    [ apply quiet_ret | apply quiet_get | apply quiet_lift
    | apply quiet_set_self | apply quiet_set_root
    | apply quiet_bind; [|intros ?] ]
with wire_appends :=
  first
    [ apply appends_ret | apply appends_write | apply appends_write_lines
    | apply appends_bind; [|intros ?] ].

Section Answers.
Variable sha1_hex : string → string.

Lemma answers_cmd_user args : answers (_cmd_user args).
Proof. unfold _cmd_user, set_maildrop. repeat wire_step. Qed.

Lemma answers_cmd_pass args : answers (_cmd_pass sha1_hex args).
Proof. unfold _cmd_pass. repeat wire_step. Qed.

Lemma answers_cmd_stat : answers _cmd_stat.
Proof. unfold _cmd_stat. repeat wire_step. Qed.

Lemma answers_cmd_list args : answers (_cmd_list args).
Proof. unfold _cmd_list, _write_line. repeat wire_step. Qed.

Lemma answers_cmd_retr args : answers (_cmd_retr args).
Proof. unfold _cmd_retr. repeat wire_step. Qed.

Lemma answers_cmd_dele args : answers (_cmd_dele args).
Proof. unfold _cmd_dele, set_maildrop. repeat wire_step. Qed.

Lemma answers_dispatch cmd_u args : answers (dispatch sha1_hex cmd_u args).
Proof.
  unfold dispatch. apply answers_quiet_bind; [apply quiet_get|intros w].
  destruct (state (self w)); repeat case_bool_decide;
    unfold do_commit, set_maildrop;
    repeat first
      [ apply answers_cmd_user | apply answers_cmd_pass
      | apply answers_cmd_stat | apply answers_cmd_list
      | apply answers_cmd_retr | apply answers_cmd_dele
      | wire_step ].
Qed.

(** Every line with a word on it gets a reply, [+OK] or [-ERR], and
    the method returns: nothing raised inside the [try] leaves it. *)
Lemma command_replies line w :
  Py.split (Py.rstrip_crlf line) ≠ [] →
  ∃ fl reply more,
    (command sha1_hex line w).1 = Ok fl
    ∧ wire (command sha1_hex line w).2 = wire w ++ reply :: more
    ∧ is_reply reply = true.
Proof.
  intros Hne. unfold command.
  destruct (Py.split (Py.rstrip_crlf line)) as [|cmd args]; [done|].
  unfold try_except. pose proof (answers_dispatch (Py.upper cmd) args w) as Hd.
  destruct (dispatch sha1_hex (Py.upper cmd) args w) as [[fl|e] w1]; cbn in Hd.
  - destruct Hd as (reply & more & Hw & Hr). by exists fl, reply, more.
  - exists Next, ("-ERR " +:+ str_exn e +:+ Py.CRLF), []. cbn.
    rewrite Hd. split; [done|]. split; [by rewrite PyFacts.app_assoc_string|].
    unfold is_reply. rewrite PyFacts.startswith_app. apply orb_true_r.
Qed.

Lemma bind_ret_flow {A} (c : M A) (fl fl' : flow) w w' :
  (c >> ret fl) w = (Ok fl', w') → fl' = fl.
Proof.
  unfold bind, ret. destruct (c w) as [[a|e] w1]; [|done]. by intros [= <- _].
Qed.

(** The loop is left by QUIT alone. *)
Lemma command_break line w w' :
  command sha1_hex line w = (Ok Break, w') →
  ∃ cmd args, Py.split (Py.rstrip_crlf line) = cmd :: args ∧ Py.upper cmd = "QUIT".
Proof.
  unfold command.
  destruct (Py.split (Py.rstrip_crlf line)) as [|cmd args]; [done|].
  intros H. exists cmd, args. split; [done|].
  unfold try_except in H.
  destruct (dispatch sha1_hex (Py.upper cmd) args w) as [[fl|e] w1] eqn:E.
  - injection H as -> ->. revert E. unfold dispatch, bind at 1, get.
    destruct (state (self w)); repeat case_bool_decide; try done;
      by intros ?%bind_ret_flow.
  - by apply bind_ret_flow in H.
Qed.

End Answers.

(** ** The Maildrop stays a snapshot of the directory *)

Section InSync.
Variable sha1_hex : string → string.

Ltac run_method :=
  cbv beta iota zeta delta
    [bind get lift ret set_maildrop set_self set_root _send_ok _send_err
     _write_line write _cmd_user _cmd_pass _cmd_stat _cmd_list _cmd_retr
     _cmd_dele do_commit snd fst];
  rewrite ?refresh_snapshot, ?commit_snapshot;
  repeat (case_match; simplify_eq/=).

Lemma write_lines_self l w :
  self (write_lines l w).2 = self w ∧ root (write_lines l w).2 = root w.
Proof.
  revert w. induction l as [|s l IH]; intros w; [done|].
  cbn [write_lines]. unfold bind, _write_line, write. cbn.
  destruct (IH {| self := self w; root := root w;
                  wire := wire w ++ [s +:+ Py.CRLF]; closed := closed w |})
    as [-> ->]. done.
Qed.

Ltac sync_done :=
  try done; unfold in_sync in *; cbn in *;
  repeat match goal with
    | H : write_lines ?l ?w' = (_, _) |- _ =>
        let H1 := fresh in let H2 := fresh in
        pose proof (write_lines_self l w') as [H1 H2];
        rewrite H in H1, H2; cbn in H1, H2; clear H;
        rewrite ?H1, ?H2
    | H : dele _ _ = Ok _ |- _ =>
        apply dele_fields in H as (-> & _)
    end;
  try (intros; first [done | congruence | by auto]).

Lemma dispatch_in_sync cmd_u args w :
  in_sync w → in_sync (dispatch sha1_hex cmd_u args w).2.
Proof.
  intros Hw. unfold dispatch, bind at 1, get at 1.
  destruct (state (self w)) eqn:Hs; repeat case_bool_decide.
  - run_method; sync_done.
  - run_method; sync_done.
  - run_method; sync_done.
  - run_method; sync_done.
  - run_method; sync_done.
  - run_method; sync_done.
  - run_method; sync_done.
  - run_method; sync_done.
  - run_method; sync_done.
  - run_method; sync_done.
  - run_method; sync_done.
  - run_method; sync_done.
Qed.

(** A command leaves the Maildrop a snapshot of the directory. *)
Lemma command_in_sync line w :
  in_sync w → in_sync (command sha1_hex line w).2.
Proof.
  intros Hw. unfold command.
  destruct (Py.split (Py.rstrip_crlf line)) as [|cmd args]; [done|].
  pose proof (dispatch_in_sync (Py.upper cmd) args w Hw) as Hd.
  unfold try_except.
  destruct (dispatch sha1_hex (Py.upper cmd) args w) as [[fl|e] w1]; [done|].
  run_method; sync_done.
Qed.

(** So does the loop, from the first line to the last. *)
Lemma loop_in_sync input w :
  in_sync w → in_sync (loop sha1_hex input w).2.
Proof.
  revert w. induction input as [|line input IH]; intros w Hw; [done|].
  cbn [loop]. destruct line as [line|e]; [|done].
  destruct line as [|c line]; [done|].
  unfold bind. pose proof (command_in_sync (String c line) w Hw) as Hc.
  destruct (command sha1_hex (String c line) w) as [[[|]|e] w1]; cbn in *.
  - by apply IH.
  - done.
  - done.
Qed.

End InSync.
(** ** STAT, LIST and the marks *)

Lemma index_size_at m i :
  length (sizes m) = length (messages m) →
  0 ≤ i < Z.of_nat (length (messages m)) →
  Py.index (sizes m) i = Ok (size_at m i).
Proof.
  intros Hlen Hi. unfold size_at.
  destruct (lookup_lt_is_Some_2 (sizes m) (Z.to_nat i)) as [x Hx]; [lia|].
  rewrite Hx. cbn [default]. rewrite <- (Z2Nat.id i) at 1 by lia.
  by apply index_lookup.
Qed.

Lemma list_all_eq m :
  length (sizes m) = length (messages m) →
  list_all m
  = Ok ((λ i, (i + 1, size_at m i))
          <$> filter (λ i, negb (deleted_get m (i + 1))) (indices m)).
Proof.
  intros Hlen. unfold list_all. apply for_each_ok.
  apply Forall_forall. intros i [_ Hi%elem_of_indices]%list_elem_of_filter.
  by rewrite index_size_at.
Qed.

Lemma elem_of_list_all m l e :
  length (sizes m) = length (messages m) →
  list_all m = Ok l →
  e ∈ l ↔ 1 ≤ e.1 ≤ Z.of_nat (length (messages m))
          ∧ deleted_get m e.1 = false
          ∧ e.2 = size_at m (e.1 - 1).
Proof.
  intros Hlen. rewrite list_all_eq by done. intros [= <-].
  rewrite list_elem_of_fmap. split.
  - intros (i & -> & [Hd Hi%elem_of_indices]%list_elem_of_filter).
    cbn [fst snd]. replace (i + 1 - 1) with i by lia.
    split; [lia|]. split; [|done]. by destruct (deleted_get m (i + 1)).
  - intros (Hr & Hd & Hs). exists (e.1 - 1). split.
    + destruct e as [i s]. cbn [fst snd] in *. rewrite Hs. f_equal. lia.
    + apply list_elem_of_filter. split.
      * replace (e.1 - 1 + 1) with e.1 by lia. by rewrite Hd.
      * apply elem_of_indices. lia.
Qed.


Lemma list_all_NoDup m l :
  length (sizes m) = length (messages m) → list_all m = Ok l → NoDup l.
Proof.
  intros Hlen. rewrite list_all_eq by done. intros [= <-].
  apply NoDup_fmap_2_strong.
  - intros i j _ _ [= Hij _]. lia.
  - apply NoDup_filter. unfold indices. apply NoDup_fmap_2_strong; [|apply NoDup_seq].
    intros i j _ _ Hij. lia.
Qed.

Lemma deleted_get_false m i :
  deleted_get m i = false ↔ deleted m !! i ≠ Some true.
Proof.
  unfold deleted_get. destruct (deleted m !! i) as [[|]|]; cbn; split; congruence.
Qed.

Section StatAndList.
Variable sha1_hex : string → string.

(** C6.  In a reachable state LIST returns, and STAT returns the
    number of its entries and the sum of their sizes.  The entries are,
    each once, the numbers from 1 to N that the deleted map does not
    mark, each with the size recorded for its message: a message marked
    deleted has no entry, and so adds nothing to the count or to the
    octets, and every other message has one. *)
Theorem stat_agrees_with_list m :
  reachable sha1_hex m →
  ∃ l, list_all m = Ok l
       ∧ count_and_octets m = Ok (Z.of_nat (length l), sum (l.*2))
       ∧ NoDup (l.*1)
       ∧ ∀ i size, (i, size) ∈ l ↔
           1 ≤ i ≤ Z.of_nat (length (messages m))
           ∧ deleted m !! i ≠ Some true
           ∧ sizes m !! Z.to_nat (i - 1) = Some size.
Proof.
  intros Hlen%reachable_sizes.
  destruct (list_all_returns m Hlen) as [l Hl].
  exists l. split; [done|]. split; [|split].
  - pose proof (count_and_octets_list_all m) as H. by rewrite Hl in H.
  - pose proof (list_all_NoDup m l Hlen Hl) as Hnd.
    apply NoDup_fmap_2_strong; [|done].
    intros [i s] [j t] Hi Hj. cbn [fst]. intros <-.
    apply (elem_of_list_all m l _ Hlen Hl) in Hi as (_ & _ & Hs).
    apply (elem_of_list_all m l _ Hlen Hl) in Hj as (_ & _ & Ht).
    cbn [fst snd] in *. by rewrite Hs, Ht.
  - intros i size. rewrite (elem_of_list_all m l (i, size) Hlen Hl).
    cbn [fst snd]. rewrite deleted_get_false. unfold size_at.
    split; intros (Hr & Hd & Hs); (split; [done|]); (split; [done|]).
    + destruct (lookup_lt_is_Some_2 (sizes m) (Z.to_nat (i - 1))) as [x Hx]; [lia|].
      rewrite Hx in *. cbn in Hs. by subst.
    + by rewrite Hs.
Qed.

End StatAndList.

Lemma stat_agrees_with_list_witness :
  let m := maildrop (self demo_world) in
  deleted m !! 1 = Some true
  ∧ list_all m = Ok [(2, 7)]
  ∧ count_and_octets m = Ok (1, 7)
  ∧ ∃ l, list_all m = Ok l
         ∧ count_and_octets m = Ok (Z.of_nat (length l), sum (l.*2))
         ∧ NoDup (l.*1)
         ∧ ∀ i size, (i, size) ∈ l ↔
             1 ≤ i ≤ Z.of_nat (length (messages m))
             ∧ deleted m !! i ≠ Some true
             ∧ sizes m !! Z.to_nat (i - 1) = Some size.
Proof.
  intros m. split; [reflexivity|].
  split; [vm_compute; reflexivity|]. split; [vm_compute; reflexivity|].
  apply (stat_agrees_with_list demo_sha1 m).
  apply (reach_dele demo_sha1 demo_maildrop 1); [|reflexivity].
  apply (reach_refresh demo_sha1 demo_root empty); [apply reach_new|].
  vm_compute. reflexivity.
Defined.

End Pop3Facts.

(** * Facts about the two servers together *)

Module MailFacts.
Import Smtp Pop3 PyFacts.

(** ** Dot-stuffing and the transparency rule *)

Lemma dot_stuff_cons c s :
  dot_stuff (String c s)
  = if bool_decide (c = "."%char) then String "." (String c s) else String c s.
Proof. unfold dot_stuff. by rewrite startswith_cons, startswith_nil, andb_true_r. Qed.

Lemma transparency_dot_stuff line : transparency (dot_stuff line) = line.
Proof.
  destruct line as [|c line]; [done|]. rewrite dot_stuff_cons.
  unfold transparency. case_bool_decide as Hc.
  - subst c. rewrite !startswith_cons, startswith_nil.
    by rewrite !bool_decide_eq_true_2.
  - rewrite startswith_cons. by rewrite bool_decide_eq_false_2.
Qed.

Lemma dot_stuff_transparency line :
  on_wire line = true → dot_stuff (transparency line) = line.
Proof.
  unfold on_wire, transparency.
  destruct line as [|c line]; [done|].
  destruct line as [|c' line].
  - rewrite !startswith_cons, startswith_nil. cbn [Py.startswith String.prefix].
    rewrite andb_true_r, andb_false_r, orb_false_r. intros Hc%negb_true_iff.
    by rewrite dot_stuff_cons, Hc.
  - rewrite !startswith_cons, !startswith_nil, !andb_true_r.
    destruct (bool_decide (c = "."%char)) eqn:Hc; cbn [negb orb andb].
    + intros Hc'. rewrite Hc'. cbn [Py.tail]. rewrite dot_stuff_cons, Hc'.
      by apply bool_decide_eq_true in Hc as ->.
    + intros _. by rewrite dot_stuff_cons, Hc.
Qed.

(** The lines that can appear in a transfer are the stuffed ones. *)
Lemma on_wire_dot_stuff line : on_wire (dot_stuff line) = true.
Proof.
  destruct line as [|c line]; [done|]. rewrite dot_stuff_cons. unfold on_wire.
  case_bool_decide as Hc.
  - subst c. rewrite !startswith_cons, !startswith_nil. reflexivity.
  - rewrite startswith_cons. by rewrite bool_decide_eq_false_2.
Qed.

Lemma on_wire_iff line : on_wire line = true ↔ ∃ line0, line = dot_stuff line0.
Proof.
  split.
  - intros H. exists (transparency line). by rewrite dot_stuff_transparency.
  - intros [line0 ->]. apply on_wire_dot_stuff.
Qed.

(** C3.  Un-stuffing after stuffing gives every list of lines back, and
    stuffing after un-stuffing gives back every list of lines that can
    appear in a transfer. *)
Theorem dot_stuffing_inverse (lines : list string) :
  transparency <$> (dot_stuff <$> lines) = lines
  ∧ (Forall (λ line, on_wire line = true) lines →
     dot_stuff <$> (transparency <$> lines) = lines).
Proof.
  split.
  - rewrite <- list_fmap_compose. rewrite <- (list_fmap_id lines) at 2.
    apply list_fmap_ext. intros _ line _. apply transparency_dot_stuff.
  - intros H. rewrite <- list_fmap_compose. rewrite <- (list_fmap_id lines) at 2.
    apply Forall_fmap_ext_1. eapply Forall_impl; [exact H|].
    intros line Hl. by apply dot_stuff_transparency.
Qed.

Lemma dot_stuffing_inverse_witness :
  transparency <$> (dot_stuff <$> ["Subject: hi"; "."; ".hidden"; "..two"; ""])
    = ["Subject: hi"; "."; ".hidden"; "..two"; ""]
  ∧ dot_stuff <$> (transparency <$> ["Subject: hi"; ".."; "..hidden"; "...two"; ""])
    = ["Subject: hi"; ".."; "..hidden"; "...two"; ""].
Proof.
  split.
  - apply (dot_stuffing_inverse ["Subject: hi"; "."; ".hidden"; "..two"; ""]).
  - apply (dot_stuffing_inverse ["Subject: hi"; ".."; "..hidden"; "...two"; ""]).
    repeat constructor.
Defined.

(** Off the wire the second half fails: a line with a single leading
    dot is left alone by the receiver and stuffed by the sender. *)
Example single_dot_not_on_wire :
  on_wire ".hidden" = false ∧ dot_stuff (transparency ".hidden") = "..hidden".
Proof. split; reflexivity. Qed.


(** ** File names of deliveries *)


Lemma endswith_filename stamp uid : Py.endswith (filename stamp uid) ".eml" = true.
Proof.
  unfold filename.
  by rewrite <- !app_assoc_string, endswith_app.
Qed.

(** ** Reading a delivered file back *)







(** ** A stuffed transfer read by the DATA loop *)

Lemma rstrip_plain line :
  plain line = true → Py.rstrip_crlf (Py.wire_line line) = line.
Proof.
  unfold plain, Py.wire_line. induction line as [|c line IH]; [done|].
  cbn [list_ascii_of_string forallb]. intros [[_ Hc]%andb_prop Hl]%andb_prop.
  change (String c line +:+ Py.CRLF) with (String c (line +:+ Py.CRLF)).
  cbn [Py.rstrip_crlf]. rewrite (IH Hl).
  destruct line; [|done]. apply negb_true_iff in Hc. by rewrite Hc.
Qed.

Lemma ascii_wire_line line :
  plain line = true →
  forallb Py.is_ascii (list_ascii_of_string (Py.wire_line line)) = true.
Proof.
  unfold plain, Py.wire_line. induction line as [|c line IH]; [done|].
  cbn [list_ascii_of_string forallb]. intros [[Hc _]%andb_prop Hl]%andb_prop.
  change (String c line +:+ Py.CRLF) with (String c (line +:+ Py.CRLF)).
  cbn [list_ascii_of_string forallb]. by rewrite Hc, (IH Hl).
Qed.

Lemma plain_dot_stuff line : plain line = true → plain (dot_stuff line) = true.
Proof.
  destruct line as [|c line]; [done|]. rewrite dot_stuff_cons.
  case_bool_decide as Hc; [|done]. intros Hp. unfold plain in *.
  cbn [list_ascii_of_string forallb] in *. by rewrite Hp.
Qed.

Lemma dot_stuff_not_dot line : dot_stuff line ≠ ".".
Proof.
  destruct line as [|c line]; [done|]. rewrite dot_stuff_cons.
  case_bool_decide as Hc; [done|]. intros [= -> _]. done.
Qed.

Lemma wire_line_not_empty line : Py.wire_line line ≠ "".
Proof. by destruct line. Qed.

Lemma body_line_stuffed line :
  plain line = true → body_line (Py.wire_line (dot_stuff line)) = true.
Proof.
  intros Hp. unfold body_line.
  rewrite (bool_decide_eq_false_2 _ (wire_line_not_empty _)).
  rewrite ascii_wire_line by by apply plain_dot_stuff.
  rewrite rstrip_plain by by apply plain_dot_stuff.
  by rewrite (bool_decide_eq_false_2 _ (dot_stuff_not_dot _)).
Qed.

(** What POP3 sends for the lines of a message, read by the DATA loop
    of SMTP, is those lines again, and the loop stops at the lone dot. *)
Lemma transfer_read_back lines rest :
  Forall (λ line, plain line = true) lines →
  read_data []
    ((Ok <$> (Py.wire_line ∘ dot_stuff <$> lines)) ++ Ok (Py.wire_line ".") :: rest)
  = Ok (lines, rest).
Proof.
  intros Hp. rewrite SmtpFacts.read_data_body.
  - rewrite SmtpFacts.read_data_step_end by done. f_equal. f_equal. cbn [app].
    rewrite <- list_fmap_compose. rewrite <- (list_fmap_id lines) at 2.
    apply Forall_fmap_ext_1. eapply Forall_impl; [exact Hp|].
    intros line Hl. cbn. unfold unstuffed.
    rewrite rstrip_plain by by apply plain_dot_stuff.
    apply transparency_dot_stuff.
  - apply Forall_fmap. eapply Forall_impl; [exact Hp|].
    intros line Hl. by apply body_line_stuffed.
Qed.

End MailFacts.

(** * More about the SMTP receiver: the other commands and the session *)

Module SmtpMore.
Import Smtp PyFacts.

Lemma startswith_app_l s t p :
  Py.startswith s p = true → Py.startswith (s +:+ t) p = true.
Proof.
  revert s. induction p as [|d p IH]; intros s; [by rewrite !startswith_nil|].
  destruct s as [|c s]; [done|]. rewrite app_cons, !startswith_cons.
  intros [-> Hp]%andb_prop. by rewrite (IH _ Hp).
Qed.

Lemma span_all p a :
  forallb p (list_ascii_of_string a) = true → Py.span p a = (a, "").
Proof.
  induction a as [|c a IH]; [done|]. cbn [list_ascii_of_string forallb].
  intros [Hc Ha]%andb_prop. cbn [Py.span]. by rewrite Hc, (IH Ha).
Qed.

Lemma lstrip_blank ws : blank ws = true → Py.lstrip ws = "".
Proof.
  unfold blank. induction ws as [|c ws IH]; [done|].
  cbn [list_ascii_of_string forallb]. intros [Hc Hws]%andb_prop.
  cbn [Py.lstrip]. by rewrite Hc, (IH Hws).
Qed.

Lemma span_word w r :
  word w = true → blank r = true →
  ∃ r', Py.span (λ c, negb (Py.isspace c)) (w +:+ r) = (w, r') ∧ Py.lstrip r' = "".
Proof.
  intros Hw Hr. destruct r as [|d r].
  - exists "". split; [|done].
    replace (w +:+ "") with w; [by apply span_all|].
    clear Hw. induction w as [|c w IH]; [done|]. by rewrite app_cons, <- IH.
  - exists (String d r). split; [|by apply lstrip_blank].
    apply span_app; [done|]. unfold blank in Hr.
    cbn [list_ascii_of_string forallb] in Hr. apply andb_prop in Hr as [-> _]. done.
Qed.

Lemma split_max1_word w t :
  Py.startswith (Py.upper w) "HELO" = true → word w = true →
  Py.split_max1 (w +:+ t) =
    let '(w1, r) := Py.span (λ c, negb (Py.isspace c)) (w +:+ t) in
    match Py.lstrip r with
    | EmptyString => [w1]
    | r' => [w1; r']
    end.
Proof.
  intros Hs Hw. destruct w as [|c w]; [done|].
  unfold word in Hw. cbn [list_ascii_of_string forallb] in Hw.
  apply andb_prop in Hw as [Hc%negb_true_iff _].
  rewrite app_cons. unfold Py.split_max1. cbn [Py.lstrip]. by rewrite Hc.
Qed.

Lemma lstrip_fixed a arg : Py.lstrip (String a arg) = String a arg → Py.isspace a = false.
Proof.
  cbn [Py.lstrip]. destruct (Py.isspace a) eqn:E; [|done]. intros Harg.
  assert (String.length (Py.lstrip arg) ≤ String.length arg)%nat as Hl.
  { clear. induction arg as [|x arg IH]; [done|]. cbn [Py.lstrip].
    destruct (Py.isspace x); cbn [String.length]; lia. }
  rewrite Harg in Hl. cbn [String.length] in Hl. lia.
Qed.

Section Commands.
Variable hostname : string.

Lemma rcpt_to_not_others message :
  Py.startswith (Py.upper message) "RCPT TO:" = true →
  Py.startswith (Py.upper message) "HELO" = false
  ∧ Py.startswith (Py.upper message) "MAIL FROM:" = false.
Proof.
  intros H. apply SmtpFacts.startswith_cons_inv in H as (s' & -> & _). done.
Qed.

(** X1.  A line that starts with RCPT TO: gets 503 and changes nothing
    when no sender is recorded; with a sender, it gets 501 and changes
    nothing when the bracketed address is not matched, and otherwise 250
    and the address is added at the end of the recipients, whether or
    not it is there already. *)
Theorem rcpt_to_contract st message input :
  Py.startswith (Py.upper message) "RCPT TO:" = true →
  (Py.truthy (mail_from st) = false →
     command hostname st message input =
       ([Send "503 Bad sequence of commands"], Ok (st, input, Next)))
  ∧ (Py.truthy (mail_from st) = true →
     Py.match_path "RCPT TO:" message = None →
     command hostname st message input =
       ([Send "501 Syntax error in parameters or arguments"],
        Ok (st, input, Next)))
  ∧ (Py.truthy (mail_from st) = true →
     ∀ addr, Py.match_path "RCPT TO:" message = Some addr →
     command hostname st message input =
       ([Send "250 OK"],
        Ok ({| helo := helo st; mail_from := mail_from st;
               rcpt_to := rcpt_to st ++ [addr]; data := data st |},
            input, Next))).
Proof.
  intros H. destruct (rcpt_to_not_others _ H) as [H1 H2].
  unfold command. rewrite H1, H2, H. split; [|split].
  - by intros ->.
  - by intros -> ->.
  - by intros -> addr ->.
Qed.

(** X2.  HELO followed by whitespace and an argument records the
    argument, up to the end of the line, as the HELO name and greets it;
    sender, recipients and body stay as they are, so a HELO in the
    middle of a transaction does not reset it.  The first word only has
    to start with HELO, in any case. *)
Theorem helo_records_name st w ws arg input :
  Py.startswith (Py.upper w) "HELO" = true →
  word w = true →
  blank ws = true → ws ≠ "" →
  Py.lstrip arg = arg → arg ≠ "" →
  command hostname st (w +:+ ws +:+ arg) input =
    ([Send ("250 " +:+ hostname +:+ " greets " +:+ arg)],
     Ok ({| helo := Some arg; mail_from := mail_from st;
            rcpt_to := rcpt_to st; data := data st |}, input, Next)).
Proof.
  intros Hs Hw Hws Hne Harg Hane.
  unfold command. rewrite upper_app, (startswith_app_l _ _ _ Hs).
  assert (Py.split_max1 (w +:+ ws +:+ arg) = [w; arg]) as ->; [|done].
  rewrite split_max1_word by done.
  destruct ws as [|d ws]; [done|].
  unfold blank in Hws. cbn [list_ascii_of_string forallb] in Hws.
  apply andb_prop in Hws as [Hd Hws].
  rewrite app_cons, (span_app _ w d (ws +:+ arg)); [|done|by rewrite Hd].
  destruct arg as [|a arg]; [done|].
  rewrite <- app_cons, (lstrip_app (String d ws) a arg); [done| |].
  - cbn [list_ascii_of_string forallb]. by rewrite Hd, Hws.
  - by apply (lstrip_fixed a arg).
Qed.

(** X3.  HELO with no argument (only whitespace after the word, if
    anything) greets None and records no HELO name, also when one was
    recorded before; every MAIL FROM: line that follows gets 503. *)
Theorem bare_helo_forgets st w ws input :
  Py.startswith (Py.upper w) "HELO" = true →
  word w = true →
  blank ws = true →
  let st' := {| helo := None; mail_from := mail_from st;
                rcpt_to := rcpt_to st; data := data st |} in
  command hostname st (w +:+ ws) input =
    ([Send ("250 " +:+ hostname +:+ " greets None")], Ok (st', input, Next))
  ∧ ∀ message input',
      Py.startswith (Py.upper message) "MAIL FROM:" = true →
      command hostname st' message input' =
        ([Send "503 Bad sequence of commands"], Ok (st', input', Next)).
Proof.
  intros Hs Hw Hws st'. split.
  - unfold command. rewrite upper_app, (startswith_app_l _ _ _ Hs).
    assert (Py.split_max1 (w +:+ ws) = [w]) as ->; [|done].
    rewrite split_max1_word by done.
    by destruct (span_word w ws Hw Hws) as (r' & -> & ->).
  - intros message input' Hm.
    by rewrite SmtpFacts.command_MAIL_FROM.
Qed.

End Commands.

Lemma rcpt_to_contract_witness :
  let st := {| helo := Some "client.test"; mail_from := Some "alice@example.com";
               rcpt_to := ["bob@example.com"]; data := None |} in
  command "mx" (baseline (Some "client.test")) "RCPT TO:<bob@example.com>" [] =
    ([Send "503 Bad sequence of commands"],
     Ok (baseline (Some "client.test"), [], Next))
  ∧ command "mx" st "RCPT TO:bob@example.com" [] =
    ([Send "501 Syntax error in parameters or arguments"], Ok (st, [], Next))
  ∧ command "mx" st "rcpt to: <bob@example.com>" [] =
    ([Send "250 OK"],
     Ok ({| helo := Some "client.test"; mail_from := Some "alice@example.com";
            rcpt_to := ["bob@example.com"; "bob@example.com"]; data := None |},
         [], Next)).
Proof.
  intros st. split; [|split].
  - apply (rcpt_to_contract "mx" (baseline (Some "client.test"))
             "RCPT TO:<bob@example.com>" []); reflexivity.
  - apply (rcpt_to_contract "mx" st "RCPT TO:bob@example.com" []); reflexivity.
  - apply (rcpt_to_contract "mx" st "rcpt to: <bob@example.com>" []); reflexivity.
Defined.

Lemma helo_records_name_witness :
  let st := {| helo := Some "old.test"; mail_from := Some "alice@example.com";
               rcpt_to := ["bob@example.com"]; data := None |} in
  command "mx" st "helo  client.test " [] =
    ([Send "250 mx greets client.test "],
     Ok ({| helo := Some "client.test "; mail_from := Some "alice@example.com";
            rcpt_to := ["bob@example.com"]; data := None |}, [], Next)).
Proof.
  intros st.
  apply (helo_records_name "mx" st "helo" "  " "client.test " []);
    [reflexivity|reflexivity|reflexivity|discriminate|reflexivity|discriminate].
Defined.

Lemma bare_helo_forgets_witness :
  let st := {| helo := Some "client.test"; mail_from := None;
               rcpt_to := []; data := None |} in
  command "mx" st "HELO " [] =
    ([Send "250 mx greets None"], Ok (baseline None, [], Next))
  ∧ command "mx" (baseline None) "MAIL FROM:<alice@example.com>" [] =
    ([Send "503 Bad sequence of commands"], Ok (baseline None, [], Next)).
Proof.
  intros st.
  destruct (bare_helo_forgets "mx" st "HELO" " " []) as [H1 H2];
    [reflexivity|reflexivity|reflexivity|].
  split; [exact H1|].
  apply (H2 "MAIL FROM:<alice@example.com>" []). reflexivity.
Defined.

Section Session.
Variable hostname : string.

(** ** What a session saves *)

Lemma match_path_truthy keyword message addr :
  Py.match_path keyword message = Some addr → Py.truthy (Some addr) = true.
Proof.
  intros (kw & ws & rest & _ & _ & _ & Hne & _)%match_path_iff.
  by destruct addr.
Qed.

Lemma command_addressed st message input effs r :
  consistent st →
  command hostname st message input = (effs, r) →
  Forall addressed effs
  ∧ ∀ st' rest fl, r = Ok (st', rest, fl) → consistent st'.
Proof.
  intros Hc. unfold command, consistent in *.
  repeat case_match; intros [= <- <-];
    (split; [repeat constructor|intros st' rest fl [= <- _ _]; cbn; try done]).
  all: try (intros _; by eapply match_path_truthy).
  all: try (intros _; by destruct (Py.truthy (mail_from st))).
  all: try (apply Hc; congruence).
  all: try congruence.
Qed.

Lemma loop_addressed fuel st input effs r :
  consistent st →
  loop hostname fuel st input = Some (effs, r) → Forall addressed effs.
Proof.
  revert st input effs r. induction fuel as [|fuel IH]; intros st input effs r Hc;
    [done|].
  cbn [loop]. destruct input as [|raw input]; [by intros [= <- _]|].
  destruct raw as [raw|e]; [|by intros [= <- _]].
  destruct raw as [|c raw]; [by intros [= <- _]|].
  destruct (Py.decode_ascii _) as [text|e]; [|by intros [= <- _]].
  destruct (command hostname st (Py.rstrip_crlf text) input) as [effs1 r1] eqn:E.
  destruct (command_addressed _ _ _ _ _ Hc E) as [Ha Hst].
  destruct r1 as [[[st' rest] [|]]|e]; try by intros [= <- _].
  destruct (loop hostname fuel st' rest) as [[effs2 r2]|] eqn:E2; [|done].
  cbn. intros [= <- _]. apply Forall_app. split; [done|].
  eapply IH; [|exact E2]. by eapply Hst.
Qed.

(** X4.  Whatever the peer sends, every message a session saves has a
    sender that is not empty and at least one recipient: [save_email] is
    never reached without a MAIL FROM and a RCPT TO accepted before. *)
Theorem saved_mail_is_addressed input effs r :
  handle_client hostname input = Some (effs, r) → Forall addressed effs.
Proof.
  unfold handle_client.
  destruct (loop hostname (S (length input)) initial input) as [[effs1 r1]|] eqn:E;
    [|done].
  cbn. intros [= <- _]. constructor; [done|]. apply Forall_app. split.
  - eapply loop_addressed; [|exact E]. by intros Hr.
  - destruct r1; by repeat constructor.
Qed.


(** ** How a session ends *)

Lemma aborted_by_cons r input e : aborted_by input e → aborted_by (r :: input) e.
Proof.
  intros [H|(raw & H & Ha & Hd)]; [left; by right|].
  right. exists raw. split; [by right|done].
Qed.

Lemma aborted_by_app used input e : aborted_by input e → aborted_by (used ++ input) e.
Proof. induction used as [|r used IH]; [done|]. intros H. by apply aborted_by_cons, IH. Qed.

Lemma aborted_by_decode raw input e :
  Py.decode_ascii raw = Raise e → aborted_by (Ok raw :: input) e.
Proof.
  intros H. right. exists raw. split; [by left|]. split; [|done].
  by apply PyFacts.decode_ascii_Raise_inv in H as [H _].
Qed.

Lemma read_data_raise acc input e :
  read_data acc input = Raise e → aborted_by input e.
Proof.
  revert acc. induction input as [|raw input IH]; intros acc; cbn [read_data]; [done|].
  destruct raw as [raw|e']; [|intros [= ->]; left; by left].
  destruct raw as [|c raw]; [done|].
  destruct (Py.decode_ascii (String c raw)) as [text|e'] eqn:E; cbn [res_bind].
  - case_bool_decide; [done|]. intros Hr%IH. by apply aborted_by_cons.
  - intros [= ->]. by apply aborted_by_decode.
Qed.

Lemma command_raise st message input effs e :
  command hostname st message input = (effs, Raise e) →
  aborted_by input e ∧ Close ∉ effs.
Proof.
  unfold command. repeat case_match; try done.
  intros [= <- <-].
  match goal with H : read_data _ _ = Raise _ |- _ =>
    apply read_data_raise in H end.
  split; [done|].
  intros [=]%list_elem_of_singleton.
Qed.

Lemma command_no_close st message input effs r :
  command hostname st message input = (effs, r) → Close ∉ effs.
Proof.
  unfold command. repeat case_match; intros [= <- _];
    rewrite ?elem_of_cons, ?elem_of_nil; intros H';
    repeat (destruct H' as [H'|H']; [discriminate|]); done.
Qed.

Lemma command_rest st message input effs st' rest fl :
  command hostname st message input = (effs, Ok (st', rest, fl)) →
  ∃ used, input = used ++ rest.
Proof.
  assert (∀ acc input lines rest,
            read_data acc input = Ok (lines, rest) → ∃ used, input = used ++ rest) as Hrd.
  { clear. intros acc input. revert acc.
    induction input as [|raw input IH]; intros acc lines rest; cbn [read_data].
    - intros [= _ <-]. by exists [].
    - destruct raw as [raw|e]; [|done].
      destruct raw as [|c raw]; [intros [= _ <-]; by exists [Ok ""]|].
      destruct (Py.decode_ascii _) as [text|e]; cbn [res_bind]; [|done].
      case_bool_decide.
      + intros [= _ <-]. by exists [Ok (String c raw)].
      + intros [used ->]%IH. by exists (Ok (String c raw) :: used). }
  unfold command. repeat case_match; try done;
    intros [= _ _ Hr _]; subst; try by exists [].
  by eapply Hrd.
Qed.

Lemma loop_raise fuel st input effs e :
  loop hostname fuel st input = Some (effs, Raise e) → aborted_by input e.
Proof.
  revert st input effs. induction fuel as [|fuel IH]; intros st input effs; [done|].
  cbn [loop]. destruct input as [|raw input]; [done|].
  destruct raw as [raw|e']; [|intros [= _ ->]; left; by left].
  destruct raw as [|c raw]; [done|].
  destruct (Py.decode_ascii _) as [text|e'] eqn:Ed.
  - destruct (command hostname st (Py.rstrip_crlf text) input) as [effs1 r1] eqn:E.
    destruct r1 as [[[st' rest] [|]]|e'].
    + destruct (loop hostname fuel st' rest) as [[effs2 r2]|] eqn:E2; [|done].
      cbn. intros [= _ ->]. apply IH in E2.
      apply command_rest in E as [used ->].
      by apply aborted_by_cons, aborted_by_app.
    + done.
    + intros [= _ ->]. apply command_raise in E as [Hex _].
      by apply aborted_by_cons.
  - intros [= _ ->]. by apply aborted_by_decode.
Qed.

Lemma loop_no_close fuel st input effs r :
  loop hostname fuel st input = Some (effs, r) → Close ∉ effs.
Proof.
  revert st input effs r. induction fuel as [|fuel IH]; intros st input effs r; [done|].
  cbn [loop]. destruct input as [|raw input]; [intros [= <- _]; apply not_elem_of_nil|].
  destruct raw as [raw|e']; [|intros [= <- _]; apply not_elem_of_nil].
  destruct raw as [|c raw]; [intros [= <- _]; apply not_elem_of_nil|].
  destruct (Py.decode_ascii _) as [text|e'];
    [|intros [= <- _]; apply not_elem_of_nil].
  destruct (command hostname st (Py.rstrip_crlf text) input) as [effs1 r1] eqn:E.
  apply command_no_close in E.
  destruct r1 as [[[st' rest] [|]]|e']; try by intros [= <- _].
  destruct (loop hostname fuel st' rest) as [[effs2 r2]|] eqn:E2; [|done].
  cbn. intros [= <- _]. apply IH in E2. rewrite elem_of_app. tauto.
Qed.

(** X5.  With a host name that [encode("ascii")] accepts, and when
    writing to the peer and to the mailbox succeeds, an exception leaves
    [handle_client] in two cases only:
    a [readline()] call raised it (the [ValueError] of a line over the
    stream's limit), or [decode("ascii")] raised it on a line with a
    byte above 127, and then it is the [UnicodeDecodeError] that names
    the first such byte of the line and its position.  In both cases the handler ends without having closed the
    writer. *)
Theorem readline_or_decoding_aborts input effs e :
  ascii_line hostname = true →
  handle_client hostname input = Some (effs, Raise e) →
  (Raise e ∈ input
   ∨ ∃ raw (pos : Z) c,
       Ok raw ∈ input
       ∧ ascii_line raw = false
       ∧ Py.first_non_ascii 0 raw = Some (pos, c)
       ∧ Py.is_ascii c = false
       ∧ e = UnicodeDecodeError
               ("'ascii' codec can't decode byte 0x" +:+ Py.hex2 c +:+ " in position "
                +:+ pretty pos +:+ ": ordinal not in range(128)"))
  ∧ Close ∉ effs.
Proof.
  intros _. unfold handle_client.
  destruct (loop hostname (S (length input)) initial input) as [[effs1 r1]|] eqn:E;
    [|done].
  cbn. intros [= <- ->]. pose proof (loop_no_close _ _ _ _ _ E) as Hnc.
  apply loop_raise in E. split.
  - destruct E as [H|(raw & Hin & Ha & Hd)]; [by left|]. right.
    apply PyFacts.decode_ascii_Raise_inv in Hd as (_ & pos & c & Hf & Hc & ->).
    by exists raw, pos, c.
  - rewrite app_nil_r. intros [[=]|H']%elem_of_cons. done.
Qed.

(** X6.  With a host name that [encode("ascii")] accepts, and when
    writing to the peer and to the mailbox succeeds: when every
    [readline()] call returns and every line it
    returns is ASCII, [handle_client] returns normally, whatever the
    lines are: after the greeting come the effects of the commands, and
    the writer is closed once, as the last thing the handler does. *)
Theorem ascii_session_closes input :
  ascii_line hostname = true →
  Forall (returned (λ raw, ascii_line raw = true)) input →
  ∃ effs st,
    handle_client hostname input =
      Some (Send ("220 " +:+ hostname +:+ " SMTP Server ready") :: effs ++ [Close],
            Ok st)
    ∧ Close ∉ effs.
Proof.
  intros _ Ha. unfold handle_client.
  destruct (SmtpFacts.loop_enough_fuel hostname (S (length input)) initial input)
    as [[effs r] E]; [lia|].
  rewrite E. cbn. destruct r as [st|e].
  - exists effs, st. split; [done|]. by eapply loop_no_close.
  - rewrite Forall_forall in Ha.
    apply loop_raise in E as [Hin|(raw & Hin & Hraw & _)].
    + by destruct (Ha _ Hin).
    + specialize (Ha _ Hin). cbn in Ha. congruence.
Qed.

Lemma command_bye st message input effs r :
  command hostname st message input = (effs, r) →
  match r with
  | Ok (_, _, Break) => effs = [Send "221 Bye"]
  | _ => Send "221 Bye" ∉ effs
  end.
Proof.
  unfold command. repeat case_match; intros [= <- <-]; try done;
    rewrite ?elem_of_cons, ?elem_of_nil; intros H';
    repeat (destruct H' as [H'|H']; [discriminate|]); done.
Qed.

Lemma loop_bye fuel st input effs r :
  loop hostname fuel st input = Some (effs, r) →
  Send "221 Bye" ∈ effs →
  ∃ body st', effs = body ++ [Send "221 Bye"] ∧ (Send "221 Bye" ∉ body) ∧ r = Ok st'.
Proof.
  revert st input effs r. induction fuel as [|fuel IH]; intros st input effs r; [done|].
  cbn [loop]. destruct input as [|raw input]; [by intros [= <- _] ?%elem_of_nil|].
  destruct raw as [raw|e']; [|by intros [= <- _] ?%elem_of_nil].
  destruct raw as [|c raw]; [by intros [= <- _] ?%elem_of_nil|].
  destruct (Py.decode_ascii _) as [text|e']; [|by intros [= <- _] ?%elem_of_nil].
  destruct (command hostname st (Py.rstrip_crlf text) input) as [effs1 r1] eqn:E.
  apply command_bye in E.
  destruct r1 as [[[st' rest] [|]]|e'].
  - destruct (loop hostname fuel st' rest) as [[effs2 r2]|] eqn:E2; [|done].
    cbn. intros [= <- <-] [Hin|Hin]%elem_of_app; [done|].
    destruct (IH _ _ _ _ E2 Hin) as (body & st2 & -> & Hb & ->).
    exists (effs1 ++ body), st2. split; [by rewrite app_assoc|]. split; [|done].
    rewrite elem_of_app. tauto.
  - intros [= <- <-] _. exists [], st'. split; [by rewrite E|]. split; [|done].
    apply not_elem_of_nil.
  - by intros [= <- _] Hin.
Qed.

(** X7.  When a session answers 221 Bye, it does so once, nothing the
    peer sent after the QUIT is acted upon, and closing the writer is
    all that follows: the trace ends with 221 Bye, Close. *)
Theorem bye_is_last input effs r :
  handle_client hostname input = Some (effs, r) →
  Send "221 Bye" ∈ effs →
  ∃ body st,
    effs = body ++ [Send "221 Bye"; Close]
    ∧ (Send "221 Bye" ∉ body)
    ∧ r = Ok st.
Proof.
  unfold handle_client.
  destruct (loop hostname (S (length input)) initial input) as [[effs1 r1]|] eqn:E;
    [|done].
  cbn. intros [= <- <-] [[=]|Hin]%elem_of_cons.
  assert (Send "221 Bye" ∈ effs1) as Hin1.
  { apply elem_of_app in Hin as [Hin|Hin]; [done|].
    destruct r1; [apply list_elem_of_singleton in Hin|apply elem_of_nil in Hin]; done. }
  destruct (loop_bye _ _ _ _ _ E Hin1) as (body & st & -> & Hb & ->).
  exists (Send ("220 " +:+ hostname +:+ " SMTP Server ready") :: body), st.
  split; [by rewrite <- app_assoc|]. split; [|done].
  intros [[=]|H']%elem_of_cons. done.
Qed.

End Session.


Lemma saved_mail_is_addressed_witness :
  Forall addressed
    [Send "220 mx SMTP Server ready"; Send "250 mx greets client.test";
     Send "503 Bad sequence of commands"; Send "250 OK"; Send "250 OK";
     Send "354 End data with <CRLF>.<CRLF>";
     SaveEmail (Some "alice@example.com") ["bob@example.com"] "Hello,";
     Send "250 OK: Message accepted for delivery"; Send "221 Bye"; Close].
Proof.
  apply (saved_mail_is_addressed "mx"
           (Ok ∘ Py.wire_line <$>
              ["HELO client.test"; "DATA"; "MAIL FROM:<alice@example.com>";
               "RCPT TO:<bob@example.com>"; "DATA"; "Hello,"; "."; "QUIT"])
           _ (Ok {| helo := Some "client.test"; mail_from := Some "alice@example.com";
                    rcpt_to := ["bob@example.com"]; data := Some "Hello," |})).
  vm_compute. reflexivity.
Defined.

Lemma readline_or_decoding_aborts_witness :
  let input := [Ok (Py.wire_line "HELO client.test");
                Ok (String "233"%char (Py.wire_line "HLO"))] in
  let effs := [Send "220 mx SMTP Server ready"; Send "250 mx greets client.test"] in
  handle_client "mx" input
  = Some (effs,
          Raise (UnicodeDecodeError
                   "'ascii' codec can't decode byte 0xe9 in position 0: ordinal not in range(128)"))
  ∧ Close ∉ effs.
Proof.
  intros input effs.
  assert (handle_client "mx" input
          = Some (effs,
                  Raise (UnicodeDecodeError
                           "'ascii' codec can't decode byte 0xe9 in position 0: ordinal not in range(128)")))
    as H by (vm_compute; reflexivity).
  split; [exact H|].
  exact (proj2 (readline_or_decoding_aborts "mx" input effs _ eq_refl H)).
Defined.

Lemma ascii_session_closes_witness :
  ∃ effs st,
    handle_client "mx" (Ok ∘ Py.wire_line <$> ["HELO client.test"; "NOOP"]) =
      Some (Send ("220 " +:+ "mx" +:+ " SMTP Server ready") :: effs ++ [Close], Ok st)
    ∧ Close ∉ effs.
Proof.
  apply (ascii_session_closes "mx" (Ok ∘ Py.wire_line <$> ["HELO client.test"; "NOOP"])).
  - reflexivity.
  - repeat constructor.
Defined.

Lemma bye_is_last_witness :
  ∃ body st,
    [Send "220 mx SMTP Server ready"; Send "250 mx greets client.test";
     Send "221 Bye"; Close] = body ++ [Send "221 Bye"; Close]
    ∧ (Send "221 Bye" ∉ body)
    ∧ Ok (baseline (Some "client.test")) = Ok st.
Proof.
  apply (bye_is_last "mx"
           (Ok ∘ Py.wire_line <$> ["HELO client.test"; "quit"; "MAIL FROM:<a@b>"])).
  - vm_compute. reflexivity.
  - vm_compute. do 2 right. left.
Defined.

End SmtpMore.

(** * More about the POP3 server: the Maildrop and the session *)

Module Pop3More.
Import Pop3 PyFacts Pop3Facts.

(** ** Sums, and what LIST and STAT compute *)

Lemma sum_Permutation (l1 l2 : list Z) : l1 ≡ₚ l2 → sum l1 = sum l2.
Proof.
  unfold sum. induction 1 as [|x l1 l2 _ IH|x y l|l1 l2 l3 _ IH1 _ IH2]; cbn; lia.
Qed.

Lemma for_each_index_all {A} (l : list A) :
  for_each (λ i, Py.index l i) (Z.of_nat <$> seq 0 (length l)) = Ok l.
Proof.
  assert (∀ k (l0 : list A), (k + length l0 = length l)%nat →
            drop k l = l0 →
            for_each (λ i, Py.index l i) (Z.of_nat <$> seq k (length l0)) = Ok l0)
    as H.
  { intros k l0. revert k. induction l0 as [|a l0 IH]; intros k Hk Hd; [done|].
    cbn [length seq fmap list_fmap for_each].
    assert (l !! k = Some a) as Hl.
    { rewrite <- (Nat.add_0_r k), <- lookup_drop, Hd. done. }
    rewrite (Pop3Facts.index_lookup _ _ _ Hl). cbn [res_bind].
    rewrite (IH (S k)); [done|cbn in Hk; lia|].
    rewrite (drop_S _ _ _ Hl) in Hd. by injection Hd. }
  by apply (H 0%nat l).
Qed.

Lemma snapshot_stat sha1_hex root :
  count_and_octets (snapshot sha1_hex root)
  = Ok (Z.of_nat (length (glob_eml root)), sum (sizes (snapshot sha1_hex root))).
Proof.
  unfold count_and_octets, indices, deleted_get. cbn [snapshot messages sizes deleted].
  set (szs := (λ p, from_option st_size 0 (root !! p)) <$> glob_eml root).
  assert (∀ l : list Z, filter (λ i, negb (default false ((∅ : gmap Z bool) !! (i + 1)))) l = l)
    as Hf.
  { intros l. induction l as [|i l IH]; [done|].
    rewrite filter_cons_True by by rewrite lookup_empty. by rewrite IH. }
  rewrite (Pop3Facts.count_is_length (λ j, default false ((∅ : gmap Z bool) !! j))).
  rewrite !Hf, length_fmap, length_seq.
  assert (length (glob_eml root) = length szs) as ->
    by by unfold szs; rewrite length_fmap.
  by rewrite for_each_index_all.
Qed.

Lemma write_lines_eq l w :
  write_lines l w
  = (Ok tt, {| self := self w; root := root w;
               wire := wire w ++ (Py.wire_line <$> l); closed := closed w |}).
Proof.
  revert w. induction l as [|s l IH]; intros w.
  - cbn [write_lines fmap list_fmap]. rewrite app_nil_r. by destruct w.
  - cbn [write_lines fmap list_fmap]. unfold bind, _write_line, write.
    rewrite IH. cbn [self root wire closed]. by rewrite <- app_assoc.
Qed.

(** ** What [refresh] enumerates *)

Section MaildropMore.
Variable sha1_hex : string → string.


(** ** Message numbers *)

(** X9.  LIST n, RETR n and DELE n accept the same numbers, those
    LIST shows: on a Maildrop with one size per message whose files are
    all there, each of the three returns for [idx] exactly when LIST has
    an entry numbered [idx], and LIST n returns that entry. *)
Theorem numbers_accepted root m l idx :
  length (sizes m) = length (messages m) →
  (∀ p, p ∈ messages m → is_Some (root !! p)) →
  list_all m = Ok l →
  (∀ e, list_one m idx = Ok e ↔ e ∈ l ∧ e.1 = idx)
  ∧ ((∃ p, retr root m idx = Ok p) ↔ idx ∈ l.*1)
  ∧ ((∃ m', dele m idx = Ok m') ↔ idx ∈ l.*1).
Proof.
  intros Hlen Hfiles Hl.
  assert (idx ∈ l.*1 ↔ 1 ≤ idx ≤ Z.of_nat (length (messages m))
                        ∧ deleted_get m idx = false) as Hin.
  { rewrite list_elem_of_fmap. split.
    - intros (e & -> & He). apply (elem_of_list_all m l e Hlen Hl) in He. tauto.
    - intros [Hr Hd]. exists (idx, size_at m (idx - 1)). split; [done|].
      by apply (elem_of_list_all m l _ Hlen Hl). }
  split; [|split].
  - intros e. rewrite (elem_of_list_all m l e Hlen Hl). unfold list_one. split.
    + destruct (_ensure_index m idx) as [[]|] eqn:E; cbn [res_bind]; [|done].
      apply Pop3Facts.ensure_index_inv in E.
      destruct (deleted_get m idx) eqn:Ed; [done|].
      rewrite index_size_at by (done || lia). cbn [res_bind].
      intros [= <-]. cbn [fst snd]. by rewrite Ed.
    + intros [(Hr & Hd & Hs) <-].
      rewrite Pop3Facts.ensure_index_ok by done. cbn [res_bind]. rewrite Hd.
      rewrite index_size_at by (done || lia). cbn [res_bind].
      destruct e as [i s]. cbn [fst snd] in *. by rewrite Hs.
  - rewrite Hin. unfold retr. split.
    + intros [p Hp]. destruct (_ensure_index m idx) as [[]|] eqn:E; cbn [res_bind] in Hp;
        [|done].
      apply Pop3Facts.ensure_index_inv in E.
      by destruct (deleted_get m idx).
    + intros [Hr Hd]. rewrite Pop3Facts.ensure_index_ok by done. cbn [res_bind].
      rewrite Hd.
      destruct (lookup_lt_is_Some_2 (messages m) (Z.to_nat (idx - 1))) as [p Hp]; [lia|].
      pose proof (Pop3Facts.index_lookup _ _ _ Hp) as Hi.
      rewrite Z2Nat.id in Hi by lia. rewrite Hi. cbn [res_bind].
      destruct (Hfiles p) as [f Hf]; [by eapply list_elem_of_lookup_2|].
      unfold stat. rewrite Hf. cbn [res_bind]. by eexists.
  - by rewrite Hin, Pop3Facts.dele_succeeds_iff.
Qed.

(** X10.  Once DELE has marked a message, LIST n, RETR n and a second
    DELE n on its number all raise the IndexError [Message already
    deleted], while every other number is served as before. *)
Theorem marked_message_is_hidden root m idx m' :
  dele m idx = Ok m' →
  list_one m' idx = Raise (IndexError "Message already deleted")
  ∧ retr root m' idx = Raise (IndexError "Message already deleted")
  ∧ dele m' idx = Raise (IndexError "Message already deleted")
  ∧ ∀ j, j ≠ idx →
      list_one m' j = list_one m j ∧ retr root m' j = retr root m j.
Proof.
  intros Hd.
  assert (1 ≤ idx ≤ Z.of_nat (length (messages m))) as Hr.
  { apply (Pop3Facts.dele_succeeds_iff m idx). by eexists. }
  apply Pop3Facts.dele_fields in Hd as (Hm & Hs & _ & Hdel).
  assert (∀ j, _ensure_index m' j = _ensure_index m j) as He
    by by intros j; unfold _ensure_index; rewrite Hm.
  assert (deleted_get m' idx = true) as Hi
    by by rewrite (Pop3Facts.deleted_get_insert m' idx idx _ Hdel), decide_True.
  unfold list_one, retr, dele.
  rewrite !He, Pop3Facts.ensure_index_ok by done. cbn [res_bind]. rewrite Hi.
  split; [done|]. split; [done|]. split; [done|].
  intros j Hj.
  assert (deleted_get m' j = deleted_get m j) as ->
    by by rewrite (Pop3Facts.deleted_get_insert m' idx j _ Hdel), decide_False.
  by rewrite !He, Hm, Hs.
Qed.

(** X11.  A successful DELE n takes one message off what STAT counts
    and the size LIST showed for it off the octets. *)
Theorem dele_lowers_stat m idx m' count octets :
  length (sizes m) = length (messages m) →
  dele m idx = Ok m' →
  count_and_octets m = Ok (count, octets) →
  count_and_octets m' = Ok (count - 1, octets - size_at m (idx - 1))
  ∧ list_one m idx = Ok (idx, size_at m (idx - 1)).
Proof.
  intros Hlen Hd Hc.
  assert (1 ≤ idx ≤ Z.of_nat (length (messages m)) ∧ deleted_get m idx = false)
    as [Hr Hnd].
  { apply (Pop3Facts.dele_succeeds_iff m idx). by eexists. }
  apply Pop3Facts.dele_fields in Hd as (Hm & Hs & _ & Hdel).
  assert (length (sizes m') = length (messages m')) as Hlen' by by rewrite Hm, Hs.
  pose proof (Pop3Facts.count_and_octets_list_all m) as H1.
  pose proof (Pop3Facts.count_and_octets_list_all m') as H2.
  pose proof (list_all_eq m Hlen) as E1. pose proof (list_all_eq m' Hlen') as E2.
  rewrite E1 in H1. rewrite E2 in H2. rewrite H1 in Hc. injection Hc as <- <-.
  set (l := (λ i, (i + 1, size_at m i))
              <$> filter (λ i, negb (deleted_get m (i + 1))) (indices m)) in *.
  set (l' := (λ i, (i + 1, size_at m' i))
               <$> filter (λ i, negb (deleted_get m' (i + 1))) (indices m')) in *.
  assert (l ≡ₚ (idx, size_at m (idx - 1)) :: l') as Hperm.
  { apply NoDup_Permutation.
    - by apply (list_all_NoDup m).
    - constructor; [|by apply (list_all_NoDup m')].
      intros (_ & Hd' & _)%(elem_of_list_all m' l' _ Hlen' E2). cbn [fst] in Hd'.
      by rewrite (Pop3Facts.deleted_get_insert m' idx idx _ Hdel), decide_True in Hd'.
    - intros e. rewrite elem_of_cons.
      rewrite (elem_of_list_all m l e Hlen E1), (elem_of_list_all m' l' e Hlen' E2).
      rewrite Hm, (Pop3Facts.deleted_get_insert m' idx e.1 _ Hdel).
      unfold size_at. rewrite Hs. fold (size_at m (e.1 - 1)).
      destruct e as [i s]. cbn [fst snd].
      destruct (decide (idx = i)) as [->|Hne].
      + split; [|intros [[= ->]|(_ & [=] & _)]; done].
        intros (_ & _ & ->). by left.
      + split; [intros (? & ? & ?); by right|].
        intros [[= -> _]|?]; done. }
  split.
  - rewrite H2. f_equal. f_equal.
    + rewrite Hperm. cbn [length]. lia.
    + rewrite (sum_Permutation _ _ (fmap_Permutation snd _ _ Hperm)).
      cbn [fmap list_fmap snd sum foldr]. unfold sum. lia.
  - unfold list_one. rewrite Pop3Facts.ensure_index_ok by done. cbn [res_bind].
    rewrite Hnd, index_size_at by (done || lia). done.
Qed.

Lemma filter_all {A} (P : A → Prop) `{!∀ x, Decision (P x)} (l : list A) :
  (∀ x, x ∈ l → P x) → filter P l = l.
Proof.
  induction l as [|x l IH]; intros Hall; [done|].
  rewrite filter_cons_True by (apply Hall; left).
  rewrite IH; [done|]. intros y Hy. apply Hall. by right.
Qed.

(** X12.  RSET makes every message visible again: LIST then numbers
    all of them, 1 to N, each with its size, and STAT counts N messages
    and the total of the sizes. *)
Theorem rset_relists_all m :
  length (sizes m) = length (messages m) →
  list_all (rset m) = Ok (zip (Z.of_nat <$> seq 1 (length (messages m))) (sizes m))
  ∧ count_and_octets (rset m)
    = Ok (Z.of_nat (length (messages m)), sum (sizes m)).
Proof.
  intros Hlen.
  assert (list_all (rset m)
          = Ok (zip (Z.of_nat <$> seq 1 (length (messages m))) (sizes m))) as Hl.
  { unfold list_all. rewrite filter_all.
    2: { intros i _. by rewrite Pop3Facts.deleted_get_rset. }
    rewrite (Pop3Facts.for_each_pair (Py.index (sizes (rset m))) (λ i b, (i + 1, b))).
    unfold indices. cbn [rset messages sizes].
    rewrite <- Hlen, for_each_index_all. cbn [res_bind]. f_equal.
    rewrite <- fmap_S_seq, <- list_fmap_compose.
    change (zip_with (λ i b, (i + 1, b)) (Z.of_nat <$> seq 0 (length (sizes m))) (sizes m)
            = zip_with pair (Z.of_nat ∘ S <$> seq 0 (length (sizes m))) (sizes m)).
    rewrite !zip_with_fmap_l. apply zip_with_ext; [|done|done].
    intros i b. cbn. f_equal. lia. }
  split; [done|].
  pose proof (Pop3Facts.count_and_octets_list_all (rset m)) as H. rewrite Hl in H.
  rewrite H. f_equal. f_equal.
  - rewrite length_zip, length_fmap, length_seq. lia.
  - rewrite snd_zip; [done|]. rewrite length_fmap, length_seq. lia.
Qed.

(** X13.  The UIDL of a message that survives [commit] is the one it
    had before: [commit] removes files and touches no other, so name,
    size and modification time of what is left are unchanged. *)
Theorem uidl_survives_commit root m root' m' :
  messages m = glob_eml root →
  uidls m = _uidl_for sha1_hex root <$> messages m →
  commit sha1_hex root m = (root', Ok m') →
  ∀ k p, messages m' !! k = Some p →
    ∃ j, messages m !! j = Some p
         ∧ is_Some (uidls m' !! k)
         ∧ uidls m' !! k = uidls m !! j.
Proof.
  intros Hm Hu Hc k p Hk.
  pose proof (Pop3Facts.commit_lookup sha1_hex root m p) as Hp.
  rewrite Pop3Facts.commit_snapshot in Hc, Hp. cbn [fst] in Hp.
  injection Hc as Hr <-. rewrite Hr in *.
  cbn [snapshot messages uidls] in *.
  assert (p ∈ glob_eml root') as Hin by by eapply list_elem_of_lookup_2.
  pose proof Hin as (f & Hf & Hext & Hreg)%Pop3Facts.elem_of_glob_eml.
  rewrite Hf in Hp.
  destruct (bool_decide (p ∈ marked_files m) && unlinks root p); [done|].
  assert (p ∈ messages m) as [j Hj]%list_elem_of_lookup.
  { rewrite Hm. apply Pop3Facts.elem_of_glob_eml. by exists f. }
  exists j. split; [done|].
  rewrite Hu, !list_lookup_fmap, Hk, Hj. cbn [fmap option_fmap option_map].
  split; [by eexists|]. unfold _uidl_for, stat. by rewrite Hf, <- Hp.
Qed.


End MaildropMore.

Lemma numbers_accepted_witness :
  (∀ e, list_one demo_maildrop 2 = Ok e ↔ e ∈ [(1, 11); (2, 7)] ∧ e.1 = 2)
  ∧ ((∃ p, retr demo_root demo_maildrop 2 = Ok p) ↔ 2 ∈ [(1, 11); (2, 7)].*1)
  ∧ ((∃ m', dele demo_maildrop 2 = Ok m') ↔ 2 ∈ [(1, 11); (2, 7)].*1).
Proof.
  apply (numbers_accepted demo_root demo_maildrop [(1, 11); (2, 7)] 2).
  - reflexivity.
  - intros p Hp. apply list_elem_of_In in Hp.
    destruct Hp as [<-|[<-|[]]]; eexists; vm_compute; reflexivity.
  - vm_compute. reflexivity.
Defined.

Lemma marked_message_is_hidden_witness :
  let m' := {| messages := messages demo_maildrop; sizes := sizes demo_maildrop;
               uidls := uidls demo_maildrop; deleted := <[1 := true]> ∅ |} in
  list_one m' 1 = Raise (IndexError "Message already deleted")
  ∧ retr demo_root m' 1 = Raise (IndexError "Message already deleted")
  ∧ dele m' 1 = Raise (IndexError "Message already deleted")
  ∧ ∀ j, j ≠ 1 →
      list_one m' j = list_one demo_maildrop j
      ∧ retr demo_root m' j = retr demo_root demo_maildrop j.
Proof.
  intros m'. apply (marked_message_is_hidden demo_root demo_maildrop 1 m').
  reflexivity.
Defined.

Lemma dele_lowers_stat_witness :
  let m' := {| messages := messages demo_maildrop; sizes := sizes demo_maildrop;
               uidls := uidls demo_maildrop; deleted := <[1 := true]> ∅ |} in
  count_and_octets m' = Ok (2 - 1, 18 - size_at demo_maildrop (1 - 1))
  ∧ list_one demo_maildrop 1 = Ok (1, size_at demo_maildrop (1 - 1)).
Proof.
  intros m'. apply (dele_lowers_stat demo_maildrop 1 m' 2 18).
  - reflexivity.
  - reflexivity.
  - vm_compute. reflexivity.
Defined.

Lemma rset_relists_all_witness :
  let m := {| messages := messages demo_maildrop; sizes := sizes demo_maildrop;
              uidls := uidls demo_maildrop; deleted := <[1 := true]> ∅ |} in
  list_all (rset m) = Ok (zip (Z.of_nat <$> seq 1 2) [11; 7])
  ∧ count_and_octets (rset m) = Ok (Z.of_nat 2, sum [11; 7]).
Proof.
  intros m. apply (rset_relists_all m). reflexivity.
Defined.

Lemma uidl_survives_commit_witness :
  ∃ j, messages (maildrop (self demo_world)) !! j = Some "20240101120000_b.eml"
       ∧ is_Some (uidls (snapshot demo_sha1
                           (commit demo_sha1 demo_root (maildrop (self demo_world))).1)
                    !! 0%nat)
       ∧ uidls (snapshot demo_sha1
                  (commit demo_sha1 demo_root (maildrop (self demo_world))).1) !! 0%nat
         = uidls (maildrop (self demo_world)) !! j.
Proof.
  refine (uidl_survives_commit demo_sha1 demo_root (maildrop (self demo_world))
            (commit demo_sha1 demo_root (maildrop (self demo_world))).1
            (snapshot demo_sha1
               (commit demo_sha1 demo_root (maildrop (self demo_world))).1)
            _ _ _ 0%nat "20240101120000_b.eml" _).
  - vm_compute. reflexivity.
  - vm_compute. reflexivity.
  - rewrite Pop3Facts.commit_snapshot. reflexivity.
  - vm_compute. reflexivity.
Defined.

(** ** The session *)

Section SessionMore.
Variable sha1_hex : string → string.

Ltac run_method :=
  cbv beta iota zeta delta
    [bind get lift ret set_maildrop set_self set_root _send_ok _send_err
     _write_line write _cmd_user _cmd_pass _cmd_stat _cmd_list _cmd_retr
     _cmd_dele do_commit try_except close snd fst];
  rewrite ?Pop3Facts.refresh_snapshot, ?Pop3Facts.commit_snapshot, ?snapshot_stat,
    ?write_lines_eq;
  repeat (first [ progress (rewrite ?Pop3Facts.refresh_snapshot,
                              ?Pop3Facts.commit_snapshot, ?snapshot_stat,
                              ?write_lines_eq in * )
                | case_match ];
          simplify_eq/=).


(** ** Before authentication *)

Lemma dispatch_stays_auth cmd_u args w r w' :
  state (self w) = AUTH →
  args ≠ [PASSWORD] →
  dispatch sha1_hex cmd_u args w = (r, w') →
  state (self w') = AUTH ∧ root w' = root w ∧ maildrop (self w') = maildrop (self w).
Proof.
  intros Hs Hno. unfold dispatch, bind at 1, get at 1.
  destruct (state (self w)) eqn:Hs'; [clear Hs|done].
  repeat case_bool_decide; run_method; intros [= <- <-]; try done.
  all: match goal with H : _ && _ = true |- _ =>
         apply andb_prop in H as [_ Hpw%bool_decide_eq_true] end.
  all: by subst.
Qed.

Lemma command_stays_auth line w :
  state (self w) = AUTH →
  (∀ cmd, Py.split (Py.rstrip_crlf line) ≠ [cmd; PASSWORD]) →
  state (self (command sha1_hex line w).2) = AUTH
  ∧ root (command sha1_hex line w).2 = root w
  ∧ maildrop (self (command sha1_hex line w).2) = maildrop (self w).
Proof.
  intros Hs Hno. unfold command.
  destruct (Py.split (Py.rstrip_crlf line)) as [|cmd args]; [done|].
  assert (args ≠ [PASSWORD]) as Hargs by (intros ->; by destruct (Hno cmd)).
  unfold try_except.
  destruct (dispatch sha1_hex (Py.upper cmd) args w) as [r w1] eqn:E.
  apply (dispatch_stays_auth _ _ _ _ _ Hs Hargs) in E.
  destruct r as [fl|e]; [done|]. run_method. done.
Qed.

(** X15.  A session whose lines are ASCII and in which no line
    consists of a command word followed by the configured password never
    leaves AUTH: the Maildrop is never loaded and the directory is not
    touched, whatever else the peer sends and also when a [readline()]
    call raises. *)
Theorem no_access_without_password input w :
  state (self w) = AUTH →
  Forall (λ r, ∀ line, r = Ok line →
            Smtp.ascii_line line = true
            ∧ ∀ cmd, Py.split (Py.rstrip_crlf line) ≠ [cmd; PASSWORD]) input →
  state (self (loop sha1_hex input w).2) = AUTH
  ∧ root (loop sha1_hex input w).2 = root w
  ∧ maildrop (self (loop sha1_hex input w).2) = maildrop (self w).
Proof.
  intros Hs Hin. revert w Hs. induction Hin as [|r input Hr _ IH]; intros w Hs;
    [done|].
  cbn [loop]. destruct r as [line|e]; [|done].
  destruct (Hr line eq_refl) as [_ Hline].
  destruct line as [|c line]; [done|].
  destruct (command_stays_auth (String c line) w Hs Hline) as (H1 & H2 & H3).
  unfold bind. destruct (command sha1_hex (String c line) w) as [[[|]|e] w1];
    cbn [fst snd] in *; [|done|done].
  destruct (IH w1 H1) as (-> & -> & ->). done.
Qed.


(** ** What a session does to the directory *)

Lemma dispatch_root_shrinks cmd_u args w p f :
  root (dispatch sha1_hex cmd_u args w).2 !! p = Some f → root w !! p = Some f.
Proof.
  unfold dispatch, bind at 1, get at 1.
  destruct (state (self w)) eqn:Hs; repeat case_bool_decide; run_method; try done.
  all: cbn [root self wire closed]; rewrite Pop3Facts.commit_fold_lookup; by case_match.
Qed.

Lemma command_root_shrinks line w p f :
  root (command sha1_hex line w).2 !! p = Some f → root w !! p = Some f.
Proof.
  unfold command.
  destruct (Py.split (Py.rstrip_crlf line)) as [|cmd args]; [done|].
  pose proof (dispatch_root_shrinks (Py.upper cmd) args w p f) as Hd.
  unfold try_except.
  destruct (dispatch sha1_hex (Py.upper cmd) args w) as [[fl|e] w1]; [done|].
  run_method. done.
Qed.

(** X16.  A session never creates a file and never changes one: every
    file in the directory when [run] ends was there, with the same
    content and attributes, when it began.  All a session can do to the
    directory is remove files. *)
Theorem directory_only_shrinks input w p f :
  root (run sha1_hex input w).2 !! p = Some f → root w !! p = Some f.
Proof.
  assert (∀ input w, root (loop sha1_hex input w).2 !! p = Some f → root w !! p = Some f)
    as Hloop.
  { clear. intros input. induction input as [|line input IH]; intros w; [done|].
    cbn [loop]. destruct line as [line|e]; [|done].
    destruct line as [|c line]; [done|].
    unfold bind. pose proof (command_root_shrinks (String c line) w p f) as Hc.
    destruct (command sha1_hex (String c line) w) as [[[|]|e] w1]; cbn [fst snd] in *;
      [|done|done].
    intros H. by apply Hc, IH. }
  unfold run. run_method.
  all: match goal with H : loop _ _ ?w0 = (_, ?w1) |- _ =>
         pose proof (Hloop input w0) as Hl; rewrite H in Hl; exact Hl end.
Qed.


(** ** Commands that fail *)




(** ** A session without blank lines *)

Lemma loop_returns input w :
  Forall (Smtp.returned (λ line, Smtp.ascii_line line = true ∧ has_word line)) input →
  ∃ w' more, loop sha1_hex input w = (Ok tt, w') ∧ wire w' = wire w ++ more.
Proof.
  intros Hin. revert w. induction Hin as [|r input Hr _ IH]; intros w.
  - exists w, []. by rewrite app_nil_r.
  - cbn [loop]. destruct r as [line|e]; [|done]. destruct Hr as [_ Hline].
    destruct line as [|c line].
    + exists w, []. by rewrite app_nil_r.
    + destruct (Pop3Facts.command_replies sha1_hex (String c line) w Hline)
        as (fl & reply & more & Hr & Hw & _).
      unfold bind.
      destruct (command sha1_hex (String c line) w) as [r w1]. cbn [fst snd] in *.
      subst r. destruct fl.
      * destruct (IH w1) as (w' & more' & -> & Hw').
        exists w', (reply :: more ++ more'). split; [done|].
        by rewrite Hw', Hw, <- app_assoc.
      * exists w1, (reply :: more). done.
Qed.

(** X18.  When every [readline()] call returns and every line it
    returns is ASCII with a word on it, [run] returns without an
    exception, whatever the commands and their arguments are: the
    greeting is the first thing written, nothing written is taken back,
    and the writer is closed at the end. *)
Theorem run_closes_writer input w :
  Forall (Smtp.returned (λ line, Smtp.ascii_line line = true ∧ has_word line)) input →
  ∃ w' more,
    run sha1_hex input w = (Ok tt, w')
    ∧ closed w' = true
    ∧ wire w' = wire w ++ Py.wire_line "+OK POP3 server ready" :: more.
Proof.
  intros Hin. unfold run, bind, _send_ok, _write_line, write, close.
  destruct (loop_returns input
              {| self := self w; root := root w;
                 wire := wire w ++ [("+OK " +:+ "POP3 server ready") +:+ Py.CRLF];
                 closed := closed w |} Hin) as (w' & more & -> & Hw).
  eexists _, more. split; [reflexivity|]. split; [done|].
  cbn [wire] in *. by rewrite Hw, <- app_assoc.
Qed.


End SessionMore.


Lemma no_access_without_password_witness :
  let input := Ok ∘ Py.wire_line <$> ["USER user"; "PASS guess"; "STAT"; "PASS"] in
  state (self (loop demo_sha1 input (connect demo_root)).2) = AUTH
  ∧ root (loop demo_sha1 input (connect demo_root)).2 = demo_root
  ∧ maildrop (self (loop demo_sha1 input (connect demo_root)).2) = empty.
Proof.
  intros input.
  apply (no_access_without_password demo_sha1 input (connect demo_root)).
  - reflexivity.
  - unfold input. cbn [fmap list_fmap compose].
    repeat (apply Forall_cons; split;
              [intros line [= <-]; split;
                 [reflexivity|intros cmd; vm_compute; discriminate]|]).
    constructor.
Defined.

Lemma directory_only_shrinks_witness :
  demo_root !! "20240101120000_b.eml" = Some (demo_file "From: b").
Proof.
  apply (directory_only_shrinks demo_sha1 [Ok (Py.wire_line "QUIT")] demo_world).
  vm_compute. reflexivity.
Defined.


Lemma run_closes_writer_witness :
  let input := Ok ∘ Py.wire_line <$> ["USER user"; "PASS pass"; "LIST 7"; "QUIT"; "STAT"] in
  ∃ w' more,
    run demo_sha1 input (connect demo_root) = (Ok tt, w')
    ∧ closed w' = true
    ∧ wire w' = wire (connect demo_root) ++ Py.wire_line "+OK POP3 server ready" :: more.
Proof.
  intros input. apply (run_closes_writer demo_sha1 input (connect demo_root)).
  repeat constructor; unfold has_word; vm_compute; discriminate.
Defined.

(** ** Numbers as the server prints them and reads them *)

Lemma isdigit_pretty_char y : Py.isdigit (pretty_N_char y) = true.
Proof. unfold pretty_N_char. by repeat case_match. Qed.

Lemma digit_pretty_char y : (y < 10)%N → Py.digit (pretty_N_char y) = Z.of_N y.
Proof.
  intros Hy.
  assert (y = 0 ∨ y = 1 ∨ y = 2 ∨ y = 3 ∨ y = 4 ∨ y = 5 ∨ y = 6 ∨ y = 7
          ∨ y = 8 ∨ y = 9)%N as H by lia.
  repeat (destruct H as [->|H]; [reflexivity|]). by subst.
Qed.

Lemma reads_pretty_go x s v n :
  reads s v n → ∃ n', reads (pretty_N_go x s) (Z.of_N x * 10 ^ n + v) n'.
Proof.
  revert s v n. induction (N.lt_wf_0 x) as [x _ IH]; intros s v n [Hn Hs].
  assert (x = 0 ∨ 0 < x)%N as [->|Hx] by lia.
  - rewrite pretty_N_go_0. exists n. split; [done|]. intros acc. rewrite Hs. f_equal; lia.
  - rewrite pretty_N_go_step by done.
    destruct (IH (x `div` 10)%N (N.div_lt x 10 Hx eq_refl)
                (String (pretty_N_char (x `mod` 10)) s)
                (Z.of_N (x `mod` 10) * 10 ^ n + v) (n + 1)) as [n' [Hn' H']].
    + split; [lia|]. intros acc. cbn [Py.digits].
      rewrite isdigit_pretty_char, Hs, digit_pretty_char by by apply N.mod_lt.
      f_equal. rewrite Z.pow_add_r by lia. lia.
    + exists n'. split; [done|]. intros acc. rewrite H'. f_equal.
      rewrite Z.pow_add_r by lia.
      rewrite (N.div_mod x 10) at 3 by done. lia.
Qed.

Lemma pretty_go_head x s :
  (0 < x)%N → ∃ c r, pretty_N_go x s = String c r ∧ Py.isdigit c = true.
Proof.
  revert s. induction (N.lt_wf_0 x) as [x _ IH]; intros s Hx.
  rewrite pretty_N_go_step by done.
  destruct (N.eq_0_gt_0_cases (x `div` 10)) as [->|Hd].
  - rewrite pretty_N_go_0. eexists _, _. split; [done|apply isdigit_pretty_char].
  - apply IH; [by apply N.div_lt|done].
Qed.

Lemma unsigned_pretty (p : positive) : Py.unsigned (pretty p) = Some (Zpos p).
Proof.
  unfold pretty, pretty_positive, pretty, pretty_N.
  rewrite decide_False by done.
  destruct (pretty_go_head (Npos p) "") as (c & r & E & Hc); [lia|].
  destruct (reads_pretty_go (Npos p) "" 0 0) as [n' [_ H]].
  { split; [done|]. intros acc. cbn. f_equal. lia. }
  unfold Py.unsigned. rewrite E, Hc, <- E, H. f_equal. cbn. lia.
Qed.

Lemma int_unsigned c r z :
  Py.isdigit c = true → Py.unsigned (String c r) = Some z →
  Py.count_digits (String c r) ≤ 4300 →
  Py.int (String c r) = Ok z.
Proof.
  intros Hc Hu Hn. unfold Py.int.
  apply Z.ltb_ge in Hn. rewrite Hn. clear Hn.
  destruct c as [[] [] [] [] [] [] [] []]; try discriminate Hc; by rewrite Hu.
Qed.

(** [int(str(z))] is [z], for a number of at most 4300 digits. *)
Lemma int_pretty (z : Z) :
  Py.count_digits (pretty z) ≤ 4300 → Py.int (pretty z) = Ok z.
Proof.
  destruct z as [|p|p]; [done| |].
  - intros Hn. pose proof (unsigned_pretty p) as Hu.
    change (pretty (Z.pos p)) with (pretty p) in *.
    destruct (pretty p) as [|c r] eqn:E; [done|].
    apply int_unsigned; [|done|done].
    unfold Py.unsigned in Hu. by destruct (Py.isdigit c).
  - change (pretty (Z.neg p)) with ("-" +:+ pretty p).
    rewrite app_cons, app_empty. intros Hn%Z.ltb_ge. unfold Py.int.
    by rewrite unsigned_pretty, Hn.
Qed.

Section Served.
Variable sha1_hex : string → string.

(** X19.  Every entry LIST prints can be given back: for an entry
    (i, size) of LIST, on a Maildrop with one size per message whose
    files are there and hold ASCII text, LIST i answers with the same
    entry, RETR i answers [+OK size octets] and sends the file of
    message i dot-stuffed and ended by the lone dot, and DELE i marks
    message i and nothing else.  The number is one [int] accepts: it has
    at most 4300 digits. *)
Theorem listed_numbers_are_served w l i size :
  let m := maildrop (self w) in
  length (sizes m) = length (messages m) →
  (∀ p, p ∈ messages m →
        ∃ f, root w !! p = Some f ∧ Smtp.ascii_line (content f) = true) →
  list_all m = Ok l →
  (i, size) ∈ l →
  Py.count_digits (pretty i) ≤ 4300 →
  ∃ p f,
    messages m !! Z.to_nat (i - 1) = Some p
    ∧ root w !! p = Some f
    ∧ Smtp.ascii_line (content f) = true
    ∧ _cmd_list [pretty i] w =
        (Ok tt, {| self := self w; root := root w;
                   wire := wire w ++
                     [Py.wire_line ("+OK " +:+ pretty i +:+ " " +:+ pretty size)];
                   closed := closed w |})
    ∧ _cmd_retr [pretty i] w =
        (Ok tt, {| self := self w; root := root w;
                   wire := wire w ++
                     [Py.wire_line ("+OK " +:+ pretty size +:+ " octets");
                      payload (content f)];
                   closed := closed w |})
    ∧ _cmd_dele [pretty i] w =
        (Ok tt, {| self := {| state := state (self w); user := user (self w);
                              maildrop := {| messages := messages m; sizes := sizes m;
                                             uidls := uidls m;
                                             deleted := <[i := true]> (deleted m) |} |};
                   root := root w;
                   wire := wire w ++
                     [Py.wire_line ("+OK Message " +:+ pretty i +:+ " deleted")];
                   closed := closed w |}).
Proof.
  intros m Hlen Hfiles Hl Hin Hdigits.
  apply (elem_of_list_all m l _ Hlen Hl) in Hin as (Hr & Hd & Hs).
  cbn [fst snd] in *.
  destruct (lookup_lt_is_Some_2 (messages m) (Z.to_nat (i - 1))) as [p Hp]; [lia|].
  destruct (Hfiles p) as (f & Hf & Hascii); [by eapply list_elem_of_lookup_2|].
  exists p, f. split; [done|]. split; [done|]. split; [done|].
  assert (list_one m i = Ok (i, size)) as Hone.
  { unfold list_one. rewrite Pop3Facts.ensure_index_ok by done. cbn [res_bind].
    rewrite Hd, index_size_at by (done || lia). by rewrite Hs. }
  assert (retr (root w) m i = Ok (payload (content f))) as Hretr.
  { unfold retr. rewrite Pop3Facts.ensure_index_ok by done. cbn [res_bind]. rewrite Hd.
    pose proof (Pop3Facts.index_lookup _ _ _ Hp) as Hi.
    rewrite Z2Nat.id in Hi by lia. rewrite Hi. cbn [res_bind].
    unfold stat. by rewrite Hf. }
  assert (dele m i = Ok {| messages := messages m; sizes := sizes m; uidls := uidls m;
                           deleted := <[i := true]> (deleted m) |}) as Hdele.
  { unfold dele. rewrite Pop3Facts.ensure_index_ok by done. cbn [res_bind].
    by rewrite Hd. }
  split; [|split].
  - unfold _cmd_list. cbv beta iota zeta delta [bind get lift]. rewrite int_pretty by done.
    fold m. rewrite Hone. reflexivity.
  - unfold _cmd_retr. cbv beta iota zeta delta [bind get lift]. rewrite int_pretty by done.
    fold m. rewrite Hretr, Hone. cbv beta iota zeta delta [_send_ok _write_line write].
    cbn [self root wire closed]. by rewrite <- app_assoc.
  - unfold _cmd_dele. cbv beta iota zeta delta [bind get lift]. rewrite int_pretty by done.
    fold m. rewrite Hdele. reflexivity.
Qed.

End Served.

Lemma listed_numbers_are_served_witness :
  ∃ p f,
    messages demo_maildrop !! Z.to_nat (2 - 1) = Some p
    ∧ demo_root !! p = Some f
    ∧ _cmd_retr [pretty 2] demo_world =
        (Ok tt, {| self := self demo_world; root := demo_root;
                   wire := [Py.wire_line ("+OK " +:+ pretty 7 +:+ " octets");
                            payload (content f)];
                   closed := false |}).
Proof.
  destruct (listed_numbers_are_served demo_world [(2, 7)] 2 7)
    as (p & f & H1 & H2 & _ & _ & H3 & _).
  - reflexivity.
  - intros p Hp. apply list_elem_of_In in Hp.
    destruct Hp as [<-|[<-|[]]]; eexists; split; vm_compute; reflexivity.
  - vm_compute. reflexivity.
  - left.
  - vm_compute. discriminate.
  - exists p, f. split; [exact H1|]. split; [exact H2|exact H3].
Defined.

End Pop3More.

(** * More about the two servers together: deliveries and relayed messages *)

Module MailMore.
Import Smtp Pop3 PyFacts.

(** ** A delivery seen from POP3 *)

Lemma no_lf_app a b : no_lf (a +:+ b) = no_lf a && no_lf b.
Proof.
  unfold no_lf. induction a as [|c a IH]; [done|].
  rewrite app_cons. cbn [list_ascii_of_string forallb]. by rewrite IH, andb_assoc.
Qed.

Lemma split_lf_line a b :
  no_lf a = true → Py.split_lf ((a +:+ Py.LF) +:+ b) = a :: Py.split_lf b.
Proof.
  rewrite app_assoc_string.
  unfold no_lf. induction a as [|c a IH]; [done|].
  cbn [list_ascii_of_string forallb]. intros [Hc Ha]%andb_prop.
  rewrite app_cons. cbn [Py.split_lf]. apply negb_true_iff in Hc. rewrite Hc.
  by rewrite (IH Ha).
Qed.

(** X20.  The record [save_email] writes reads back line by line: the
    first line names the sender, the next ones the recipients in the
    order they were accepted, then comes one empty line, and what
    follows it is the body, provided no address has a line feed in it
    (none has in a session, where an address is part of one line). *)
Theorem record_text_lines mf rc body :
  no_lf (Py.fmt mf) = true →
  Forall (λ rcpt, no_lf rcpt = true) rc →
  Py.split_lf (record_text mf rc body)
  = ("From: " +:+ Py.fmt mf) :: (String.app "To: " <$> rc) ++ "" :: Py.split_lf body.
Proof.
  intros Hmf Hrc. unfold record_text.
  rewrite <- (app_assoc_string "From: " (Py.fmt mf) Py.LF).
  rewrite split_lf_line by by rewrite no_lf_app, Hmf.
  f_equal.
  induction Hrc as [|rcpt rc Hrcpt _ IH]; cbn [foldr fold_right fmap list_fmap app].
  - apply (split_lf_line "" body). done.
  - rewrite <- (app_assoc_string "To: " rcpt Py.LF).
    rewrite split_lf_line by by rewrite no_lf_app, Hrcpt.
    by rewrite IH.
Qed.


Section Delivery.
Variable sha1_hex : string → string.

(** X21.  A delivery under a file name that is not in the mailbox yet
    leaves every other file as it is and adds exactly one message to
    what POP3 enumerates: the new name is listed along with the old
    ones, and the count a POP3 login reports goes up by one, the octets
    by the length of the record written. *)
Theorem delivery_adds_one_message stamp uid mtime mf rc body mailbox :
  mailbox !! filename stamp uid = None →
  let mailbox' := save_email stamp uid mtime mf rc body mailbox in
  (∀ p, p ≠ filename stamp uid → mailbox' !! p = mailbox !! p)
  ∧ glob_eml mailbox' ≡ₚ filename stamp uid :: glob_eml mailbox
  ∧ ∃ count octets,
      count_and_octets (snapshot sha1_hex mailbox) = Ok (count, octets)
      ∧ count_and_octets (snapshot sha1_hex mailbox')
        = Ok (count + 1, octets + Z.of_nat (String.length (record_text mf rc body))).
Proof.
  intros Hfresh mailbox'.
  set (name := filename stamp uid) in *.
  assert (∀ p, p ≠ name → mailbox' !! p = mailbox !! p) as Hframe.
  { intros p Hp. unfold mailbox', save_email. by rewrite lookup_insert_ne. }
  assert (mailbox' !! name
          = Some {| is_file := true; content := record_text mf rc body;
                    st_mtime := mtime; unlink_raises := false |}) as Hnew.
  { unfold mailbox', save_email. apply lookup_insert_eq. }
  assert (name ∉ glob_eml mailbox) as Hnotin.
  { intros (f & Hf & _)%Pop3Facts.elem_of_glob_eml. congruence. }
  assert (glob_eml mailbox' ≡ₚ name :: glob_eml mailbox) as Hperm.
  { apply NoDup_Permutation.
    - apply Pop3Facts.NoDup_glob_eml.
    - constructor; [done|apply Pop3Facts.NoDup_glob_eml].
    - intros p. rewrite elem_of_cons, !Pop3Facts.elem_of_glob_eml.
      destruct (decide (p = name)) as [->|Hp].
      + split; [by left|]. intros _. eexists. split; [exact Hnew|].
        split; [apply MailFacts.endswith_filename|done].
      + rewrite (Hframe p Hp). split; [by right|]. by intros [?|?]. }
  split; [done|]. split; [done|].
  eexists _, _. split; [apply Pop3More.snapshot_stat|].
  rewrite Pop3More.snapshot_stat. cbn [snapshot sizes]. f_equal. f_equal.
  - rewrite Hperm. cbn [length]. lia.
  - rewrite (Pop3More.sum_Permutation _ _ (fmap_Permutation _ _ _ Hperm)).
    cbn [fmap list_fmap sum foldr]. rewrite Hnew. cbn [from_option].
    unfold st_size at 1. cbn [content].
    replace ((λ p, from_option st_size 0 (mailbox' !! p)) <$> glob_eml mailbox)
      with ((λ p, from_option st_size 0 (mailbox !! p)) <$> glob_eml mailbox).
    + unfold sum. lia.
    + apply list_fmap_ext. intros _ p Hp%list_elem_of_lookup_2.
      rewrite Hframe; [done|]. by intros ->.
Qed.

End Delivery.
Lemma delivery_adds_one_message_witness :
  let name := filename "20240101120001" "9f1c2a60-0000-4000-8000-000000000003" in
  let mailbox' :=
    save_email "20240101120001" "9f1c2a60-0000-4000-8000-000000000003" 1704110401
      (Some "alice@example.com") ["bob@example.com"] "Hello," demo_root in
  glob_eml mailbox' ≡ₚ name :: glob_eml demo_root
  ∧ ∃ count octets,
      count_and_octets (snapshot demo_sha1 demo_root) = Ok (count, octets)
      ∧ count_and_octets (snapshot demo_sha1 mailbox')
        = Ok (count + 1,
              octets + Z.of_nat (String.length
                         (record_text (Some "alice@example.com") ["bob@example.com"]
                            "Hello,"))).
Proof.
  intros name mailbox'.
  destruct (delivery_adds_one_message demo_sha1
              "20240101120001" "9f1c2a60-0000-4000-8000-000000000003" 1704110401
              (Some "alice@example.com") ["bob@example.com"] "Hello," demo_root)
    as (_ & H1 & H2); [vm_compute; reflexivity|].
  split; [exact H1|exact H2].
Defined.

Lemma record_text_lines_witness :
  Py.split_lf (record_text (Some "alice@example.com")
                 ["bob@example.com"; "carol@example.com"]
                 ("Subject: hi" +:+ Py.LF +:+ "Hello,"))
  = ["From: alice@example.com"; "To: bob@example.com"; "To: carol@example.com";
     ""; "Subject: hi"; "Hello,"].
Proof.
  apply (record_text_lines (Some "alice@example.com")
           ["bob@example.com"; "carol@example.com"]
           ("Subject: hi" +:+ Py.LF +:+ "Hello,")).
  - reflexivity.
  - repeat constructor.
Defined.

(** ** What [retr] sends, line by line *)

Lemma readlines_line a rest :
  no_lf a = true →
  Py.readlines (Py.wire_line a +:+ rest) = Py.wire_line a :: Py.readlines rest.
Proof.
  unfold no_lf, Py.wire_line. induction a as [|c a IH].
  - intros _. reflexivity.
  - cbn [list_ascii_of_string forallb]. intros [Hc Ha]%andb_prop.
    rewrite !app_cons. cbn [Py.readlines]. apply negb_true_iff in Hc. rewrite Hc.
    by rewrite (IH Ha).
Qed.

Lemma readlines_join outs tail :
  Forall (λ l, no_lf l = true) outs → outs ≠ [] →
  Py.readlines (Py.wire_line (Py.join Py.CRLF outs) +:+ tail)
  = (Py.wire_line <$> outs) ++ Py.readlines tail.
Proof.
  intros H. induction H as [|x outs Hx _ IH]; [done|]. intros _.
  destruct outs as [|y outs].
  - cbn [Py.join fmap list_fmap app]. by apply readlines_line.
  - change (Py.join Py.CRLF (x :: y :: outs))
      with (x +:+ Py.CRLF +:+ Py.join Py.CRLF (y :: outs)).
    unfold Py.wire_line at 1.
    rewrite !app_assoc_string.
    change (x +:+ Py.CRLF +:+ Py.join Py.CRLF (y :: outs) +:+ Py.CRLF +:+ tail)
      with (x +:+ Py.CRLF +:+ (Py.join Py.CRLF (y :: outs) +:+ Py.CRLF +:+ tail)).
    rewrite <- (app_assoc_string x Py.CRLF).
    change (x +:+ Py.CRLF) with (Py.wire_line x).
    rewrite readlines_line by done.
    rewrite <- (app_assoc_string _ Py.CRLF tail).
    change (Py.join Py.CRLF (y :: outs) +:+ Py.CRLF)
      with (Py.wire_line (Py.join Py.CRLF (y :: outs))).
    by rewrite IH.
Qed.

Lemma split_lf_cons s : ∃ l ls, Py.split_lf s = l :: ls.
Proof.
  induction s as [|c s (l & ls & IH)]; [by eexists _, _|].
  cbn [Py.split_lf]. case_bool_decide; [by eexists _, _|].
  rewrite IH. by eexists _, _.
Qed.

Lemma join_split_lf s : Py.join Py.LF (Py.split_lf s) = s.
Proof.
  induction s as [|c s IH]; [done|].
  cbn [Py.split_lf]. destruct (split_lf_cons s) as (l & ls & E).
  rewrite E in *. case_bool_decide as Hc.
  - subst c. change (Py.join Py.LF ("" :: l :: ls))
      with ("" +:+ Py.LF +:+ Py.join Py.LF (l :: ls)).
    by rewrite IH.
  - destruct ls as [|x ls].
    + cbn [Py.join] in *. by rewrite IH.
    + change (Py.join Py.LF (String c l :: x :: ls))
        with (String c l +:+ Py.LF +:+ Py.join Py.LF (x :: ls)).
      change (Py.join Py.LF (l :: x :: ls))
        with (l +:+ Py.LF +:+ Py.join Py.LF (x :: ls)) in IH.
      by rewrite app_cons, IH.
Qed.

(** The pieces of [split("\n")] have no LF, and their characters are
    characters of the text. *)
Lemma split_lf_pieces (P : ascii → bool) s :
  forallb (λ c, bool_decide (c = "010"%char) || P c) (list_ascii_of_string s) = true →
  Forall (λ l, forallb (λ c, negb (bool_decide (c = "010"%char)) && P c)
                 (list_ascii_of_string l) = true) (Py.split_lf s).
Proof.
  induction s as [|c s IH]; [by repeat constructor|].
  cbn [list_ascii_of_string forallb]. intros [Hc Hs]%andb_prop.
  specialize (IH Hs). cbn [Py.split_lf].
  destruct (split_lf_cons s) as (l & ls & E). rewrite E in *.
  apply Forall_cons in IH as [Hl Hls].
  destruct (bool_decide (c = "010"%char)) eqn:Ec.
  - by repeat constructor.
  - constructor; [|done]. cbn [list_ascii_of_string forallb].
    rewrite Ec, Hl. cbn in Hc. by rewrite Hc.
Qed.

Lemma replace_cr_chars (P : ascii → bool) s :
  P "010"%char = true →
  forallb P (list_ascii_of_string s) = true →
  forallb (λ c, negb (bool_decide (c = "013"%char)) && P c)
    (list_ascii_of_string (Py.replace_cr s)) = true.
Proof.
  intros HP. induction s as [|c s IH]; [done|].
  cbn [list_ascii_of_string forallb Py.replace_cr]. intros [Hc Hs]%andb_prop.
  rewrite (IH Hs), andb_true_r.
  destruct (bool_decide (c = "013"%char)) eqn:Ec; [exact HP|].
  by rewrite Ec, Hc.
Qed.

Lemma replace_crlf_eq c s :
  Py.replace_crlf (String c s)
  = if bool_decide (c = "013"%char) && Py.startswith s Py.LF
    then String "010"%char (Py.replace_crlf (Py.tail s))
    else String c (Py.replace_crlf s).
Proof.
  destruct (bool_decide (c = "013"%char)) eqn:Ec.
  - apply bool_decide_eq_true in Ec as ->.
    destruct s as [|d s]; [done|].
    unfold Py.LF. rewrite startswith_cons, startswith_nil, andb_true_r.
    cbn [andb]. destruct (bool_decide (d = "010"%char)) eqn:Ed.
    + by apply bool_decide_eq_true in Ed as ->.
    + apply bool_decide_eq_false in Ed.
      destruct d as [[] [] [] [] [] [] [] []]; done.
  - apply bool_decide_eq_false in Ec. cbn [andb].
    destruct c as [[] [] [] [] [] [] [] []]; done.
Qed.

Lemma replace_crlf_chars (P : ascii → bool) s :
  forallb P (list_ascii_of_string s) = true →
  forallb P (list_ascii_of_string (Py.replace_crlf s)) = true.
Proof.
  assert (∀ n s, (String.length s ≤ n)%nat →
            forallb P (list_ascii_of_string s) = true →
            forallb P (list_ascii_of_string (Py.replace_crlf s)) = true) as H.
  { clear s. induction n as [|n IH]; intros s Hn.
    - destruct s; [done|cbn in Hn; lia].
    - destruct s as [|c s]; [done|]. cbn [String.length] in Hn.
      rewrite replace_crlf_eq. cbn [list_ascii_of_string forallb].
      intros [Hc Hs]%andb_prop.
      destruct (bool_decide (c = "013"%char) && Py.startswith s Py.LF) eqn:E.
      + destruct s as [|d s]; [by rewrite andb_false_r in E|].
        cbn [Py.tail]. unfold Py.LF in E.
        rewrite startswith_cons, startswith_nil, andb_true_r in E.
        apply andb_prop in E as [_ Ed%bool_decide_eq_true]. subst d.
        cbn [list_ascii_of_string forallb] in *.
        apply andb_prop in Hs as [-> Hs]. cbn [andb].
        apply IH; [cbn [String.length] in Hn; lia|done].
      + cbn [list_ascii_of_string forallb]. rewrite Hc. cbn [andb].
        apply IH; [lia|done]. }
  by apply (H (String.length s)).
Qed.

Lemma forallb_mono (P Q : ascii → bool) l :
  (∀ c, P c = true → Q c = true) → forallb P l = true → forallb Q l = true.
Proof.
  intros HPQ. induction l as [|c l IH]; [done|]. cbn [forallb].
  intros [Hc Hl]%andb_prop. by rewrite (HPQ _ Hc), (IH Hl).
Qed.

(** The lines of the normalized text: no CR, no LF, and every property
    of the characters of the text that LF has as well. *)
Lemma normalized_lines (P : ascii → bool) text :
  P "010"%char = true →
  forallb P (list_ascii_of_string text) = true →
  Forall (λ l, forallb (λ c, P c && negb (Py.is_crlf c)) (list_ascii_of_string l) = true)
    (Py.split_lf (Py.replace_cr (Py.replace_crlf text))).
Proof.
  intros HP Ht.
  pose proof (replace_cr_chars P _ HP (replace_crlf_chars P _ Ht)) as Hn.
  eapply Forall_impl.
  - apply (split_lf_pieces (λ c, negb (bool_decide (c = "013"%char)) && P c)).
    eapply forallb_mono; [|exact Hn]. intros c ->. apply orb_true_r.
  - intros l. cbn beta. apply forallb_mono. intros c. unfold Py.is_crlf.
    intros [Hlf [Hcr ->]%andb_prop]%andb_prop.
    apply negb_true_iff in Hlf, Hcr. by rewrite Hlf, Hcr.
Qed.

Lemma bare_dot_stuff line : bare line = true → bare (dot_stuff line) = true.
Proof.
  destruct line as [|c line]; [done|]. rewrite MailFacts.dot_stuff_cons.
  case_bool_decide as Hc; [|done]. intros Hp. unfold bare in *.
  cbn [list_ascii_of_string forallb] in *. by rewrite Hp.
Qed.

Lemma bare_no_lf line : bare line = true → no_lf line = true.
Proof.
  apply forallb_mono. intros c. unfold Py.is_crlf.
  intros [_ Hlf]%negb_true_iff%orb_false_elim. by rewrite Hlf.
Qed.

Lemma readlines_payload text :
  Py.readlines (payload text)
  = (Py.wire_line <$>
       (dot_stuff <$> Py.split_lf (Py.replace_cr (Py.replace_crlf text))))
    ++ [Py.wire_line "."].
Proof.
  unfold payload.
  set (outs := dot_stuff <$> Py.split_lf (Py.replace_cr (Py.replace_crlf text))).
  rewrite <- (app_assoc_string (Py.join Py.CRLF outs) Py.CRLF).
  change (Py.join Py.CRLF outs +:+ Py.CRLF) with (Py.wire_line (Py.join Py.CRLF outs)).
  rewrite readlines_join; [done| |].
  - unfold outs. apply Forall_fmap.
    eapply Forall_impl; [apply (normalized_lines (λ _, true)); [done|]|].
    + by induction (list_ascii_of_string text).
    + intros l Hl. cbn. apply bare_no_lf, bare_dot_stuff. exact Hl.
  - unfold outs.
    destruct (split_lf_cons (Py.replace_cr (Py.replace_crlf text))) as (l & ls & ->).
    done.
Qed.

Lemma retr_payload root m idx p :
  retr root m idx = Ok p →
  ∃ name f, Py.index (messages m) (idx - 1) = Ok name
            ∧ root !! name = Some f
            ∧ p = payload (content f).
Proof.
  unfold retr, stat. destruct (_ensure_index m idx); cbn [res_bind]; [|done].
  destruct (deleted_get m idx); [done|].
  destruct (Py.index (messages m) (idx - 1)) as [name|]; cbn [res_bind]; [|done].
  destruct (root !! name) as [f|] eqn:Ef; cbn [res_bind]; [|done].
  intros [= <-]. by exists name, f.
Qed.

(** X22.  What [retr] returns, read line by line, is a sequence of
    lines ended by CR LF with no other CR or LF in them, none of which
    is the lone dot, and then the lone dot: the first line that is a
    lone dot is the end of the message, whatever the file holds. *)
Theorem retr_payload_framing root m idx p :
  retr root m idx = Ok p →
  ∃ outs,
    Py.readlines p = (Py.wire_line <$> outs) ++ [Py.wire_line "."]
    ∧ Forall (λ l, bare l = true ∧ l ≠ ".") outs.
Proof.
  intros (name & f & _ & _ & ->)%retr_payload.
  eexists. split; [apply readlines_payload|].
  apply Forall_fmap.
  eapply Forall_impl; [apply (normalized_lines (λ _, true)); [done|]|].
  - by induction (list_ascii_of_string (content f)).
  - intros l Hl. cbn. split; [by apply bare_dot_stuff|].
    apply MailFacts.dot_stuff_not_dot.
Qed.

Section Relay.
Variable hostname : string.

(** X23.  A message retrieved from the maildrop and sent on as the
    body of a DATA phase is read back in full: when the file is ASCII,
    the DATA loop fed with what [retr] returned stops at its last line,
    leaves the rest of the input for the command loop, and saves the
    text of the file with its line ends normalized to LF. *)
Theorem retrieved_message_relays root m idx p name f st rest :
  retr root m idx = Ok p →
  Py.index (messages m) (idx - 1) = Ok name →
  root !! name = Some f →
  ascii_line (content f) = true →
  rcpt_to st ≠ [] →
  let body := Py.replace_cr (Py.replace_crlf (content f)) in
  Smtp.command hostname st "DATA" ((Ok <$> Py.readlines p) ++ rest) =
    ([Send "354 End data with <CRLF>.<CRLF>";
      SaveEmail (mail_from st) (rcpt_to st) body;
      Send "250 OK: Message accepted for delivery"],
     Ok (delivered st body, rest, Next)).
Proof.
  intros (name' & f' & Hn & Hf & ->)%retr_payload Hname Hfile Hascii Hr body.
  assert (f' = f) as -> by congruence.
  rewrite SmtpFacts.command_DATA. destruct (rcpt_to st) eqn:E; [done|].
  rewrite readlines_payload, fmap_app, <- (list_fmap_compose dot_stuff Py.wire_line),
    <- app_assoc.
  cbn [app fmap list_fmap].
  rewrite MailFacts.transfer_read_back.
  - by rewrite join_split_lf.
  - apply (normalized_lines Py.is_ascii); done.
Qed.

End Relay.

Lemma retr_payload_framing_witness :
  ∃ outs,
    Py.readlines (payload "From: alice")
    = (Py.wire_line <$> outs) ++ [Py.wire_line "."]
    ∧ Forall (λ l, bare l = true ∧ l ≠ ".") outs.
Proof.
  apply (retr_payload_framing demo_root demo_maildrop 1 (payload "From: alice")).
  vm_compute. reflexivity.
Defined.

Lemma retrieved_message_relays_witness :
  let st := {| helo := Some "relay.test"; mail_from := Some "alice@example.com";
               rcpt_to := ["bob@example.com"]; data := None |} in
  Smtp.command "mx" st "DATA"
    ((Ok <$> Py.readlines (payload "From: alice")) ++ [Ok (Py.wire_line "QUIT")]) =
    ([Send "354 End data with <CRLF>.<CRLF>";
      SaveEmail (Some "alice@example.com") ["bob@example.com"] "From: alice";
      Send "250 OK: Message accepted for delivery"],
     Ok (delivered st "From: alice", [Ok (Py.wire_line "QUIT")], Next)).
Proof.
  intros st.
  apply (retrieved_message_relays "mx" demo_root demo_maildrop 1
           (payload "From: alice") "20240101115959_a.eml" (demo_file "From: alice")
           st [Ok (Py.wire_line "QUIT")]).
  - vm_compute. reflexivity.
  - reflexivity.
  - vm_compute. reflexivity.
  - reflexivity.
  - discriminate.
Defined.

End MailMore.
